(** * Greyhole detection: the watchdog reputation protocol of [Watchdog.Cpp]

    A shallow embedding of the two ns-3 applications of the program,
    [GreyholeNode] and [WatchdogNode], of the process-wide convergence
    variables they share, of the part of the simulator they call
    (Schedule, Cancel, Now) and of the configuration [main] builds,
    followed by the properties of the protocol.

    C++ [double] values are IEEE-754 binary64 numbers, embedded with the
    executable specification of the Standard Library ([SpecFloat]), so
    that rounding, NaN and the signed infinities behave as in the program.
    A method that runs into undefined behaviour (a null [Ptr], an index
    past the end of [nodesStatus]) returns [None].

    The network below the applications (radio, routing, the UDP echo
    traffic) is not part of the embedding; the two packet totals of
    [main] are, with their callbacks and the loss rate [main] prints
    from them. *)

From Stdlib Require Import ZArith Bool List Lia.
From Stdlib Require Import Floats.SpecFloat.
From stdpp Require Import base option list.

Local Open Scope Z_scope.

(** ** IEEE-754 binary64 arithmetic *)

Module Double.

Definition double : Type := spec_float.

Definition prec : Z := 53.
Definition emax : Z := 1024.

(** Conversion of an integer to [double], as [(double)n] does. *)
Definition of_Z (n : Z) : double := binary_normalize prec emax n 0 false.

Definition add : double -> double -> double := SFadd prec emax.
Definition sub : double -> double -> double := SFsub prec emax.
Definition div : double -> double -> double := SFdiv prec emax.
Definition opp : double -> double := SFopp.

(** The comparison operators of C++: all of them are false on NaN. *)
Definition ltb (x y : double) : bool := SFltb x y.
Definition leb (x y : double) : bool := SFleb x y.
Definition gtb (x y : double) : bool := SFltb y x.
Definition geb (x y : double) : bool := SFleb y x.

Definition is_nan (x : double) : bool :=
  match x with S754_nan => true | _ => false end.

(** The decimal literal [n/d] of the source text: the compiler rounds it
    to the nearest binary64 number, which is what the division of the
    two exactly representable integers yields. *)
Definition literal (n d : Z) : double := div (of_Z n) (of_Z d).

Definition zero : double := S754_zero false.
Definition one : double := of_Z 1.

End Double.

Import Double.

(** ** Machine integers *)

Definition uint32_t : Type := Z.
Definition UINT32_MOD : Z := 2 ^ 32.

(** [x++] on a [uint32_t]. *)
Definition uint32_incr (x : uint32_t) : uint32_t := (x + 1) mod UINT32_MOD.

(** ** The data of the program *)

Inductive NodeStatus : Type :=
| NO_STATUS
| POSITIVE_STATUS
| NEGATIVE_STATUS.

(** [Ptr<Node>]: a node is known to the program by its id only
    ([GetId]); [None] is the null pointer. *)
Definition Ptr_Node : Type := option uint32_t.

(** [p->GetId()]: dereferencing the null pointer is undefined. *)
Definition GetId (p : Ptr_Node) : option uint32_t := p.

(** Simulated time, in the integral nanoseconds ns-3 counts in. *)
Definition Time : Type := Z.

(** [Seconds(1.0)] *)
Definition Seconds_1 : Time := 1000000000.

(** Modelled from the spec: [Time::GetSeconds] belongs to the simulator
    ([now() -> timestamp]), which is not part of the program text; the
    timestamp is converted to a [double] number of seconds. *)
Definition GetSeconds (t : Time) : double := div (of_Z t) (of_Z 1000000000).

(** [EventId]: the uid of the scheduled event, [None] for the
    default-constructed handle. *)
Definition EventId : Type := option Z.

Definition Packet : Type := list Byte.byte.

(** The lines the program prints with [NS_LOG_UNCOND]. *)
Inductive LogLine : Type :=
| LogGreyholeStart (id : uint32_t)
| LogGreyholeStop (id : uint32_t)
| LogPacketDropped (id : uint32_t)
| LogWatchdogStart (id : uint32_t)
| LogWatchdogStop (id : uint32_t)
| LogTerminated (id : uint32_t)
| LogLossRate (id : uint32_t) (rate : double)
| LogMonitoring (id : uint32_t)
| LogPositiveEvent (id : uint32_t) (reputation : double)
| LogNegativeEvent (id : uint32_t) (reputation : double)
| LogNoInformation (id : uint32_t)
| LogState (id : uint32_t) (state : NodeStatus)
| LogConverged (time : double).

Record GreyholeNode : Type := {
  gh_socket : option Z;
  gh_node : Ptr_Node;
  gh_dropProbability : double
}.

(** [m_neighborStatus] is declared by the class and used by none of its
    methods; it is left out. *)
Record WatchdogNode : Type := {
  m_node : Ptr_Node;
  m_gamma : double;
  m_reputation : double;
  m_threshold : double;
  m_event : EventId;
  m_monitorCount : uint32_t;
  m_receivedPackets : uint32_t;
  m_sentPackets : uint32_t;
  m_packetLossRate : double
}.

Definition m_maxMonitorCount : uint32_t := 10.

(** A pending event of the simulator: every event the program schedules
    is a call of [MonitorNode] on the watchdog object [ev_self]. *)
Record Event : Type := {
  ev_ts : Time;
  ev_uid : Z;
  ev_self : nat
}.

(** Everything outside the object a method runs on: the three global
    variables of the program, the simulator, the generator behind
    [rand()], the packets handed to sockets and the log. *)
Record Env : Type := {
  allNodesConverged : bool;
  nodesStatus : list bool;
  convergenceTime : double;
  sim_now : Time;
  sim_uid : Z;
  sim_events : list Event;
  rand_seq : nat -> Z;
  rand_calls : nat;
  net_sent : list Packet;
  out : list LogLine
}.

(** ** The environment: log, random numbers, simulator *)

Definition log (l : LogLine) (env : Env) : Env :=
  {| allNodesConverged := allNodesConverged env;
     nodesStatus := nodesStatus env;
     convergenceTime := convergenceTime env;
     sim_now := sim_now env;
     sim_uid := sim_uid env;
     sim_events := sim_events env;
     rand_seq := rand_seq env;
     rand_calls := rand_calls env;
     net_sent := net_sent env;
     out := out env ++ [l] |}.

(** [rand()]: the next number of the generator's sequence. *)
Definition rand (env : Env) : Z * Env :=
  (rand_seq env (rand_calls env),
   {| allNodesConverged := allNodesConverged env;
      nodesStatus := nodesStatus env;
      convergenceTime := convergenceTime env;
      sim_now := sim_now env;
      sim_uid := sim_uid env;
      sim_events := sim_events env;
      rand_seq := rand_seq env;
      rand_calls := S (rand_calls env);
      net_sent := net_sent env;
      out := out env |}).

Definition set_nodesStatus (ns : list bool) (env : Env) : Env :=
  {| allNodesConverged := allNodesConverged env;
     nodesStatus := ns;
     convergenceTime := convergenceTime env;
     sim_now := sim_now env;
     sim_uid := sim_uid env;
     sim_events := sim_events env;
     rand_seq := rand_seq env;
     rand_calls := rand_calls env;
     net_sent := net_sent env;
     out := out env |}.

(** [allNodesConverged = true; convergenceTime = t;] *)
Definition set_converged (t : double) (env : Env) : Env :=
  {| allNodesConverged := true;
     nodesStatus := nodesStatus env;
     convergenceTime := t;
     sim_now := sim_now env;
     sim_uid := sim_uid env;
     sim_events := sim_events env;
     rand_seq := rand_seq env;
     rand_calls := rand_calls env;
     net_sent := net_sent env;
     out := out env |}.

Definition set_events (uid : Z) (evs : list Event) (env : Env) : Env :=
  {| allNodesConverged := allNodesConverged env;
     nodesStatus := nodesStatus env;
     convergenceTime := convergenceTime env;
     sim_now := sim_now env;
     sim_uid := uid;
     sim_events := evs;
     rand_seq := rand_seq env;
     rand_calls := rand_calls env;
     net_sent := net_sent env;
     out := out env |}.

Definition set_now (t : Time) (env : Env) : Env :=
  {| allNodesConverged := allNodesConverged env;
     nodesStatus := nodesStatus env;
     convergenceTime := convergenceTime env;
     sim_now := t;
     sim_uid := sim_uid env;
     sim_events := sim_events env;
     rand_seq := rand_seq env;
     rand_calls := rand_calls env;
     net_sent := net_sent env;
     out := out env |}.

(** [socket->Send(packet)] *)
Definition socket_Send (p : Packet) (env : Env) : Env :=
  {| allNodesConverged := allNodesConverged env;
     nodesStatus := nodesStatus env;
     convergenceTime := convergenceTime env;
     sim_now := sim_now env;
     sim_uid := sim_uid env;
     sim_events := sim_events env;
     rand_seq := rand_seq env;
     rand_calls := rand_calls env;
     net_sent := net_sent env ++ [p];
     out := out env |}.

(** Modelled from the spec: the scheduler is the simulation substrate
    ([schedule(delay, callback) -> timerHandle], [cancel(timerHandle)],
    [now() -> timestamp]).  [Simulator::Schedule] queues a call of
    [MonitorNode] on the object [self] at [now + delay] and hands out the
    uid of the event. *)
Definition Simulator_Schedule (delay : Time) (self : nat) (env : Env) : EventId * Env :=
  (Some (sim_uid env),
   set_events (sim_uid env + 1)
     (sim_events env ++
      [{| ev_ts := sim_now env + delay; ev_uid := sim_uid env; ev_self := self |}])
     env).

(** Modelled from the spec: [Simulator::Cancel] takes the event out of
    the queue; cancelling a handle that is null, has fired or was
    cancelled before changes nothing. *)
Definition Simulator_Cancel (id : EventId) (env : Env) : Env :=
  match id with
  | None => env
  | Some u =>
      set_events (sim_uid env)
        (List.filter (fun e => negb (ev_uid e =? u)) (sim_events env)) env
  end.

Definition Simulator_Now (env : Env) : Time := sim_now env.

(** [nodesStatus[i] = true]: writing past the end of a [std::vector] is
    undefined. *)
Definition vector_set (ns : list bool) (i : uint32_t) (b : bool) : option (list bool) :=
  if (0 <=? i) && (i <? Z.of_nat (length ns))
  then Some (<[Z.to_nat i := b]> ns)
  else None.

(** [(double)rand() / (RAND_MAX)], for the number [k] that [rand()]
    returned.  [RAND_MAX] is a constant of the C library the program is
    built against; the definitions take it as a parameter. *)
Definition random_fraction (RAND_MAX k : Z) : double := div (of_Z k) (of_Z RAND_MAX).

(** ** GreyholeNode *)

Module Greyhole.
Section WithLibrary.

Variable RAND_MAX : Z.

(** [GreyholeNode::GreyholeNode()] *)
Definition new : GreyholeNode :=
  {| gh_socket := None; gh_node := None; gh_dropProbability := literal 5 10 |}.

(** [void GreyholeNode::Setup(Ptr<Node> node, double dropProbability)] *)
Definition Setup (node : Ptr_Node) (dropProbability : double) (this : GreyholeNode)
  : GreyholeNode :=
  {| gh_socket := gh_socket this;
     gh_node := node;
     gh_dropProbability := dropProbability |}.

(** [void GreyholeNode::StartApplication()]: the socket is bound to
    UDP port 9. *)
Definition StartApplication (this : GreyholeNode) (env : Env)
  : option (GreyholeNode * Env) :=
  id ← GetId (gh_node this);
  let env := log (LogGreyholeStart id) env in
  match gh_socket this with
  | None =>
      Some ({| gh_socket := Some 9;
               gh_node := gh_node this;
               gh_dropProbability := gh_dropProbability this |}, env)
  | Some _ => Some (this, env)
  end.

(** [void GreyholeNode::StopApplication()] *)
Definition StopApplication (this : GreyholeNode) (env : Env)
  : option (GreyholeNode * Env) :=
  id ← GetId (gh_node this);
  let env := log (LogGreyholeStop id) env in
  match gh_socket this with
  | Some _ =>
      Some ({| gh_socket := None;
               gh_node := gh_node this;
               gh_dropProbability := gh_dropProbability this |}, env)
  | None => Some (this, env)
  end.

(** The test of [ReceivePacket]: [randomValue > m_dropProbability]. *)
Definition forwards (this : GreyholeNode) (k : Z) : bool :=
  gtb (random_fraction RAND_MAX k) (gh_dropProbability this).

(** [void GreyholeNode::ReceivePacket(Ptr<Socket> socket)];
    [received] is what [socket->Recv()] returns, [None] for the null
    packet. *)
Definition ReceivePacket (received : option Packet) (this : GreyholeNode) (env : Env)
  : option Env :=
  match received with
  | Some packet =>
      let '(k, env) := rand env in
      if forwards this k
      then Some (socket_Send packet env)
      else
        id ← GetId (gh_node this);
        Some (log (LogPacketDropped id) env)
  | None => Some env
  end.

End WithLibrary.
End Greyhole.

(** ** WatchdogNode *)

Module Watchdog.
Section WithLibrary.

Variable RAND_MAX : Z.

(** [WatchdogNode::WatchdogNode()] *)
Definition new : WatchdogNode :=
  {| m_node := None;
     m_gamma := literal 5 10;
     m_reputation := of_Z 0;
     m_threshold := one;
     m_event := None;
     m_monitorCount := 0;
     m_receivedPackets := 0;
     m_sentPackets := 0;
     m_packetLossRate := zero |}.

(** [void WatchdogNode::Setup(Ptr<Node> node, double gamma)] *)
Definition Setup (node : Ptr_Node) (gamma : double) (this : WatchdogNode)
  : WatchdogNode :=
  {| m_node := node;
     m_gamma := gamma;
     m_reputation := m_reputation this;
     m_threshold := m_threshold this;
     m_event := m_event this;
     m_monitorCount := m_monitorCount this;
     m_receivedPackets := m_receivedPackets this;
     m_sentPackets := m_sentPackets this;
     m_packetLossRate := m_packetLossRate this |}.

Definition set_reputation (r : double) (this : WatchdogNode) : WatchdogNode :=
  {| m_node := m_node this;
     m_gamma := m_gamma this;
     m_reputation := r;
     m_threshold := m_threshold this;
     m_event := m_event this;
     m_monitorCount := m_monitorCount this;
     m_receivedPackets := m_receivedPackets this;
     m_sentPackets := m_sentPackets this;
     m_packetLossRate := m_packetLossRate this |}.

Definition set_event (e : EventId) (this : WatchdogNode) : WatchdogNode :=
  {| m_node := m_node this;
     m_gamma := m_gamma this;
     m_reputation := m_reputation this;
     m_threshold := m_threshold this;
     m_event := e;
     m_monitorCount := m_monitorCount this;
     m_receivedPackets := m_receivedPackets this;
     m_sentPackets := m_sentPackets this;
     m_packetLossRate := m_packetLossRate this |}.

Definition set_monitorCount (c : uint32_t) (this : WatchdogNode) : WatchdogNode :=
  {| m_node := m_node this;
     m_gamma := m_gamma this;
     m_reputation := m_reputation this;
     m_threshold := m_threshold this;
     m_event := m_event this;
     m_monitorCount := c;
     m_receivedPackets := m_receivedPackets this;
     m_sentPackets := m_sentPackets this;
     m_packetLossRate := m_packetLossRate this |}.

Definition set_packetLossRate (r : double) (this : WatchdogNode) : WatchdogNode :=
  {| m_node := m_node this;
     m_gamma := m_gamma this;
     m_reputation := m_reputation this;
     m_threshold := m_threshold this;
     m_event := m_event this;
     m_monitorCount := m_monitorCount this;
     m_receivedPackets := m_receivedPackets this;
     m_sentPackets := m_sentPackets this;
     m_packetLossRate := r |}.

(** [void WatchdogNode::StartApplication()]; [self] is the object the
    scheduled callback is bound to ([this]). *)
Definition StartApplication (self : nat) (this : WatchdogNode) (env : Env)
  : option (WatchdogNode * Env) :=
  id ← GetId (m_node this);
  let env := log (LogWatchdogStart id) env in
  let '(e, env) := Simulator_Schedule Seconds_1 self env in
  Some (set_event e this, env).

(** [void WatchdogNode::StopApplication()] *)
Definition StopApplication (this : WatchdogNode) (env : Env)
  : option (WatchdogNode * Env) :=
  id ← GetId (m_node this);
  let env := log (LogWatchdogStop id) env in
  Some (this, Simulator_Cancel (m_event this) env).

(** The three bands the second part of [ProcessEvent] prints. *)
Definition classify (reputation threshold : double) : NodeStatus :=
  if geb reputation threshold then POSITIVE_STATUS
  else if ltb reputation (opp threshold) then NEGATIVE_STATUS
  else NO_STATUS.

(** The loop of [ProcessEvent] over [nodesStatus]: true when no entry
    is false. *)
Definition allNodesHaveInfo (ns : list bool) : bool := forallb (fun b => b) ns.

(** [void WatchdogNode::ProcessEvent(NodeStatus event)] *)
Definition ProcessEvent (event : NodeStatus) (this : WatchdogNode) (env : Env)
  : option (WatchdogNode * Env) :=
  id ← GetId (m_node this);
  '(this, env) ←
    match event with
    | POSITIVE_STATUS =>
        let this := set_reputation (add (m_reputation this) one) this in
        let env := log (LogPositiveEvent id (m_reputation this)) env in
        ns ← vector_set (nodesStatus env) id true;
        Some (this, set_nodesStatus ns env)
    | NEGATIVE_STATUS =>
        let this := set_reputation (sub (m_reputation this) one) this in
        let env := log (LogNegativeEvent id (m_reputation this)) env in
        ns ← vector_set (nodesStatus env) id true;
        Some (this, set_nodesStatus ns env)
    | NO_STATUS =>
        Some (this, log (LogNoInformation id) env)
    end;
  let env := log (LogState id (classify (m_reputation this) (m_threshold this))) env in
  if allNodesHaveInfo (nodesStatus env) && negb (allNodesConverged env)
  then
    let env := set_converged (GetSeconds (Simulator_Now env)) env in
    Some (this, log (LogConverged (convergenceTime env)) env)
  else Some (this, env).

(** The evidence [MonitorNode] derives from [randomValue]. *)
Definition evidence (randomValue : double) : NodeStatus :=
  if ltb randomValue (literal 33 100) then POSITIVE_STATUS
  else if ltb randomValue (literal 66 100) then NEGATIVE_STATUS
  else NO_STATUS.

(** The guard of [MonitorNode]:
    [m_monitorCount >= m_maxMonitorCount || allNodesConverged]. *)
Definition terminated (this : WatchdogNode) (env : Env) : bool :=
  (m_maxMonitorCount <=? m_monitorCount this) || allNodesConverged env.

(** [void WatchdogNode::MonitorNode()] *)
Definition MonitorNode (self : nat) (this : WatchdogNode) (env : Env)
  : option (WatchdogNode * Env) :=
  id ← GetId (m_node this);
  if terminated this env
  then
    let env := log (LogTerminated id) env in
    let this :=
      set_packetLossRate
        (sub one
             (div (of_Z (m_receivedPackets this)) (of_Z (m_sentPackets this))))
        this in
    Some (this, log (LogLossRate id (m_packetLossRate this)) env)
  else
    let env := log (LogMonitoring id) env in
    let '(k, env) := rand env in
    let randomValue := random_fraction RAND_MAX k in
    '(this, env) ← ProcessEvent (evidence randomValue) this env;
    let this := set_monitorCount (uint32_incr (m_monitorCount this)) this in
    let '(e, env) := Simulator_Schedule Seconds_1 self env in
    Some (set_event e this, env).

End WithLibrary.
End Watchdog.

(** ** The running program: objects, calls, the event loop *)

Record World : Type := {
  watchdogs : list WatchdogNode;
  greyholes : list GreyholeNode;
  env : Env
}.

(** What [main] and the simulator do with the objects: create them, call
    their public [Setup], and, from the simulator, start and stop the
    applications, deliver a packet to a greyhole socket, let simulated
    time pass, and run the next scheduled event. *)
Inductive Call : Type :=
| NewWatchdog
| WatchdogSetup (self : nat) (node : Ptr_Node) (gamma : double)
| WatchdogStart (self : nat)
| WatchdogStop (self : nat)
| NewGreyhole
| GreyholeSetup (self : nat) (node : Ptr_Node) (dropProbability : double)
| GreyholeStart (self : nat)
| GreyholeStop (self : nat)
| GreyholeReceive (self : nat) (received : option Packet)
| AdvanceTo (t : Time)
| RunEvent.

Definition event_before (a b : Event) : bool :=
  (ev_ts a <? ev_ts b) || ((ev_ts a =? ev_ts b) && (ev_uid a <? ev_uid b)).

(** The event the simulator runs next: the earliest one, the first
    scheduled among those of equal time. *)
Fixpoint next_event (evs : list Event) : option Event :=
  match evs with
  | [] => None
  | e :: evs =>
      match next_event evs with
      | Some m => if event_before m e then Some m else Some e
      | None => Some e
      end
  end.

Definition remove_event (e : Event) (env : Env) : Env :=
  set_events (sim_uid env)
    (List.filter (fun x => negb (ev_uid x =? ev_uid e)) (sim_events env)) env.

Section WithLibrary.

Variable RAND_MAX : Z.

(** One call, on the object it names; [None] when the object does not
    exist or the method runs into undefined behaviour. *)
Definition invoke (c : Call) (w : World) : option World :=
  match c with
  | NewWatchdog =>
      Some {| watchdogs := watchdogs w ++ [Watchdog.new];
              greyholes := greyholes w; env := env w |}
  | WatchdogSetup self node gamma =>
      this ← watchdogs w !! self;
      Some {| watchdogs := <[self := Watchdog.Setup node gamma this]> (watchdogs w);
              greyholes := greyholes w; env := env w |}
  | WatchdogStart self =>
      this ← watchdogs w !! self;
      '(this, e) ← Watchdog.StartApplication self this (env w);
      Some {| watchdogs := <[self := this]> (watchdogs w);
              greyholes := greyholes w; env := e |}
  | WatchdogStop self =>
      this ← watchdogs w !! self;
      '(this, e) ← Watchdog.StopApplication this (env w);
      Some {| watchdogs := <[self := this]> (watchdogs w);
              greyholes := greyholes w; env := e |}
  | NewGreyhole =>
      Some {| watchdogs := watchdogs w;
              greyholes := greyholes w ++ [Greyhole.new]; env := env w |}
  | GreyholeSetup self node p =>
      this ← greyholes w !! self;
      Some {| watchdogs := watchdogs w;
              greyholes := <[self := Greyhole.Setup node p this]> (greyholes w);
              env := env w |}
  | GreyholeStart self =>
      this ← greyholes w !! self;
      '(this, e) ← Greyhole.StartApplication this (env w);
      Some {| watchdogs := watchdogs w;
              greyholes := <[self := this]> (greyholes w); env := e |}
  | GreyholeStop self =>
      this ← greyholes w !! self;
      '(this, e) ← Greyhole.StopApplication this (env w);
      Some {| watchdogs := watchdogs w;
              greyholes := <[self := this]> (greyholes w); env := e |}
  | GreyholeReceive self received =>
      this ← greyholes w !! self;
      e ← Greyhole.ReceivePacket RAND_MAX received this (env w);
      Some {| watchdogs := watchdogs w; greyholes := greyholes w; env := e |}
  | AdvanceTo t =>
      Some {| watchdogs := watchdogs w; greyholes := greyholes w;
              env := set_now t (env w) |}
  | RunEvent =>
      match next_event (sim_events (env w)) with
      | None => Some w
      | Some ev =>
          let e := set_now (ev_ts ev) (remove_event ev (env w)) in
          this ← watchdogs w !! ev_self ev;
          '(this, e) ← Watchdog.MonitorNode RAND_MAX (ev_self ev) this e;
          Some {| watchdogs := <[ev_self ev := this]> (watchdogs w);
                  greyholes := greyholes w; env := e |}
      end
  end.

Fixpoint run_calls (cs : list Call) (w : World) : option World :=
  match cs with
  | [] => Some w
  | c :: cs => w ← invoke c w; run_calls cs w
  end.

(** [Simulator::Run()] after [Simulator::Stop(stop)]: events are run in
    order until none is left before the stop time; [None] also when
    [fuel] events did not suffice. *)
Fixpoint Simulator_Run (stop : Time) (fuel : nat) (w : World) : option World :=
  match next_event (sim_events (env w)) with
  | None => Some w
  | Some ev =>
      if stop <=? ev_ts ev then Some w
      else
        match fuel with
        | O => None
        | S fuel => w ← invoke RunEvent w; Simulator_Run stop fuel w
        end
  end.

(** [nodesStatus.resize(n, false)] *)
Definition vector_resize (n : nat) (ns : list bool) : list bool :=
  take n ns ++ replicate (n - length ns) false.

(** The globals as the program initialises them, for the sequence
    [seq] of numbers [rand()] is going to return. *)
Definition initial_env (seq : nat -> Z) : Env :=
  {| allNodesConverged := false;
     nodesStatus := [];
     convergenceTime := zero;
     sim_now := 0;
     sim_uid := 0;
     sim_events := [];
     rand_seq := seq;
     rand_calls := 0;
     net_sent := [];
     out := [] |}.

(** [main] up to [Simulator::Run()]: 27 nodes; a greyhole on node 25
    with drop probability 0.05; [nodesStatus] resized to the number of
    nodes; a watchdog on each of the nodes 0..23 with gamma 0.5. *)
Definition main_configured (seq : nat -> Z) : World :=
  {| watchdogs :=
       map (fun i => Watchdog.Setup (Some (Z.of_nat i)) (literal 5 10) Watchdog.new)
           (List.seq 0 24);
     greyholes := [Greyhole.Setup (Some 25) (literal 5 100) Greyhole.new];
     env := set_nodesStatus (vector_resize 27 (nodesStatus (initial_env seq)))
                            (initial_env seq) |}.

(** The applications start at 1 s; the simulation stops at 30 s. *)
Definition main (seq : nat -> Z) (fuel : nat) : option World :=
  w ← run_calls (AdvanceTo Seconds_1 :: map WatchdogStart (List.seq 0 24)
                   ++ [GreyholeStart 0%nat])
                (main_configured seq);
  Simulator_Run (30 * Seconds_1) fuel w.

End WithLibrary.

(** * Properties *)

(** ** Vocabulary of the statements *)

(** The reputation an event leaves behind. *)
Definition reputation_after (event : NodeStatus) (r : double) : double :=
  match event with
  | POSITIVE_STATUS => add r one
  | NEGATIVE_STATUS => sub r one
  | NO_STATUS => r
  end.

(** Whether an event marks the node in [nodesStatus]. *)
Definition marks_decided (event : NodeStatus) : bool :=
  match event with
  | NO_STATUS => false
  | _ => true
  end.

Definition event_line (event : NodeStatus) (id : uint32_t) (r : double) : LogLine :=
  match event with
  | POSITIVE_STATUS => LogPositiveEvent id r
  | NEGATIVE_STATUS => LogNegativeEvent id r
  | NO_STATUS => LogNoInformation id
  end.

Definition in_range (id : uint32_t) (ns : list bool) : Prop :=
  0 <= id < Z.of_nat (length ns).

(** The terminal branch of [MonitorNode]. *)
Definition loss_rate (this : WatchdogNode) : double :=
  sub one (div (of_Z (m_receivedPackets this)) (of_Z (m_sentPackets this))).

(** ** One method call on a watchdog object

    The flag tells whether the call was a monitoring round: a call of
    [MonitorNode] that went past the termination check. *)

Inductive object_step (RAND_MAX : Z) (a : WatchdogNode) : bool -> WatchdogNode -> Prop :=
| step_Setup node gamma :
    object_step RAND_MAX a false (Watchdog.Setup node gamma a)
| step_Start self e b e' :
    Watchdog.StartApplication self a e = Some (b, e') ->
    object_step RAND_MAX a false b
| step_Stop e b e' :
    Watchdog.StopApplication a e = Some (b, e') ->
    object_step RAND_MAX a false b
| step_Monitor self e b e' :
    Watchdog.MonitorNode RAND_MAX self a e = Some (b, e') ->
    object_step RAND_MAX a (negb (Watchdog.terminated a e)) b.

(** The life of one object: any number of method calls, with the number
    of monitoring rounds among them. *)
Inductive object_steps (RAND_MAX : Z) (a : WatchdogNode) : nat -> WatchdogNode -> Prop :=
| steps_refl : object_steps RAND_MAX a 0 a
| steps_step r b n c :
    object_step RAND_MAX a r b -> object_steps RAND_MAX b n c ->
    object_steps RAND_MAX a (Nat.b2n r + n) c.

(** ** Writes of the convergence variables, as the log shows them *)

Definition is_convergence_line (l : LogLine) : bool :=
  match l with
  | LogConverged _ => true
  | _ => false
  end.

(** How often a piece of log reports the assignment of
    [allNodesConverged] and [convergenceTime]. *)
Definition convergence_writes (ls : list LogLine) : nat :=
  length (List.filter is_convergence_line ls).

(** Between two environments either the convergence variables were not
    written, or they were written once, the flag going from false to
    true. *)
Definition convergence_step (e e' : Env) : Prop :=
  exists added,
    out e' = out e ++ added /\
    ((allNodesConverged e' = allNodesConverged e /\
      convergenceTime e' = convergenceTime e /\
      convergence_writes added = 0%nat) \/
     (allNodesConverged e = false /\
      allNodesConverged e' = true /\
      convergence_writes added = 1%nat)).

(** ** Nodes without a watchdog *)

Definition is_WatchdogSetup (c : Call) : bool :=
  match c with
  | WatchdogSetup _ _ _ => true
  | _ => false
  end.

(** The state in which node [k] blocks convergence: its entry of
    [nodesStatus] is false and no watchdog is attached to it. *)
Definition blocked_by (k : nat) (w : World) : Prop :=
  nodesStatus (env w) !! k = Some false /\
  allNodesConverged (env w) = false /\
  Forall (fun this => m_node this <> Some (Z.of_nat k)) (watchdogs w).

(** ** The loss rate as the specification describes it *)

(** The specification's guarded loss rate: undefined ([None]) when
    nothing was sent, [1 - received/sent] otherwise. *)
Definition lossRate_spec (sent received : uint32_t) : option double :=
  if sent =? 0 then None
  else Some (sub one (div (of_Z received) (of_Z sent))).

Definition reports_nan_loss_rate (id : uint32_t) (l : LogLine) : bool :=
  match l with
  | LogLossRate id' rate => (id' =? id) && is_nan rate
  | _ => false
  end.

(** The generator that returns 0 at every call, and the constant of
    the GNU C library. *)
Definition rand_zero : nat -> Z := fun _ => 0.
Definition glibc_RAND_MAX : Z := 2147483647.

(** The calls that start the watchdog of node 0 alone at 1 s and let the
    simulator run [n] events. *)
Definition watchdog_0_runs (n : nat) : list Call :=
  AdvanceTo Seconds_1 :: WatchdogStart 0 :: replicate n RunEvent.

(** A network of one node, before any object is created; and the calls
    that create its watchdog, attach it, start it at 1 s and let the
    simulator run [n] events. *)
Definition single_node_world : World :=
  {| watchdogs := []; greyholes := [];
     env := set_nodesStatus [false] (initial_env rand_zero) |}.

Definition single_node_calls (n : nat) : list Call :=
  NewWatchdog :: WatchdogSetup 0 (Some 0) (literal 5 10) ::
  AdvanceTo Seconds_1 :: WatchdogStart 0 :: replicate n RunEvent.

(** ** Exactly representable numbers *)

(** [p] shifted left by [n] binary places. *)
Fixpoint shift_left (p : positive) (n : nat) : positive :=
  match n with
  | O => p
  | S n => xO (shift_left p n)
  end.

(** Number of binary digits of [p]. *)
Definition digits (p : positive) : Z := Zpos (digits2_pos p).

(** The binary64 number of sign [s] and magnitude [p], for [p] of at
    most 53 digits: the mantissa is [p] shifted up to 53 digits. *)
Definition normal_form (s : bool) (p : positive) : double :=
  S754_finite s (shift_left p (Z.to_nat (prec - digits p))) (digits p - prec).

(** The integers a binary64 number holds exactly (among others): those
    of at most 53 binary digits. *)
Definition exact_int (z : Z) : Prop := Z.abs z < 2 ^ prec.

(** A rounding record without rounding bits, and the mantissa of 1.0. *)
Definition exact_record (m : Z) : shr_record :=
  {| shr_m := m; shr_r := false; shr_s := false |}.

Definition two52 : positive := 4503599627370496.

(** ** Sequences of evidence *)

(** [ProcessEvent] called on one watchdog for each event of a list, in
    order. *)
Fixpoint ProcessEvents (events : list NodeStatus) (this : WatchdogNode) (e : Env)
  : option (WatchdogNode * Env) :=
  match events with
  | [] => Some (this, e)
  | event :: events =>
      '(this, e) ← Watchdog.ProcessEvent event this e;
      ProcessEvents events this e
  end.

(** The contribution of one event to the reputation, and the signed sum
    over a sequence. *)
Definition contribution (event : NodeStatus) : Z :=
  match event with
  | POSITIVE_STATUS => 1
  | NEGATIVE_STATUS => -1
  | NO_STATUS => 0
  end.

Definition signed_sum (events : list NodeStatus) : Z :=
  foldr (fun event s => contribution event + s) 0 events.

(** ** The evidence as the specification describes it *)

(** The specification's mapping of the sample, by exact thirds. *)
Definition evidence_by_thirds (r : double) : NodeStatus :=
  if ltb r (literal 1 3) then POSITIVE_STATUS
  else if ltb r (literal 2 3) then NEGATIVE_STATUS
  else NO_STATUS.

(** The specification's three bands on integers, for the threshold 1. *)
Definition band (z : Z) : NodeStatus :=
  if 1 <=? z then POSITIVE_STATUS
  else if z <? -1 then NEGATIVE_STATUS
  else NO_STATUS.

(** The evidence in terms of the number [k] that [rand()] returned:
    positive below 33 hundredths of [RAND_MAX], negative below 66
    hundredths, unknown from there on. *)
Definition evidence_of_rand (RAND_MAX k : Z) : NodeStatus :=
  if 100 * k <? 33 * RAND_MAX then POSITIVE_STATUS
  else if 100 * k <? 66 * RAND_MAX then NEGATIVE_STATUS
  else NO_STATUS.

(** ** Vocabulary of the further properties *)

(** What a run keeps of [nodesStatus]: its size, the entries that are
    true, and that the flag is only true when no entry is false. *)
Definition status_kept (e e' : Env) : Prop :=
  length (nodesStatus e') = length (nodesStatus e) /\
  (forall k, nodesStatus e !! k = Some true -> nodesStatus e' !! k = Some true) /\
  ((allNodesConverged e = true -> Watchdog.allNodesHaveInfo (nodesStatus e) = true) ->
   allNodesConverged e' = true -> Watchdog.allNodesHaveInfo (nodesStatus e') = true).

(** The rounds a piece of log reports (each round starts with the line
    "monitoring neighbors"), and the packets a sequence of calls
    delivers to greyhole sockets. *)
Definition is_monitoring_line (l : LogLine) : bool :=
  match l with
  | LogMonitoring _ => true
  | _ => false
  end.

Definition rounds_logged (ls : list LogLine) : nat :=
  length (List.filter is_monitoring_line ls).

Definition delivers_packet (c : Call) : bool :=
  match c with
  | GreyholeReceive _ (Some _) => true
  | _ => false
  end.

Definition packets_delivered (cs : list Call) : nat :=
  length (List.filter delivers_packet cs).

(** Between two environments [n] packets were delivered: the generator
    is the same and was called once for each of them and once for each
    round the added log reports. *)
Definition draws (n : nat) (e e' : Env) : Prop :=
  rand_seq e' = rand_seq e /\
  exists added,
    out e' = out e ++ added /\
    rand_calls e' = (rand_calls e + rounds_logged added + n)%nat.

(** Two watchdog objects, calls and worlds that differ in [gamma] at
    most. *)
Definition set_gamma (g : double) (this : WatchdogNode) : WatchdogNode :=
  {| m_node := m_node this;
     m_gamma := g;
     m_reputation := m_reputation this;
     m_threshold := m_threshold this;
     m_event := m_event this;
     m_monitorCount := m_monitorCount this;
     m_receivedPackets := m_receivedPackets this;
     m_sentPackets := m_sentPackets this;
     m_packetLossRate := m_packetLossRate this |}.

Definition same_but_gamma (a b : WatchdogNode) : Prop := b = set_gamma (m_gamma b) a.

Definition same_call_but_gamma (c1 c2 : Call) : Prop :=
  match c1, c2 with
  | WatchdogSetup self1 node1 _, WatchdogSetup self2 node2 _ =>
      self1 = self2 /\ node1 = node2
  | _, _ => c1 = c2
  end.

Definition same_world_but_gamma (w1 w2 : World) : Prop :=
  Forall2 same_but_gamma (watchdogs w1) (watchdogs w2) /\
  greyholes w1 = greyholes w2 /\
  env w1 = env w2.

Definition same_result_but_gamma (r1 r2 : option World) : Prop :=
  match r1, r2 with
  | Some w1, Some w2 => same_world_but_gamma w1 w2
  | None, None => True
  | _, _ => False
  end.

(** ** Termination of the event loop *)

(** The rounds the watchdogs of a world can still run. *)
Definition rounds_left (ws : list WatchdogNode) : nat :=
  foldr (fun this n => (Z.to_nat (m_maxMonitorCount - m_monitorCount this) + n)%nat)
        0%nat ws.

(** A bound on the events [Simulator::Run] can still run: the pending
    ones and one for each round that is left. *)
Definition events_left (w : World) : nat :=
  (length (sim_events (env w)) + rounds_left (watchdogs w))%nat.

(** A world in which no event can run into undefined behaviour: every
    watchdog is attached to a node of [nodesStatus] and has counted at
    most [m_maxMonitorCount] rounds, and every pending event is bound to a
    watchdog that exists. *)
Definition runnable (w : World) : Prop :=
  Forall (fun this =>
            (exists id, m_node this = Some id /\ in_range id (nodesStatus (env w))) /\
            0 <= m_monitorCount this <= m_maxMonitorCount)
         (watchdogs w) /\
  Forall (fun ev => (ev_self ev < length (watchdogs w))%nat) (sim_events (env w)).

(** ** The state lines of the log *)

Definition is_state_line (l : LogLine) : bool :=
  match l with
  | LogState _ _ => true
  | _ => false
  end.

(** The calls with which the simulator starts the applications of
    [main] at 1 s. *)
Definition main_start_calls : list Call :=
  AdvanceTo Seconds_1 :: map WatchdogStart (List.seq 0 24) ++ [GreyholeStart 0%nat].

(** ** The packet totals of [main] *)

Definition Address : Type := Z.

(** The two counters [g_totalPacketsSent] and [g_totalPacketsReceived]. *)
Record Totals : Type := {
  g_totalPacketsSent : uint32_t;
  g_totalPacketsReceived : uint32_t
}.

Definition initial_totals : Totals :=
  {| g_totalPacketsSent := 0; g_totalPacketsReceived := 0 |}.

(** [void PacketSentCallback(Ptr<const Packet> packet)] *)
Definition PacketSentCallback (packet : Packet) (t : Totals) : Totals :=
  {| g_totalPacketsSent := uint32_incr (g_totalPacketsSent t);
     g_totalPacketsReceived := g_totalPacketsReceived t |}.

(** [void PacketReceivedCallback(Ptr<const Packet> packet, const Address &addr)] *)
Definition PacketReceivedCallback (packet : Packet) (addr : Address) (t : Totals)
  : Totals :=
  {| g_totalPacketsSent := g_totalPacketsSent t;
     g_totalPacketsReceived := uint32_incr (g_totalPacketsReceived t) |}.

(** What the simulator does with the two callbacks [main] connects: it
    calls the first for a packet a client has sent and the second for a
    packet the server of node 26 has received. *)
Inductive Trace : Type :=
| TraceSent (packet : Packet)
| TraceRx (packet : Packet) (addr : Address).

Definition fire (x : Trace) (t : Totals) : Totals :=
  match x with
  | TraceSent packet => PacketSentCallback packet t
  | TraceRx packet addr => PacketReceivedCallback packet addr t
  end.

Definition fire_all (xs : list Trace) (t : Totals) : Totals :=
  foldl (fun t x => fire x t) t xs.

Definition is_TraceSent (x : Trace) : bool :=
  match x with
  | TraceSent _ => true
  | TraceRx _ _ => false
  end.

(** The number [main] prints last:
    [1.0 - (double)g_totalPacketsReceived / g_totalPacketsSent]. *)
Definition main_packet_loss_rate (t : Totals) : double :=
  sub one (div (of_Z (g_totalPacketsReceived t)) (of_Z (g_totalPacketsSent t))).

(** ** The schedule of a run, without the evidence

    What a run does to the round counts, the timers, the clock and the
    calls of [rand()] does not depend on the numbers [rand()] returns as
    long as the network does not converge.  [forget] drops from a world
    what the evidence decides (the reputations, [nodesStatus], the
    convergence variables, the log) and the generator, and
    [schedule_RunEvent] runs the next event on what is left. *)





(** ** Binary64 arithmetic on integers *)

Lemma shift_left_value p n : Zpos (shift_left p n) = Zpos p * 2 ^ Z.of_nat n.
Proof.
  induction n as [|n IH].
  - simpl. lia.
  - cbn [shift_left]. rewrite Pos2Z.inj_xO, IH.
    rewrite Nat2Z.inj_succ, Z.pow_succ_r by lia. lia.
Qed.

Lemma shift_left_add p n m : shift_left (shift_left p n) m = shift_left p (n + m).
Proof.
  induction m as [|m IH].
  - rewrite Nat.add_0_r. reflexivity.
  - rewrite Nat.add_succ_r. cbn [shift_left]. rewrite IH. reflexivity.
Qed.

Lemma digits_shift_left p n : digits (shift_left p n) = digits p + Z.of_nat n.
Proof.
  unfold digits. induction n as [|n IH].
  - simpl. lia.
  - cbn [shift_left digits2_pos]. rewrite Pos2Z.inj_succ, IH. lia.
Qed.

Lemma iter_xO_shift_left p d : Pos.iter xO p d = shift_left p (Pos.to_nat d).
Proof.
  rewrite Pos2Nat.inj_iter. generalize (Pos.to_nat d). intros n.
  induction n as [|n IH]; [reflexivity|]. simpl. rewrite IH. reflexivity.
Qed.

Lemma digits_pos p : 0 < digits p.
Proof. unfold digits. lia. Qed.

Lemma digits_bounds p : 2 ^ (digits p - 1) <= Zpos p < 2 ^ digits p.
Proof.
  unfold digits. induction p as [p IH|p IH|].
  - cbn [digits2_pos]. rewrite Pos2Z.inj_succ.
    replace (Z.succ (Zpos (digits2_pos p)) - 1) with (Z.succ (Zpos (digits2_pos p) - 1)) by lia.
    rewrite !Z.pow_succ_r by lia. lia.
  - cbn [digits2_pos]. rewrite Pos2Z.inj_succ.
    replace (Z.succ (Zpos (digits2_pos p)) - 1) with (Z.succ (Zpos (digits2_pos p) - 1)) by lia.
    rewrite !Z.pow_succ_r by lia. lia.
  - simpl. lia.
Qed.

Lemma digits_unique p d : 2 ^ (d - 1) <= Zpos p < 2 ^ d -> digits p = d.
Proof.
  intros [Hl Hu]. pose proof (digits_bounds p) as [Hl' Hu'].
  pose proof (digits_pos p).
  assert (0 < d).
  { destruct (Z_lt_le_dec 0 d); [assumption|].
    destruct d; [simpl in Hu; lia|lia|]. rewrite Z.pow_neg_r in Hu by lia. lia. }
  destruct (Z_lt_le_dec (digits p) d) as [Hlt|Hge].
  - assert (2 ^ digits p <= 2 ^ (d - 1)) by (apply Z.pow_le_mono_r; lia). lia.
  - destruct (Z_lt_le_dec d (digits p)) as [Hlt|Hge'].
    + assert (2 ^ d <= 2 ^ (digits p - 1)) by (apply Z.pow_le_mono_r; lia). lia.
    + lia.
Qed.

Lemma digits_le p d : Zpos p < 2 ^ d -> 0 <= d -> digits p <= d.
Proof.
  intros H Hd. pose proof (digits_bounds p) as [Hl _].
  destruct (Z_lt_le_dec d (digits p)) as [Hlt|]; [|assumption].
  assert (2 ^ d <= 2 ^ (digits p - 1)) by (apply Z.pow_le_mono_r; lia). lia.
Qed.

Lemma digits_mono p q : (p <= q)%positive -> digits p <= digits q.
Proof.
  intros H. pose proof (digits_bounds q) as [_ Hu].
  apply digits_le; [lia|]. pose proof (digits_pos q). lia.
Qed.

Lemma iter_pos_swap {A} (f : A -> A) n : forall x,
  SpecFloat.iter_pos f n (f x) = f (SpecFloat.iter_pos f n x).
Proof.
  induction n as [n IH|n IH|]; intros x; simpl.
  - rewrite !IH. reflexivity.
  - rewrite !IH. reflexivity.
  - reflexivity.
Qed.

Lemma iter_pos_succ {A} (f : A -> A) n x :
  SpecFloat.iter_pos f (Pos.succ n) x = f (SpecFloat.iter_pos f n x).
Proof.
  revert x. induction n as [n IH|n IH|]; intros x; simpl.
  - rewrite !IH, !iter_pos_swap. reflexivity.
  - rewrite !iter_pos_swap. reflexivity.
  - reflexivity.
Qed.


Lemma shr_exact p n :
  SpecFloat.iter_pos shr_1 n (exact_record (Zpos (shift_left p (Pos.to_nat n)))) =
  exact_record (Zpos p).
Proof.
  induction n as [|n IH] using Pos.peano_ind.
  - reflexivity.
  - rewrite iter_pos_succ, Pos2Nat.inj_succ. cbn [shift_left].
    rewrite <- iter_pos_swap. exact IH.
Qed.

Lemma shr_nonpos mrs e n : n <= 0 -> shr mrs e n = (mrs, e).
Proof. intros H. destruct n; try reflexivity. lia. Qed.

Lemma shr_fexp_exact p t E :
  digits p <= prec ->
  (t = 0%nat \/ digits p = prec) ->
  -1074 <= E ->
  shr_fexp prec emax (Zpos (shift_left p t)) E loc_Exact =
  (exact_record (Zpos p), E + Z.of_nat t).
Proof.
  intros Hd Ht HE. unfold shr_fexp, fexp, emin, Zdigits2. cbn [shr_record_of_loc].
  fold (digits (shift_left p t)). rewrite digits_shift_left.
  unfold prec, emax in *.
  destruct t as [|t].
  - rewrite shr_nonpos by lia. simpl. rewrite Z.add_0_r. reflexivity.
  - destruct Ht as [Ht|Hp]; [discriminate|].
    replace (Z.max (digits p + Z.of_nat (S t) + E - 53) (3 - 1024 - 53) - E)
      with (Zpos (Pos.of_succ_nat t)) by lia.
    unfold shr. f_equal; try lia.
    replace (S t) with (Pos.to_nat (Pos.of_succ_nat t)) by apply SuccNat2Pos.id_succ.
    apply shr_exact.
Qed.

(** Rounding a number that needs none: a mantissa of at most 53 digits,
    or of 53 digits followed by zeros. *)
Lemma binary_round_aux_exact s p t E :
  digits p <= prec ->
  (t = 0%nat \/ digits p = prec) ->
  -1074 <= E ->
  E + Z.of_nat t <= 971 ->
  binary_round_aux prec emax s (Zpos (shift_left p t)) E loc_Exact =
  S754_finite s p (E + Z.of_nat t).
Proof.
  intros Hd Ht HE Hmax. unfold binary_round_aux.
  rewrite (shr_fexp_exact p t E Hd Ht HE).
  cbn [exact_record shr_m loc_of_shr_record round_nearest_even].
  change (Zpos p) with (Zpos (shift_left p 0)).
  rewrite (shr_fexp_exact p 0 (E + Z.of_nat t) Hd (or_introl eq_refl)) by lia.
  cbn [exact_record shr_m]. rewrite Z.add_0_r.
  unfold prec, emax. 
  destruct (E + Z.of_nat t <=? 1024 - 53) eqn:El; [reflexivity|].
  apply Z.leb_gt in El. lia.
Qed.

Lemma binary_round_exact s p j E :
  digits p <= prec ->
  -1074 <= E ->
  -1074 <= digits p + Z.of_nat j + E - prec <= 971 ->
  binary_round prec emax s (shift_left p j) E =
  S754_finite s (shift_left p (Z.to_nat (prec - digits p)))
              (digits p + Z.of_nat j + E - prec).
Proof.
  intros Hd HE Hr. unfold binary_round, shl_align.
  fold (digits (shift_left p j)). rewrite digits_shift_left.
  pose proof (digits_pos p) as Hpos.
  set (p' := shift_left p (Z.to_nat (prec - digits p))).
  assert (Hp' : digits p' = prec).
  { unfold p'. rewrite digits_shift_left. unfold prec in *. lia. }
  unfold fexp, emin. unfold prec, emax in *.
  replace (Z.max (digits p + Z.of_nat j + E - 53) (3 - 1024 - 53))
    with (digits p + Z.of_nat j + E - 53) by lia.
  destruct (digits p + Z.of_nat j + E - 53 - E) as [|k|k] eqn:Ek.
  - assert (Hj : shift_left p j = shift_left p' 0).
    { unfold p'. simpl. f_equal. lia. }
    rewrite Hj. rewrite binary_round_aux_exact; unfold prec; try lia.
    f_equal; lia.
  - assert (Hj : shift_left p j = shift_left p' (Pos.to_nat k)).
    { unfold p'. rewrite shift_left_add. f_equal. lia. }
    rewrite Hj. rewrite binary_round_aux_exact; unfold prec; try lia.
    f_equal; lia.
  - rewrite iter_xO_shift_left, shift_left_add.
    replace (j + Pos.to_nat k)%nat with (Z.to_nat (53 - digits p)) by lia.
    fold p'. change (Zpos p') with (Zpos (shift_left p' 0)).
    rewrite binary_round_aux_exact; unfold prec; try lia.
    f_equal; lia.
Qed.

Lemma of_Z_pos p : digits p <= prec -> of_Z (Zpos p) = normal_form false p.
Proof.
  intros Hd. unfold of_Z, binary_normalize, normal_form.
  change p with (shift_left p 0) at 1.
  pose proof (digits_pos p). unfold prec in *.
  rewrite binary_round_exact; unfold prec; try lia.
  f_equal; simpl; lia.
Qed.

Lemma of_Z_neg p : digits p <= prec -> of_Z (Zneg p) = normal_form true p.
Proof.
  intros Hd. unfold of_Z, binary_normalize, normal_form.
  change p with (shift_left p 0) at 1.
  pose proof (digits_pos p). unfold prec in *.
  rewrite binary_round_exact; unfold prec; try lia.
  f_equal; simpl; lia.
Qed.

Lemma exact_int_digits p : exact_int (Zpos p) -> digits p <= prec.
Proof. unfold exact_int. intros H. apply digits_le; [lia|unfold prec; lia]. Qed.

Lemma exact_int_digits_neg p : exact_int (Zneg p) -> digits p <= prec.
Proof. unfold exact_int. intros H. apply digits_le; [lia|unfold prec; lia]. Qed.

(** An exactly representable integer, given with [j] more binary places
    than needed, is normalised to its conversion. *)
Lemma binary_normalize_scaled r j :
  exact_int r -> (j <= 1074)%nat ->
  binary_normalize prec emax (r * 2 ^ Z.of_nat j) (- Z.of_nat j) false = of_Z r.
Proof.
  intros Hr Hj. destruct r as [|p|p].
  - reflexivity.
  - pose proof (exact_int_digits _ Hr) as Hd. pose proof (digits_pos p).
    rewrite of_Z_pos by exact Hd.
    rewrite <- shift_left_value. unfold binary_normalize, normal_form.
    unfold prec in *. rewrite binary_round_exact; unfold prec; try lia.
    f_equal; lia.
  - pose proof (exact_int_digits_neg _ Hr) as Hd. pose proof (digits_pos p).
    rewrite of_Z_neg by exact Hd.
    replace (Zneg p * 2 ^ Z.of_nat j) with (Zneg (shift_left p j))
      by (rewrite <- !Pos2Z.opp_pos, shift_left_value; lia).
    unfold binary_normalize, normal_form.
    unfold prec in *. rewrite binary_round_exact; unfold prec; try lia.
    f_equal; lia.
Qed.

Lemma shl_align_value mx ex ez :
  ez <= ex ->
  Zpos (fst (shl_align mx ex ez)) = Zpos mx * 2 ^ (ex - ez).
Proof.
  intros H. unfold shl_align. destruct (ez - ex) as [|k|k] eqn:Ek; cbn [fst].
  - replace (ex - ez) with 0 by lia. lia.
  - lia.
  - rewrite iter_xO_shift_left, shift_left_value. f_equal. f_equal. lia.
Qed.

Lemma normal_form_value p e :
  digits p <= prec -> e <= digits p - prec ->
  Zpos (shift_left p (Z.to_nat (prec - digits p))) * 2 ^ (digits p - prec - e) =
  Zpos p * 2 ^ (- e).
Proof.
  intros Hd He. rewrite shift_left_value. rewrite Z2Nat.id by lia.
  rewrite <- Z.mul_assoc, <- Z.pow_add_r by lia. f_equal. f_equal. lia.
Qed.

Lemma cond_Zopp_mul s a b : cond_Zopp s (a * b) = cond_Zopp s a * b.
Proof. destruct s; simpl; lia. Qed.

Lemma aligned_sum (op : Z -> Z -> Z) sx p sy q :
  (forall a b c, op (a * c) (b * c) = op a b * c) ->
  digits p <= prec -> digits q <= prec ->
  exact_int (op (cond_Zopp sx (Zpos p)) (cond_Zopp sy (Zpos q))) ->
  let mx := shift_left p (Z.to_nat (prec - digits p)) in
  let my := shift_left q (Z.to_nat (prec - digits q)) in
  let ez := Z.min (digits p - prec) (digits q - prec) in
  binary_normalize prec emax
    (op (cond_Zopp sx (Zpos (fst (shl_align mx (digits p - prec) ez))))
        (cond_Zopp sy (Zpos (fst (shl_align my (digits q - prec) ez)))))
    ez false =
  of_Z (op (cond_Zopp sx (Zpos p)) (cond_Zopp sy (Zpos q))).
Proof.
  intros Hop Hp Hq Hr mx my ez.
  pose proof (digits_pos p). pose proof (digits_pos q).
  rewrite !shl_align_value by (unfold ez; lia).
  unfold mx, my. rewrite !normal_form_value by (unfold ez; lia).
  rewrite !cond_Zopp_mul, Hop.
  replace (- ez) with (Z.of_nat (Z.to_nat (- ez))) by (unfold ez, prec in *; lia).
  replace ez with (- Z.of_nat (Z.to_nat (- ez))) at 2 by (unfold ez, prec in *; lia).
  apply binary_normalize_scaled; [exact Hr|unfold ez, prec in *; lia].
Qed.

(** Addition and subtraction of integers are exact in binary64 as long
    as operands and result have at most 53 binary digits. *)
Lemma of_Z_add a b :
  exact_int a -> exact_int b -> exact_int (a + b) ->
  add (of_Z a) (of_Z b) = of_Z (a + b).
Proof.
  intros Ha Hb Hab.
  destruct a as [|p|p].
  - destruct b as [|q|q]; [reflexivity| |]; rewrite Z.add_0_l.
    + rewrite !of_Z_pos by (apply exact_int_digits, Hb). reflexivity.
    + rewrite !of_Z_neg by (apply exact_int_digits_neg, Hb). reflexivity.
  - pose proof (exact_int_digits _ Ha) as Hp. rewrite (of_Z_pos p Hp).
    destruct b as [|q|q]; [rewrite Z.add_0_r, (of_Z_pos p Hp); reflexivity| |].
    + pose proof (exact_int_digits _ Hb) as Hq. rewrite (of_Z_pos q Hq).
      apply (aligned_sum Z.add false p false q); auto. intros; lia.
    + pose proof (exact_int_digits_neg _ Hb) as Hq. rewrite (of_Z_neg q Hq).
      apply (aligned_sum Z.add false p true q); auto. intros; lia.
  - pose proof (exact_int_digits_neg _ Ha) as Hp. rewrite (of_Z_neg p Hp).
    destruct b as [|q|q]; [rewrite Z.add_0_r, (of_Z_neg p Hp); reflexivity| |].
    + pose proof (exact_int_digits _ Hb) as Hq. rewrite (of_Z_pos q Hq).
      apply (aligned_sum Z.add true p false q); auto. intros; lia.
    + pose proof (exact_int_digits_neg _ Hb) as Hq. rewrite (of_Z_neg q Hq).
      apply (aligned_sum Z.add true p true q); auto. intros; lia.
Qed.

Lemma of_Z_sub a b :
  exact_int a -> exact_int b -> exact_int (a - b) ->
  sub (of_Z a) (of_Z b) = of_Z (a - b).
Proof.
  intros Ha Hb Hab.
  destruct a as [|p|p].
  - destruct b as [|q|q]; [reflexivity| |].
    + rewrite of_Z_pos by (apply exact_int_digits, Hb).
      change (0 - Zpos q) with (Zneg q).
      rewrite of_Z_neg by (apply exact_int_digits, Hb). reflexivity.
    + rewrite of_Z_neg by (apply exact_int_digits_neg, Hb).
      change (0 - Zneg q) with (Zpos q).
      rewrite of_Z_pos by (apply exact_int_digits_neg, Hb). reflexivity.
  - pose proof (exact_int_digits _ Ha) as Hp. rewrite (of_Z_pos p Hp).
    destruct b as [|q|q].
    + rewrite Z.sub_0_r, (of_Z_pos p Hp). reflexivity.
    + pose proof (exact_int_digits _ Hb) as Hq. rewrite (of_Z_pos q Hq).
      apply (aligned_sum Z.sub false p false q); auto. intros; lia.
    + pose proof (exact_int_digits_neg _ Hb) as Hq. rewrite (of_Z_neg q Hq).
      apply (aligned_sum Z.sub false p true q); auto. intros; lia.
  - pose proof (exact_int_digits_neg _ Ha) as Hp. rewrite (of_Z_neg p Hp).
    destruct b as [|q|q].
    + rewrite Z.sub_0_r, (of_Z_neg p Hp). reflexivity.
    + pose proof (exact_int_digits _ Hb) as Hq. rewrite (of_Z_pos q Hq).
      apply (aligned_sum Z.sub true p false q); auto. intros; lia.
    + pose proof (exact_int_digits_neg _ Hb) as Hq. rewrite (of_Z_neg q Hq).
      apply (aligned_sum Z.sub true p true q); auto. intros; lia.
Qed.

Lemma digits_lt_lt p q : digits p < digits q -> (p < q)%positive.
Proof.
  intros H. pose proof (digits_bounds p) as [_ Hu].
  pose proof (digits_bounds q) as [Hl _]. pose proof (digits_pos p).
  assert (2 ^ digits p <= 2 ^ (digits q - 1)) by (apply Z.pow_le_mono_r; lia).
  lia.
Qed.

Lemma shift_left_compare p q c :
  (shift_left p c ?= shift_left q c)%positive = (p ?= q)%positive.
Proof. induction c as [|c IH]; [reflexivity|]. exact IH. Qed.

Lemma normal_form_compare p q :
  match digits p - prec ?= digits q - prec with
  | Lt => Lt
  | Gt => Gt
  | Eq => Pos.compare_cont Eq (shift_left p (Z.to_nat (prec - digits p)))
                              (shift_left q (Z.to_nat (prec - digits q)))
  end = (p ?= q)%positive.
Proof.
  destruct (Z.compare_spec (digits p - prec) (digits q - prec)) as [He|He|He].
  - replace (digits q) with (digits p) by lia.
    change (Pos.compare_cont Eq ?a ?b) with (Pos.compare a b).
    apply shift_left_compare.
  - symmetry. apply Pos.compare_lt_iff. apply digits_lt_lt. lia.
  - symmetry. apply Pos.compare_gt_iff. apply digits_lt_lt. lia.
Qed.

Lemma normal_form_compare_opp p q :
  match digits p - prec ?= digits q - prec with
  | Lt => Gt
  | Gt => Lt
  | Eq => CompOpp (Pos.compare_cont Eq (shift_left p (Z.to_nat (prec - digits p)))
                                       (shift_left q (Z.to_nat (prec - digits q))))
  end = CompOpp (p ?= q)%positive.
Proof.
  rewrite <- (normal_form_compare p q).
  destruct (digits p - prec ?= digits q - prec); reflexivity.
Qed.

(** Comparison of exactly representable integers is comparison of
    integers. *)
Lemma of_Z_compare a b :
  exact_int a -> exact_int b -> SFcompare (of_Z a) (of_Z b) = Some (a ?= b).
Proof.
  intros Ha Hb.
  destruct a as [|p|p]; destruct b as [|q|q];
    rewrite ?of_Z_pos by (apply exact_int_digits; assumption);
    rewrite ?of_Z_neg by (apply exact_int_digits_neg; assumption);
    try reflexivity.
  - unfold normal_form. cbn [SFcompare]. rewrite normal_form_compare. reflexivity.
  - unfold normal_form. cbn [SFcompare]. rewrite normal_form_compare_opp. reflexivity.
Qed.

Lemma of_Z_ltb a b : exact_int a -> exact_int b -> ltb (of_Z a) (of_Z b) = (a <? b).
Proof.
  intros Ha Hb. unfold ltb, SFltb. rewrite of_Z_compare by assumption.
  unfold Z.ltb. destruct (a ?= b); reflexivity.
Qed.

Lemma of_Z_leb a b : exact_int a -> exact_int b -> leb (of_Z a) (of_Z b) = (a <=? b).
Proof.
  intros Ha Hb. unfold leb, SFleb. rewrite of_Z_compare by assumption.
  unfold Z.leb. destruct (a ?= b); reflexivity.
Qed.

(** *** Division of normal numbers: where the quotient lands *)

Lemma round_nearest_even_bounds m l :
  m <= round_nearest_even m l <= m + 1.
Proof.
  unfold round_nearest_even. destruct l as [|[| |]]; try lia.
  destruct (Z.even m); lia.
Qed.

Lemma shr_m_of_loc m l : shr_m (shr_record_of_loc m l) = m.
Proof. destruct l as [|[| |]]; reflexivity. Qed.

Lemma shr_1_m mrs : 0 <= shr_m mrs -> shr_m (shr_1 mrs) = shr_m mrs / 2.
Proof.
  destruct mrs as [m r s]. cbn [shr_m]. intros Hm.
  destruct m as [|[p|p|]|p]; cbn [shr_1 shr_m]; try lia; try reflexivity.
  - apply Z.div_unique with (r := 1); lia.
  - apply Z.div_unique with (r := 0); lia.
Qed.


Lemma digits_53 p : 2 ^ 52 <= Zpos p < 2 ^ 53 -> digits p = 53.
Proof. intros H. apply digits_unique. exact H. Qed.

Lemma digits_54 p : 2 ^ 53 <= Zpos p < 2 ^ 54 -> digits p = 54.
Proof. intros H. apply digits_unique. exact H. Qed.

(** The second rounding step, on a mantissa of 53 digits or on 2^53. *)
Lemma shr_fexp_second q e :
  2 ^ 52 <= Zpos q <= 2 ^ 53 -> -1074 <= e ->
  shr_fexp prec emax (Zpos q) e loc_Exact =
  if Zpos q <? 2 ^ 53 then (exact_record (Zpos q), e)
  else (exact_record (Zpos two52), e + 1).
Proof.
  intros Hq He. destruct (Zpos q <? 2 ^ 53) eqn:Hlt.
  - apply Z.ltb_lt in Hlt.
    assert (Hd : digits q <= prec) by (rewrite (digits_53 q); unfold prec; lia).
    change (Zpos q) with (Zpos (shift_left q 0)) at 1.
    rewrite (shr_fexp_exact q 0 e Hd (or_introl eq_refl) He).
    rewrite Z.add_0_r. reflexivity.
  - apply Z.ltb_ge in Hlt.
    assert (Hq' : q = shift_left two52 1).
    { apply Pos2Z.inj. rewrite shift_left_value. change (Zpos two52) with (2 ^ 52).
      change (2 ^ 52 * 2 ^ Z.of_nat 1) with (2 ^ 53). lia. }
    rewrite Hq'.
    rewrite (shr_fexp_exact two52 1 e ltac:(vm_compute; discriminate)
               (or_intror eq_refl) He).
    reflexivity.
Qed.

(** Both steps after the first shift: a mantissa [m] in [2^52, 2^53)
    with its rounding bits ends as [m], [m+1] or as 2^52 one exponent
    higher. *)
Lemma round_then_normalize s mrs e :
  2 ^ 52 <= shr_m mrs < 2 ^ 53 -> -1074 <= e <= 900 ->
  let '(mrs'', e'') :=
    shr_fexp prec emax
      (round_nearest_even (shr_m mrs) (loc_of_shr_record mrs)) e loc_Exact in
  exists m,
    match shr_m mrs'' with
    | Z0 => S754_zero s
    | Zpos m => if e'' <=? emax - prec then S754_finite s m e'' else S754_infinity s
    | Zneg _ => S754_nan
    end = S754_finite s m e'' /\
    2 ^ 52 <= Zpos m < 2 ^ 53 /\
    (e'' = e \/ (e'' = e + 1 /\ m = two52)) /\
    (loc_of_shr_record mrs = loc_Exact -> Zpos m = shr_m mrs /\ e'' = e) /\
    shr_m mrs <= Zpos m * 2 ^ (e'' - e) <= shr_m mrs + 1.
Proof.
  intros Hm He.
  pose proof (round_nearest_even_bounds (shr_m mrs) (loc_of_shr_record mrs)) as Hr.
  destruct (round_nearest_even (shr_m mrs) (loc_of_shr_record mrs)) as [|q|q] eqn:Eq;
    try lia.
  rewrite shr_fexp_second by lia.
  destruct (Zpos q <? 2 ^ 53) eqn:Hlt.
  - apply Z.ltb_lt in Hlt. exists q. cbn [exact_record shr_m].
    unfold emax, prec.
    replace (e <=? 1024 - 53) with true by (symmetry; apply Z.leb_le; lia).
    split; [reflexivity|].
    split; [lia|]. split; [auto|]. split.
    + intros Hl. rewrite Hl in Eq. simpl in Eq. split; congruence.
    + rewrite Z.sub_diag, Z.pow_0_r, Z.mul_1_r. exact Hr.
  - apply Z.ltb_ge in Hlt. exists two52. cbn [exact_record shr_m].
    unfold emax, prec.
    replace (e + 1 <=? 1024 - 53) with true by (symmetry; apply Z.leb_le; lia).
    split; [reflexivity|]. split; [change (Zpos two52) with (2 ^ 52); lia|].
    split; [auto|]. split.
    + intros Hl. rewrite Hl in Eq. simpl in Eq. lia.
    + replace (e + 1 - e) with 1 by lia.
      change (Zpos two52 * 2 ^ 1) with (2 ^ 53). lia.
Qed.

(** Rounding a quotient mantissa of 53 or 54 digits. *)
Lemma binary_round_aux_quotient s q e l :
  2 ^ 52 <= Zpos q < 2 ^ 54 -> -1000 <= e <= 800 ->
  exists m ef,
    binary_round_aux prec emax s (Zpos q) e l = S754_finite s m ef /\
    2 ^ 52 <= Zpos m < 2 ^ 53 /\
    (e <= ef <= e + 2 /\ Zpos q - 1 <= Zpos m * 2 ^ (ef - e) <= Zpos q + 2) /\
    if Zpos q <? 2 ^ 53
    then ef = e \/ (ef = e + 1 /\ m = two52)
    else (ef = e + 1 \/ (ef = e + 2 /\ m = two52)) /\
         (Zpos q = 2 ^ 53 -> l = loc_Exact -> ef = e + 1 /\ m = two52).
Proof.
  intros Hq He. unfold binary_round_aux.
  destruct (Zpos q <? 2 ^ 53) eqn:Hlt.
  - apply Z.ltb_lt in Hlt.
    assert (H1 : shr_fexp prec emax (Zpos q) e l = (shr_record_of_loc (Zpos q) l, e)).
    { unfold shr_fexp, fexp, emin, Zdigits2. fold (digits q).
      rewrite (digits_53 q) by lia. apply shr_nonpos. unfold prec, emax. lia. }
    rewrite H1.
    pose proof (round_then_normalize s (shr_record_of_loc (Zpos q) l) e) as H2.
    rewrite shr_m_of_loc in H2. specialize (H2 ltac:(lia) ltac:(lia)).
    rewrite shr_m_of_loc.
    destruct (shr_fexp prec emax _ e loc_Exact) as [mrs2 e2].
    destruct H2 as (m & Hm & Hb & Hc & _ & Hv). exists m, e2.
    split; [exact Hm|]. split; [exact Hb|]. split; [|exact Hc].
    split; [destruct Hc as [->|[-> _]]; lia|lia].
  - apply Z.ltb_ge in Hlt.
    assert (H1 : shr_fexp prec emax (Zpos q) e l =
                 (shr_1 (shr_record_of_loc (Zpos q) l), e + 1)).
    { unfold shr_fexp, fexp, emin, Zdigits2. fold (digits q).
      rewrite (digits_54 q) by lia. unfold prec, emax.
      replace (Z.max (54 + e - 53) (3 - 1024 - 53) - e) with 1 by lia.
      reflexivity. }
    rewrite H1.
    assert (Hm1 : shr_m (shr_1 (shr_record_of_loc (Zpos q) l)) = Zpos q / 2).
    { rewrite shr_1_m; rewrite shr_m_of_loc; [reflexivity|lia]. }
    pose proof (round_then_normalize s (shr_1 (shr_record_of_loc (Zpos q) l)) (e + 1))
      as H2.
    assert (Hh : 2 ^ 52 <= Zpos q / 2 < 2 ^ 53).
    { split.
      - apply Z.div_le_lower_bound; lia.
      - apply Z.div_lt_upper_bound; lia. }
    specialize (H2 ltac:(rewrite Hm1; exact Hh) ltac:(lia)).
    destruct (shr_fexp prec emax _ (e + 1) loc_Exact) as [mrs2 e2].
    destruct H2 as (m & Hm & Hb & Hc & Hex & Hval). rewrite Hm1 in Hex, Hval. exists m, e2.
    split; [exact Hm|]. split; [exact Hb|]. split; [|split].
    + split; [destruct Hc as [->|[-> _]]; lia|].
      assert (He2 : 0 <= e2 - (e + 1)) by (destruct Hc as [->|[-> _]]; lia).
      replace (e2 - e) with (Z.succ (e2 - (e + 1))) by lia.
      rewrite Z.pow_succ_r by exact He2.
      pose proof (Z.div_mod (Zpos q) 2 ltac:(lia)) as Hdm.
      pose proof (Z.mod_pos_bound (Zpos q) 2 ltac:(lia)) as Hmb.
      lia.
    + destruct Hc as [->|[-> ->]]; [left; reflexivity|right; split; [lia|reflexivity]].
    + intros Hq53 ->.
      assert (Hq' : q = shift_left two52 1).
      { apply Pos2Z.inj. rewrite shift_left_value. change (Zpos two52) with (2 ^ 52).
        change (2 ^ 52 * 2 ^ Z.of_nat 1) with (2 ^ 53). lia. }
      subst q. destruct (Hex eq_refl) as [Hv ->]. split; [reflexivity|].
      apply Pos2Z.inj. rewrite Hv. reflexivity.
Qed.

Lemma new_location_zero nb : new_location nb 0 = loc_Exact.
Proof.
  unfold new_location, new_location_even, new_location_odd.
  destruct (Z.even nb); reflexivity.
Qed.

(** The quotient of two positive integers of at most 53 digits, the
    smaller over the larger: a positive number that is at most 1. *)
Lemma of_Z_div_range k M :
  digits M <= prec -> (k <= M)%positive ->
  exists m e,
    div (of_Z (Zpos k)) (of_Z (Zpos M)) = S754_finite false m e /\
    2 ^ 52 <= Zpos m < 2 ^ 53 /\
    -106 <= e /\
    (e < -52 \/ (e = -52 /\ m = two52)) /\
    (let e0 := digits k - digits M - 53 in
     e0 <= e <= e0 + 2 /\
     - (2 * Zpos M) <= Zpos m * 2 ^ (e - e0) * Zpos M - Zpos k * 2 ^ (- e0)
       <= 2 * Zpos M).
Proof.
  intros HM Hk.
  assert (Hdk : digits k <= digits M) by (apply digits_mono, Hk).
  pose proof (digits_pos k) as Hk0. pose proof (digits_pos M) as HM0.
  rewrite !of_Z_pos by lia.
  unfold div, SFdiv, normal_form. cbn [xorb].
  set (mx := shift_left k (Z.to_nat (prec - digits k))).
  set (my := shift_left M (Z.to_nat (prec - digits M))).
  assert (Hmx : 2 ^ 52 <= Zpos mx < 2 ^ 53).
  { assert (Hd : digits mx = 53)
      by (unfold mx; rewrite digits_shift_left; unfold prec in *; lia).
    pose proof (digits_bounds mx) as H. rewrite Hd in H. exact H. }
  assert (Hmy : 2 ^ 52 <= Zpos my < 2 ^ 53).
  { assert (Hd : digits my = 53)
      by (unfold my; rewrite digits_shift_left; unfold prec in *; lia).
    pose proof (digits_bounds my) as H. rewrite Hd in H. exact H. }
  unfold SFdiv_core_binary, Zdigits2. fold (digits mx). fold (digits my).
  rewrite (digits_53 mx Hmx), (digits_53 my Hmy).
  unfold fexp, emin. unfold prec, emax in *.
  set (ex := digits k - 53). set (ey := digits M - 53).
  replace (Z.min (Z.max (53 + ex - (53 + ey) - 53) (3 - 1024 - 53)) (ex - ey))
    with (ex - ey - 53) by (unfold ex, ey; lia).
  replace (ex - ey - (ex - ey - 53)) with 53 by lia.
  rewrite Z.shiftl_mul_pow2 by lia.
  destruct (Z.div_eucl (Zpos mx * 2 ^ 53) (Zpos my)) as [q r] eqn:Ediv.
  assert (Hqr : Zpos mx * 2 ^ 53 = Zpos my * q + r /\ 0 <= r < Zpos my).
  { pose proof (Z_div_mod (Zpos mx * 2 ^ 53) (Zpos my) ltac:(lia)) as H.
    rewrite Ediv in H. exact H. }
  destruct Hqr as [Heq Hr].
  assert (Hq : 2 ^ 52 <= q < 2 ^ 54) by nia.
  destruct q as [|q|q]; try lia.
  destruct (binary_round_aux_quotient false q (ex - ey - 53) (new_location (Zpos my) r)
              Hq ltac:(unfold ex, ey; lia))
    as (m & ef & Hres & Hm & Hval & Hcase).
  exists m, ef. split; [exact Hres|]. split; [exact Hm|].
  assert (Herr : let e0 := digits k - digits M - 53 in
                 e0 <= ef <= e0 + 2 /\
                 - (2 * Zpos M) <= Zpos m * 2 ^ (ef - e0) * Zpos M - Zpos k * 2 ^ (- e0)
                   <= 2 * Zpos M).
  { intros e0. replace (ex - ey - 53) with e0 in Hval by (unfold e0, ex, ey; lia).
    destruct Hval as [He0 Hv]. split; [exact He0|].
    set (A := Zpos m * 2 ^ (ef - e0)) in *.
    assert (Hx : Zpos mx = Zpos k * 2 ^ (53 - digits k)).
    { unfold mx. rewrite shift_left_value. f_equal. f_equal. lia. }
    assert (Hy : Zpos my = Zpos M * 2 ^ (53 - digits M)).
    { unfold my. rewrite shift_left_value. f_equal. f_equal. lia. }
    assert (Hpow : 2 ^ (53 - digits k) * 2 ^ 53 = 2 ^ (- e0) * 2 ^ (53 - digits M)).
    { rewrite <- !Z.pow_add_r by (unfold e0; lia). f_equal. unfold e0. lia. }
    set (Pa := 2 ^ (53 - digits M)) in *.
    assert (HPa : 0 < Pa) by (apply Z.pow_pos_nonneg; lia).
    assert (Hmul : (A * Zpos M - Zpos k * 2 ^ (- e0)) * Pa =
                   A * Zpos my - Zpos mx * 2 ^ 53).
    { rewrite Hx, Hy. rewrite Z.mul_sub_distr_r.
      rewrite <- !Z.mul_assoc. rewrite <- Hpow. fold Pa. ring. }
    assert (Hb1 : - (2 * Zpos my) <= A * Zpos my - Zpos mx * 2 ^ 53 <= 2 * Zpos my) by nia.
    rewrite <- Hmul, Hy in Hb1. fold Pa in Hb1.
    split.
    - apply Z.mul_le_mono_pos_r with (p := Pa); [exact HPa|]. lia.
    - apply Z.mul_le_mono_pos_r with (p := Pa); [exact HPa|]. lia. }
  cut (-106 <= ef /\ (ef < -52 \/ (ef = -52 /\ m = two52)));
    [intros [H1 H2]; auto|].
  clear Herr Hval.
  destruct (Zpos q <? 2 ^ 53) eqn:Hlt.
  - apply Z.ltb_lt in Hlt. unfold ex, ey in *.
    destruct Hcase as [->|[-> ->]]; [split; lia|].
    split; [lia|]. destruct (Z_lt_le_dec (digits k) (digits M)); [left; lia|].
    right. split; [lia|reflexivity].
  - apply Z.ltb_ge in Hlt. destruct Hcase as [Hcase Hexact].
    destruct (Z_lt_le_dec (digits k) (digits M)) as [Hd|Hd].
    + unfold ex, ey in *.
      destruct Hcase as [->|[-> ->]]; [split; lia|].
      split; [lia|].
      destruct (Z_lt_le_dec (digits k + 1) (digits M)); [left; lia|].
      right. split; [lia|reflexivity].
    + assert (Hd' : digits k = digits M) by lia.
      assert (Hle : Zpos mx <= Zpos my).
      { unfold mx, my. rewrite !shift_left_value, Hd'.
        apply Z.mul_le_mono_nonneg_r; [apply Z.pow_nonneg; lia|lia]. }
      assert (Hq53 : Zpos q = 2 ^ 53) by nia.
      assert (Hr0 : r = 0) by nia.
      subst r. destruct (Hexact Hq53 (new_location_zero _)) as [-> ->].
      unfold ex, ey. split; [lia|]. right. split; [lia|reflexivity].
Qed.

(** *** The random fraction *)

Lemma one_normal : one = S754_finite false two52 (-52).
Proof. reflexivity. Qed.

(** For [rand()] in its range the fraction is 0, or a positive number
    that is at most 1 and within two units of its last place of the
    quotient [k / RAND_MAX]. *)
Lemma random_fraction_cases RAND_MAX k :
  0 < RAND_MAX -> exact_int RAND_MAX -> 0 <= k <= RAND_MAX ->
  (k = 0 /\ random_fraction RAND_MAX k = zero) \/
  (0 < k /\ exists m e,
      random_fraction RAND_MAX k = S754_finite false m e /\
      2 ^ 52 <= Zpos m < 2 ^ 53 /\
      -106 <= e /\
      (e < -52 \/ (e = -52 /\ m = two52)) /\
      exists e0,
        -105 <= e0 <= -53 /\ e0 <= e <= e0 + 2 /\
        - (2 * RAND_MAX) <= Zpos m * 2 ^ (e - e0) * RAND_MAX - k * 2 ^ (- e0)
          <= 2 * RAND_MAX).
Proof.
  intros HM Hex Hk. unfold random_fraction.
  destruct RAND_MAX as [|M|M]; try lia.
  pose proof (exact_int_digits _ Hex) as Hd.
  destruct k as [|k|k]; try lia.
  - left. split; [reflexivity|]. rewrite of_Z_pos by exact Hd. reflexivity.
  - right. split; [lia|].
    destruct (of_Z_div_range k M Hd ltac:(lia)) as (m & e & H & Hm & He & Hle & Herr).
    exists m, e. repeat (split; [assumption|]).
    exists (digits k - digits M - 53). cbv zeta in Herr.
    split; [|exact Herr].
    pose proof (digits_pos k). pose proof (digits_pos M).
    assert (digits k <= digits M) by (apply digits_mono; lia).
    unfold prec in Hd. lia.
Qed.

Lemma random_fraction_range RAND_MAX k :
  0 < RAND_MAX -> exact_int RAND_MAX -> 0 <= k <= RAND_MAX ->
  leb zero (random_fraction RAND_MAX k) = true /\
  leb (random_fraction RAND_MAX k) one = true /\
  gtb (random_fraction RAND_MAX k) one = false /\
  gtb (random_fraction RAND_MAX k) zero = (0 <? k) /\
  is_nan (random_fraction RAND_MAX k) = false.
Proof.
  intros HM Hex Hk.
  destruct (random_fraction_cases _ _ HM Hex Hk)
    as [[-> ->]|(Hk0 & m & e & -> & Hm & He & Hle & _)].
  - repeat split.
  - replace (0 <? k) with true by (symmetry; apply Z.ltb_lt; exact Hk0).
    rewrite one_normal. unfold leb, gtb, SFleb, SFltb, zero. cbn [SFcompare is_nan].
    destruct Hle as [Hlt|[-> ->]].
    + apply Z.compare_lt_iff in Hlt. rewrite Hlt.
      assert (Hgt : (-52 ?= e) = Gt) by (apply Z.compare_gt_iff, Z.compare_lt_iff, Hlt).
      rewrite Hgt. repeat split.
    + repeat split.
Qed.

(** On finite positive numbers [<] and [<=] are each other's negation. *)
Lemma ltb_leb_finite m1 e1 m2 e2 :
  ltb (S754_finite false m1 e1) (S754_finite false m2 e2) =
  negb (leb (S754_finite false m2 e2) (S754_finite false m1 e1)).
Proof.
  unfold ltb, leb, SFltb, SFleb. cbn [SFcompare].
  rewrite (Z.compare_antisym e1 e2).
  destruct (e1 ?= e2); cbn [CompOpp]; try reflexivity.
  change (Pos.compare_cont Eq ?a ?b) with (Pos.compare a b).
  rewrite (Pos.compare_antisym m1 m2).
  destruct (m1 ?= m2)%positive; reflexivity.
Qed.

Lemma ltb_leb_fraction RAND_MAX k mc ec :
  0 < RAND_MAX -> exact_int RAND_MAX -> 0 <= k <= RAND_MAX ->
  ltb (random_fraction RAND_MAX k) (S754_finite false mc ec) =
  negb (leb (S754_finite false mc ec) (random_fraction RAND_MAX k)).
Proof.
  intros HM Hex Hk.
  destruct (random_fraction_cases _ _ HM Hex Hk)
    as [[-> ->]|(Hk0 & m & e & -> & _)].
  - reflexivity.
  - apply ltb_leb_finite.
Qed.

(** Comparing two normal numbers is comparing their values, scaled to
    integers. *)
Lemma finite_ltb_scaled m1 e1 m2 e2 s :
  2 ^ 52 <= Zpos m1 < 2 ^ 53 -> 2 ^ 52 <= Zpos m2 < 2 ^ 53 ->
  0 <= e1 + s -> 0 <= e2 + s ->
  ltb (S754_finite false m1 e1) (S754_finite false m2 e2) =
  (Zpos m1 * 2 ^ (e1 + s) <? Zpos m2 * 2 ^ (e2 + s)).
Proof.
  intros H1 H2 Hs1 Hs2. unfold ltb, SFltb. cbn [SFcompare].
  destruct (Z.compare_spec e1 e2) as [->|Hlt|Hgt].
  - change (Pos.compare_cont Eq m1 m2) with (Pos.compare m1 m2).
    rewrite Pos2Z.inj_compare.
    assert (Hp : 0 < 2 ^ (e2 + s)) by (apply Z.pow_pos_nonneg; lia).
    destruct (Z.compare_spec (Zpos m1) (Zpos m2)) as [Heq|Hl|Hg]; symmetry.
    + rewrite Heq. apply Z.ltb_irrefl.
    + apply Z.ltb_lt. apply Z.mul_lt_mono_pos_r; assumption.
    + apply Z.ltb_ge. apply Z.mul_le_mono_nonneg_r; lia.
  - symmetry. apply Z.ltb_lt.
    replace (e2 + s) with ((e1 + s) + (e2 - e1)) by lia.
    rewrite (Z.pow_add_r 2 (e1 + s) (e2 - e1)) by lia.
    assert (Hp : 0 < 2 ^ (e1 + s)) by (apply Z.pow_pos_nonneg; lia).
    assert (Ht : 2 ^ 1 <= 2 ^ (e2 - e1)) by (apply Z.pow_le_mono_r; lia).
    change (2 ^ 1) with 2 in Ht.
    set (p := 2 ^ (e1 + s)) in *. set (t := 2 ^ (e2 - e1)) in *.
    assert (Ha : p * 2 <= p * t) by (apply Z.mul_le_mono_nonneg_l; lia).
    assert (Hb : Zpos m1 * p < 2 ^ 53 * p) by (apply Z.mul_lt_mono_pos_r; lia).
    assert (Hc : 2 ^ 52 * (p * t) <= Zpos m2 * (p * t))
      by (apply Z.mul_le_mono_nonneg_r; lia).
    lia.
  - symmetry. apply Z.ltb_ge.
    replace (e1 + s) with ((e2 + s) + (e1 - e2)) by lia.
    rewrite (Z.pow_add_r 2 (e2 + s) (e1 - e2)) by lia.
    assert (Hp : 0 < 2 ^ (e2 + s)) by (apply Z.pow_pos_nonneg; lia).
    assert (Ht : 2 ^ 1 <= 2 ^ (e1 - e2)) by (apply Z.pow_le_mono_r; lia).
    change (2 ^ 1) with 2 in Ht.
    set (p := 2 ^ (e2 + s)) in *. set (t := 2 ^ (e1 - e2)) in *.
    assert (Ha : p * 2 <= p * t) by (apply Z.mul_le_mono_nonneg_l; lia).
    assert (Hb : Zpos m2 * p < 2 ^ 53 * p) by (apply Z.mul_lt_mono_pos_r; lia).
    assert (Hc : 2 ^ 52 * (p * t) <= Zpos m1 * (p * t))
      by (apply Z.mul_le_mono_nonneg_r; lia).
    lia.
Qed.

(** Where the program compares the fraction with a decimal constant
    [n/100]: the [double] nearest to the constant separates the
    fractions [k / RAND_MAX] exactly as [n/100] does, because two
    distinct such quotients are much further apart than the rounding
    errors. *)
Lemma fraction_ltb_cut RAND_MAX k n mc ec :
  0 < RAND_MAX < 2 ^ 31 -> 0 <= k <= RAND_MAX ->
  2 ^ 52 <= Zpos mc < 2 ^ 53 ->
  ec = -54 \/ ec = -53 ->
  0 < n ->
  -50 <= 100 * Zpos mc - n * 2 ^ (- ec) <= 50 ->
  100 * k <> n * RAND_MAX ->
  ltb (random_fraction RAND_MAX k) (S754_finite false mc ec) =
  (100 * k <? n * RAND_MAX).
Proof.
  intros HM Hk Hmc Hec Hn Hc Hne.
  assert (Hex : exact_int RAND_MAX) by (unfold exact_int, prec; lia).
  destruct (random_fraction_cases RAND_MAX k ltac:(lia) Hex Hk)
    as [[-> ->]|(Hk0 & m & e & -> & Hm & _ & _ & e0 & He0 & He & Herr)].
  - symmetry. apply Z.ltb_lt. rewrite Z.mul_0_r. apply Z.mul_pos_pos; lia.
  - rewrite (finite_ltb_scaled m e mc ec (1 - e0)) by lia.
    replace (e + (1 - e0)) with (Z.succ (e - e0)) by lia.
    rewrite Z.pow_succ_r by lia.
    set (A := Zpos m * 2 ^ (e - e0)) in *.
    replace (Zpos m * (2 * 2 ^ (e - e0))) with (2 * A) by (unfold A; ring).
    set (M := RAND_MAX) in *.
    set (P := 2 ^ (- e0)) in *.
    set (G := 2 ^ (ec + (1 - e0))).
    set (T := 2 ^ (- ec)) in *.
    assert (HG : 1 <= G).
    { unfold G. change 1 with (2 ^ 0). apply Z.pow_le_mono_r; lia. }
    assert (H2P : 2 * P = G * T).
    { unfold P, G, T. rewrite <- Z.pow_add_r by lia.
      replace (ec + (1 - e0) + - ec) with (Z.succ (- e0)) by lia.
      rewrite Z.pow_succ_r by lia. reflexivity. }
    assert (HP : 0 < P) by (apply Z.pow_pos_nonneg; lia).
    assert (HT : T = 2 ^ 54 \/ T = 2 ^ 53)
      by (unfold T; destruct Hec as [-> | ->]; [left|right]; reflexivity).
    assert (HMG1 : M * 1 <= M * G) by (apply Z.mul_le_mono_nonneg_l; lia).
    assert (HMG2 : M * G <= (2 ^ 31 - 1) * G) by (apply Z.mul_le_mono_nonneg_r; lia).
    assert (HnP : n * M * (2 * P) = n * M * (G * T)) by (rewrite H2P; reflexivity).
    assert (Hc1 : (100 * Zpos mc - n * T) * (M * G) <= 50 * (M * G))
      by (apply Z.mul_le_mono_nonneg_r; lia).
    assert (Hc2 : -50 * (M * G) <= (100 * Zpos mc - n * T) * (M * G))
      by (apply Z.mul_le_mono_nonneg_r; lia).
    destruct (Z.ltb_spec (100 * k) (n * M)) as [Hlt|Hge].
    + apply Z.ltb_lt.
      assert (HkP : (100 * k + 1) * P <= n * M * P)
        by (apply Z.mul_le_mono_nonneg_r; lia).
      destruct (Z_lt_le_dec (2 * A) (Zpos mc * G)) as [Hgoal|Hcontra];
        [exact Hgoal|exfalso].
      assert (HcM : Zpos mc * G * M <= 2 * A * M)
        by (apply Z.mul_le_mono_nonneg_r; lia).
      destruct HT as [HT|HT]; rewrite HT in *; lia.
    + apply Z.ltb_ge.
      assert (HkP : (n * M + 1) * P <= 100 * k * P)
        by (apply Z.mul_le_mono_nonneg_r; lia).
      destruct (Z_lt_le_dec (2 * A) (Zpos mc * G)) as [Hcontra|Hgoal];
        [exfalso|exact Hgoal].
      assert (HcM : 2 * A * M + 1 * M <= Zpos mc * G * M).
      { rewrite <- Z.mul_add_distr_r. apply Z.mul_le_mono_nonneg_r; lia. }
      destruct HT as [HT|HT]; rewrite HT in *; lia.
Qed.

(** ** The methods, one at a time *)

Ltac invert_calls :=
  unfold GetId in *; simpl in *;
  repeat
    (match goal with
     | H : None = Some _ |- _ => discriminate H
     | H : Some _ = Some _ |- _ => injection H as H
     | H : (_, _) = (_, _) |- _ => injection H as H
     | H : context [mbind _ ?x] |- _ => destruct x eqn:?
     | H : context [match ?x with _ => _ end] |- _ => destruct x eqn:?
     end; simpl in *; subst).

Lemma vector_set_Some ns i b ns' :
  vector_set ns i b = Some ns' <-> in_range i ns /\ ns' = <[Z.to_nat i := b]> ns.
Proof.
  unfold vector_set, in_range.
  destruct (0 <=? i) eqn:E1; destruct (i <? Z.of_nat (length ns)) eqn:E2; simpl;
    split; intros H; try discriminate.
  - injection H as <-. split; [lia | reflexivity].
  - destruct H as [_ ->]. reflexivity.
  - lia.
  - lia.
  - lia.
Qed.

(** [ProcessEvent], spelled out: what a call that returns has done. *)
Lemma ProcessEvent_returns event this e this' e' :
  Watchdog.ProcessEvent event this e = Some (this', e') ->
  exists id,
    m_node this = Some id /\
    (marks_decided event = true -> in_range id (nodesStatus e)) /\
    this' = Watchdog.set_reputation (reputation_after event (m_reputation this)) this /\
    nodesStatus e' =
      (if marks_decided event then <[Z.to_nat id := true]> (nodesStatus e)
       else nodesStatus e) /\
    allNodesConverged e' =
      allNodesConverged e || Watchdog.allNodesHaveInfo (nodesStatus e') /\
    convergenceTime e' =
      (if Watchdog.allNodesHaveInfo (nodesStatus e') && negb (allNodesConverged e)
       then GetSeconds (sim_now e) else convergenceTime e) /\
    out e' =
      out e ++
      [event_line event id (m_reputation this');
       LogState id (Watchdog.classify (m_reputation this') (m_threshold this))] ++
      (if Watchdog.allNodesHaveInfo (nodesStatus e') && negb (allNodesConverged e)
       then [LogConverged (GetSeconds (sim_now e))] else []) /\
    sim_now e' = sim_now e /\ sim_uid e' = sim_uid e /\
    sim_events e' = sim_events e /\ rand_seq e' = rand_seq e /\
    rand_calls e' = rand_calls e /\ net_sent e' = net_sent e.
Proof.
  unfold Watchdog.ProcessEvent. intros H.
  destruct this as [node ? ? ? ? ? ? ? ?]; destruct node as [id|]; [|discriminate].
  exists id. split; [reflexivity|].
  destruct event; invert_calls;
    repeat match goal with
           | H : vector_set _ _ _ = Some _ |- _ =>
               apply vector_set_Some in H; destruct H as [? ->]
           end;
    rewrite <- ?app_assoc; simpl;
    repeat split; try done; try (unfold in_range in *; lia);
    destruct (Watchdog.allNodesHaveInfo _), (allNodesConverged e);
    simpl in *; try discriminate; rewrite <- ?app_assoc; reflexivity.
Qed.

Lemma ProcessEvent_defined event this e id :
  m_node this = Some id ->
  (marks_decided event = true -> in_range id (nodesStatus e)) ->
  exists this' e', Watchdog.ProcessEvent event this e = Some (this', e').
Proof.
  intros Hid Hr. unfold Watchdog.ProcessEvent, GetId. rewrite Hid. simpl.
  destruct event; simpl in *.
  - destruct (_ && _); eauto.
  - destruct (vector_set (nodesStatus e) id true) as [ns|] eqn:E.
    + simpl. destruct (_ && _); eauto.
    + exfalso. unfold vector_set, in_range in *.
      destruct (0 <=? id) eqn:?, (id <? Z.of_nat (length (nodesStatus e))) eqn:?;
        simpl in E; try discriminate; specialize (Hr eq_refl); lia.
  - destruct (vector_set (nodesStatus e) id true) as [ns|] eqn:E.
    + simpl. destruct (_ && _); eauto.
    + exfalso. unfold vector_set, in_range in *.
      destruct (0 <=? id) eqn:?, (id <? Z.of_nat (length (nodesStatus e))) eqn:?;
        simpl in E; try discriminate; specialize (Hr eq_refl); lia.
Qed.

Lemma MonitorNode_terminated RAND_MAX self this e id :
  m_node this = Some id ->
  Watchdog.terminated this e = true ->
  Watchdog.MonitorNode RAND_MAX self this e =
  Some (Watchdog.set_packetLossRate (loss_rate this) this,
        log (LogLossRate id (loss_rate this)) (log (LogTerminated id) e)).
Proof.
  intros Hid Ht. unfold Watchdog.MonitorNode, GetId. rewrite Hid. simpl.
  rewrite Ht. reflexivity.
Qed.

(** The other branch: one monitoring round. *)
Lemma MonitorNode_round RAND_MAX self this e id :
  m_node this = Some id ->
  Watchdog.terminated this e = false ->
  Watchdog.MonitorNode RAND_MAX self this e =
  '(this1, e1) ← Watchdog.ProcessEvent
                   (Watchdog.evidence
                      (random_fraction RAND_MAX (rand_seq e (rand_calls e))))
                   this (snd (rand (log (LogMonitoring id) e)));
  Some (Watchdog.set_event (Some (sim_uid e1))
          (Watchdog.set_monitorCount (uint32_incr (m_monitorCount this1)) this1),
        snd (Simulator_Schedule Seconds_1 self e1)).
Proof.
  intros Hid Ht. unfold Watchdog.MonitorNode, GetId. rewrite Hid. simpl.
  rewrite Ht. reflexivity.
Qed.

Lemma MonitorNode_attached RAND_MAX self this e r :
  Watchdog.MonitorNode RAND_MAX self this e = Some r ->
  exists id, m_node this = Some id.
Proof.
  unfold Watchdog.MonitorNode, GetId.
  destruct (m_node this) as [id|]; [eauto | discriminate].
Qed.

Lemma invoke_objects RAND_MAX c w w' :
  invoke RAND_MAX c w = Some w' ->
  forall i,
    match watchdogs w !! i with
    | Some a => exists b, watchdogs w' !! i = Some b /\
                          (b = a \/ exists r, object_step RAND_MAX a r b)
    | None => watchdogs w' !! i = None \/ watchdogs w' !! i = Some Watchdog.new
    end.
Proof.
  intros H i.
  assert (Hsame : match watchdogs w !! i with
                  | Some a => exists b, watchdogs w !! i = Some b /\
                                        (b = a \/ exists r, object_step RAND_MAX a r b)
                  | None => watchdogs w !! i = None \/
                            watchdogs w !! i = Some Watchdog.new
                  end).
  { destruct (watchdogs w !! i) eqn:E; eauto. }
  assert (Hupd : forall self a b,
             watchdogs w !! self = Some a -> (exists r, object_step RAND_MAX a r b) ->
             match watchdogs w !! i with
             | Some a => exists b0, <[self := b]> (watchdogs w) !! i = Some b0 /\
                                    (b0 = a \/ exists r, object_step RAND_MAX a r b0)
             | None => <[self := b]> (watchdogs w) !! i = None \/
                       <[self := b]> (watchdogs w) !! i = Some Watchdog.new
             end).
  { intros self a b Ha Hs. destruct (decide (self = i)) as [->|Hne].
    - rewrite Ha. rewrite list_lookup_insert_eq by (eapply lookup_lt_Some; eauto).
      eauto.
    - rewrite list_lookup_insert_ne by done.
      destruct (watchdogs w !! i); eauto. }
  destruct c; simpl in H.
  - injection H as <-. simpl.
    destruct (watchdogs w !! i) eqn:E.
    + rewrite lookup_app_l by (eapply lookup_lt_Some; eauto). rewrite E. eauto.
    + apply lookup_ge_None in E.
      destruct (decide (i = length (watchdogs w))) as [->|Hne].
      * right. rewrite lookup_app_r by lia. rewrite Nat.sub_diag. reflexivity.
      * left. apply lookup_ge_None. rewrite length_app. simpl. lia.
  - destruct (watchdogs w !! self) as [a|] eqn:E; [|discriminate].
    simpl in H. injection H as <-. simpl.
    eapply Hupd; eauto. eexists; constructor.
  - destruct (watchdogs w !! self) as [a|] eqn:E; [|discriminate]. simpl in H.
    destruct (Watchdog.StartApplication self a (env w)) as [[b e']|] eqn:E2;
      [|discriminate].
    simpl in H. injection H as <-. simpl. eapply Hupd; eauto. eexists; econstructor 2; eauto.
  - destruct (watchdogs w !! self) as [a|] eqn:E; [|discriminate]. simpl in H.
    destruct (Watchdog.StopApplication a (env w)) as [[b e']|] eqn:E2;
      [|discriminate].
    simpl in H. injection H as <-. simpl. eapply Hupd; eauto. eexists; econstructor 3; eauto.
  - injection H as <-. exact Hsame.
  - destruct (greyholes w !! self); [|discriminate]. injection H as <-. exact Hsame.
  - destruct (greyholes w !! self); [|discriminate]. simpl in H.
    destruct (Greyhole.StartApplication _ _) as [[? ?]|]; [|discriminate].
    injection H as <-. exact Hsame.
  - destruct (greyholes w !! self); [|discriminate]. simpl in H.
    destruct (Greyhole.StopApplication _ _) as [[? ?]|]; [|discriminate].
    injection H as <-. exact Hsame.
  - destruct (greyholes w !! self); [|discriminate]. simpl in H.
    destruct (Greyhole.ReceivePacket _ _ _ _); [|discriminate].
    injection H as <-. exact Hsame.
  - injection H as <-. exact Hsame.
  - destruct (next_event (sim_events (env w))) as [ev|].
    + destruct (watchdogs w !! ev_self ev) as [a|] eqn:E; [|discriminate].
      simpl in H.
      destruct (Watchdog.MonitorNode RAND_MAX (ev_self ev) a _) as [[b e']|] eqn:E2;
        [|discriminate].
      simpl in H. injection H as <-. simpl. eapply Hupd; eauto.
      eexists; econstructor 4; eauto.
    + injection H as <-. exact Hsame.
Qed.

Lemma MonitorNode_returns RAND_MAX self this e this' e' :
  Watchdog.MonitorNode RAND_MAX self this e = Some (this', e') ->
  exists id,
    m_node this = Some id /\
    if Watchdog.terminated this e
    then this' = Watchdog.set_packetLossRate (loss_rate this) this /\
         e' = log (LogLossRate id (loss_rate this)) (log (LogTerminated id) e)
    else exists this1 e1,
        Watchdog.ProcessEvent
          (Watchdog.evidence (random_fraction RAND_MAX (rand_seq e (rand_calls e))))
          this (snd (rand (log (LogMonitoring id) e))) = Some (this1, e1) /\
        this' = Watchdog.set_event (Some (sim_uid e1))
                  (Watchdog.set_monitorCount (uint32_incr (m_monitorCount this1)) this1) /\
        e' = snd (Simulator_Schedule Seconds_1 self e1).
Proof.
  intros H. destruct (MonitorNode_attached _ _ _ _ _ H) as [id Hid].
  exists id. split; [exact Hid|].
  destruct (Watchdog.terminated this e) eqn:Ht.
  - rewrite (MonitorNode_terminated _ _ _ _ _ Hid Ht) in H.
    injection H as <- <-. split; reflexivity.
  - rewrite (MonitorNode_round _ _ _ _ _ Hid Ht) in H.
    destruct (Watchdog.ProcessEvent _ _ _) as [[this1 e1]|]; [|discriminate].
    simpl in H. injection H as <- <-. eauto.
Qed.

Lemma run_calls_objects RAND_MAX cs : forall w w',
  run_calls RAND_MAX cs w = Some w' ->
  forall i,
    match watchdogs w !! i with
    | Some a => exists b n, watchdogs w' !! i = Some b /\ object_steps RAND_MAX a n b
    | None => watchdogs w' !! i = None \/
              exists b n, watchdogs w' !! i = Some b /\
                          object_steps RAND_MAX Watchdog.new n b
    end.
Proof.
  induction cs as [|c cs IH]; intros w w' H i; simpl in H.
  - injection H as <-. destruct (watchdogs w !! i); eauto using steps_refl.
  - destruct (invoke RAND_MAX c w) as [w1|] eqn:E; [|discriminate]. simpl in H.
    pose proof (invoke_objects _ _ _ _ E i) as H1.
    pose proof (IH _ _ H i) as H2.
    destruct (watchdogs w !! i) as [a|].
    + destruct H1 as (b1 & Hb1 & Hs). rewrite Hb1 in H2.
      destruct H2 as (b & n & Hb & Hbs). exists b.
      destruct Hs as [->|[r Hs]]; eauto using steps_step.
    + destruct H1 as [H1|H1]; rewrite H1 in H2; eauto.
Qed.

(** What no method of [WatchdogNode] writes. *)
Lemma object_step_untouched RAND_MAX a r b :
  object_step RAND_MAX a r b ->
  m_sentPackets b = m_sentPackets a /\
  m_receivedPackets b = m_receivedPackets a /\
  m_threshold b = m_threshold a.
Proof.
  intros [node gamma | self e b' e' H | e b' e' H | self e b' e' H].
  - simpl. auto.
  - unfold Watchdog.StartApplication in H. invert_calls. auto.
  - unfold Watchdog.StopApplication in H. invert_calls. auto.
  - apply MonitorNode_returns in H. destruct H as (id & Hid & H).
    destruct (Watchdog.terminated a e).
    + destruct H as [-> _]. simpl. auto.
    + destruct H as (this1 & e1 & Hp & -> & _).
      apply ProcessEvent_returns in Hp. destruct Hp as (_ & _ & _ & -> & _).
      simpl. auto.
Qed.

Lemma object_steps_untouched RAND_MAX a n b :
  object_steps RAND_MAX a n b ->
  m_sentPackets b = m_sentPackets a /\
  m_receivedPackets b = m_receivedPackets a /\
  m_threshold b = m_threshold a.
Proof.
  induction 1 as [|a r b n c Hs _ IH]; [auto|].
  apply object_step_untouched in Hs. intuition congruence.
Qed.


(** ** The convergence variables *)

Lemma convergence_writes_app a b :
  convergence_writes (a ++ b) = (convergence_writes a + convergence_writes b)%nat.
Proof. unfold convergence_writes. rewrite List.filter_app, length_app. reflexivity. Qed.

Lemma convergence_step_refl e : convergence_step e e.
Proof. exists []. rewrite app_nil_r. auto. Qed.

Lemma convergence_step_trans e1 e2 e3 :
  convergence_step e1 e2 -> convergence_step e2 e3 -> convergence_step e1 e3.
Proof.
  intros (a & Ha & H12) (b & Hb & H23). exists (a ++ b). split.
  - rewrite Hb, Ha, app_assoc. reflexivity.
  - rewrite convergence_writes_app.
    destruct H12 as [(Hc & Ht & Hw)|(Hc & Hc' & Hw)];
      destruct H23 as [(Hd & Hu & Hv)|(Hd & Hd' & Hv)]; rewrite Hw, Hv.
    + left. repeat split; congruence.
    + right. repeat split; congruence.
    + right. repeat split; congruence.
    + congruence.
Qed.

Lemma convergence_step_simple e e' added :
  allNodesConverged e' = allNodesConverged e ->
  convergenceTime e' = convergenceTime e ->
  out e' = out e ++ added ->
  convergence_writes added = 0%nat ->
  convergence_step e e'.
Proof. intros. exists added. auto. Qed.

Ltac simple_convergence_step added :=
  apply (convergence_step_simple _ _ added);
  simpl; rewrite ?app_nil_r, <- ?app_assoc; reflexivity.

Lemma ProcessEvent_convergence event this e this' e' :
  Watchdog.ProcessEvent event this e = Some (this', e') ->
  convergence_step e e'.
Proof.
  intros H. apply ProcessEvent_returns in H.
  destruct H as (id & _ & _ & _ & _ & Hc & Ht & Ho & _).
  eexists. split; [exact Ho|].
  rewrite Hc, Ht.
  assert (Hl : is_convergence_line (event_line event id (m_reputation this')) = false)
    by (destruct event; reflexivity).
  unfold convergence_writes. simpl. rewrite Hl. simpl.
  destruct (Watchdog.allNodesHaveInfo (nodesStatus e')), (allNodesConverged e);
    simpl; auto.
Qed.

Lemma MonitorNode_convergence RAND_MAX self this e this' e' :
  Watchdog.MonitorNode RAND_MAX self this e = Some (this', e') ->
  convergence_step e e'.
Proof.
  intros H. apply MonitorNode_returns in H. destruct H as (id & _ & H).
  destruct (Watchdog.terminated this e).
  - destruct H as [_ ->].
    simple_convergence_step [LogTerminated id; LogLossRate id (loss_rate this)].
  - destruct H as (this1 & e1 & Hp & _ & ->).
    apply ProcessEvent_convergence in Hp.
    eapply convergence_step_trans; [|eapply convergence_step_trans; [exact Hp|]].
    + simple_convergence_step [LogMonitoring id].
    + simple_convergence_step (@nil LogLine).
Qed.

Lemma invoke_convergence RAND_MAX c w w' :
  invoke RAND_MAX c w = Some w' ->
  convergence_step (env w) (env w').
Proof.
  intros H. destruct c; simpl in H.
  - injection H as <-. apply convergence_step_refl.
  - destruct (watchdogs w !! self); [|discriminate]. injection H as <-.
    apply convergence_step_refl.
  - destruct (watchdogs w !! self) as [a|]; [|discriminate]. simpl in H.
    unfold Watchdog.StartApplication, GetId in H.
    destruct (m_node a) as [id|]; [|discriminate]. simpl in H.
    injection H as <-. simpl.
    simple_convergence_step [LogWatchdogStart id].
  - destruct (watchdogs w !! self) as [a|]; [|discriminate]. simpl in H.
    unfold Watchdog.StopApplication, GetId in H.
    destruct (m_node a) as [id|]; [|discriminate]. simpl in H.
    injection H as <-. simpl.
    apply (convergence_step_simple _ _ [LogWatchdogStop id]);
      unfold Simulator_Cancel; destruct (m_event a); reflexivity.
  - injection H as <-. apply convergence_step_refl.
  - destruct (greyholes w !! self); [|discriminate]. injection H as <-.
    apply convergence_step_refl.
  - destruct (greyholes w !! self) as [g|]; [|discriminate]. simpl in H.
    unfold Greyhole.StartApplication, GetId in H.
    destruct (gh_node g) as [id|]; [|discriminate]. simpl in H.
    destruct (gh_socket g); injection H as <-; simpl;
      simple_convergence_step [LogGreyholeStart id].
  - destruct (greyholes w !! self) as [g|]; [|discriminate]. simpl in H.
    unfold Greyhole.StopApplication, GetId in H.
    destruct (gh_node g) as [id|]; [|discriminate]. simpl in H.
    destruct (gh_socket g); injection H as <-; simpl;
      simple_convergence_step [LogGreyholeStop id].
  - destruct (greyholes w !! self) as [g|]; [|discriminate]. simpl in H.
    unfold Greyhole.ReceivePacket, GetId in H.
    destruct received as [p|]; simpl in H.
    + destruct (Greyhole.forwards RAND_MAX g _).
      * injection H as <-. simpl. simple_convergence_step (@nil LogLine).
      * destruct (gh_node g) as [id|]; [|discriminate]. simpl in H.
        injection H as <-. simpl. simple_convergence_step [LogPacketDropped id].
    + injection H as <-. apply convergence_step_refl.
  - injection H as <-. simpl. simple_convergence_step (@nil LogLine).
  - destruct (next_event (sim_events (env w))) as [ev|].
    + destruct (watchdogs w !! ev_self ev) as [a|]; [|discriminate]. simpl in H.
      destruct (Watchdog.MonitorNode RAND_MAX (ev_self ev) a _) as [[b e']|] eqn:E;
        [|discriminate].
      simpl in H. injection H as <-. simpl.
      apply MonitorNode_convergence in E.
      eapply convergence_step_trans; [|exact E].
      simple_convergence_step (@nil LogLine).
    + injection H as <-. apply convergence_step_refl.
Qed.

Lemma run_calls_convergence RAND_MAX cs : forall w w',
  run_calls RAND_MAX cs w = Some w' ->
  convergence_step (env w) (env w').
Proof.
  induction cs as [|c cs IH]; intros w w' H; simpl in H.
  - injection H as <-. apply convergence_step_refl.
  - destruct (invoke RAND_MAX c w) as [w1|] eqn:E; [|discriminate]. simpl in H.
    eapply convergence_step_trans; [eapply invoke_convergence|]; eauto.
Qed.

(** [Simulator::Run] is a sequence of [RunEvent] calls. *)
Lemma Simulator_Run_calls RAND_MAX stop fuel : forall w w',
  Simulator_Run RAND_MAX stop fuel w = Some w' ->
  exists n, run_calls RAND_MAX (replicate n RunEvent) w = Some w'.
Proof.
  induction fuel as [|fuel IH]; intros w w' H; cbn [Simulator_Run] in H.
  - destruct (next_event (sim_events (env w))) as [ev|].
    + destruct (stop <=? ev_ts ev); [|discriminate].
      exists 0%nat. exact H.
    + exists 0%nat. exact H.
  - destruct (next_event (sim_events (env w))) as [ev|] eqn:Ev.
    + destruct (stop <=? ev_ts ev).
      * exists 0%nat. exact H.
      * destruct (invoke RAND_MAX RunEvent w) as [w1|] eqn:E; [|discriminate].
        cbn [mbind option_bind] in H. destruct (IH _ _ H) as [n Hn].
        exists (S n). simpl replicate. cbn [run_calls]. rewrite E. exact Hn.
    + exists 0%nat. exact H.
Qed.


(** ** A node nobody watches keeps the network from converging *)

Lemma allNodesHaveInfo_false ns (k : nat) :
  ns !! k = Some false -> Watchdog.allNodesHaveInfo ns = false.
Proof.
  unfold Watchdog.allNodesHaveInfo. revert k.
  induction ns as [|b ns IH]; intros k H; [discriminate|].
  destruct k as [|k]; simpl in *.
  - injection H as ->. reflexivity.
  - rewrite (IH _ H). apply andb_false_r.
Qed.

Lemma allNodesHaveInfo_true ns :
  Watchdog.allNodesHaveInfo ns = true <-> forall k b, ns !! k = Some b -> b = true.
Proof.
  unfold Watchdog.allNodesHaveInfo. split.
  - intros H k b Hk. rewrite forallb_forall in H.
    apply H. apply list_elem_of_In. eapply list_elem_of_lookup_2; eauto.
  - intros H. apply forallb_forall. intros b Hb.
    apply list_elem_of_In, list_elem_of_lookup_1 in Hb. destruct Hb as [k Hk]. eauto.
Qed.

(** The convergence test itself: a call of [ProcessEvent] that returns
    leaves [allNodesConverged] true exactly when it was true before or
    every entry of [nodesStatus] is now true. *)
Lemma ProcessEvent_converges event this e this' e' :
  Watchdog.ProcessEvent event this e = Some (this', e') ->
  allNodesConverged e' = true <->
  allNodesConverged e = true \/
  (forall k b, nodesStatus e' !! k = Some b -> b = true).
Proof.
  intros H. apply ProcessEvent_returns in H.
  destruct H as (_ & _ & _ & _ & _ & -> & _).
  rewrite orb_true_iff, allNodesHaveInfo_true. reflexivity.
Qed.

Lemma MonitorNode_blocked RAND_MAX (k : nat) self this e this' e' :
  m_node this <> Some (Z.of_nat k) ->
  nodesStatus e !! k = Some false ->
  allNodesConverged e = false ->
  Watchdog.MonitorNode RAND_MAX self this e = Some (this', e') ->
  m_node this' = m_node this /\
  nodesStatus e' !! k = Some false /\
  allNodesConverged e' = false /\
  convergenceTime e' = convergenceTime e.
Proof.
  intros Hn Hk Hc H. apply MonitorNode_returns in H. destruct H as (id & Hid & H).
  destruct (Watchdog.terminated this e).
  - destruct H as [-> ->]. simpl. auto.
  - destruct H as (this1 & e1 & Hp & -> & ->).
    apply ProcessEvent_returns in Hp.
    destruct Hp as (id' & Hid' & Hr & -> & Hns & Hc' & Ht & _).
    simpl in *.
    assert (Hk' : nodesStatus e1 !! k = Some false).
    { rewrite Hns. destruct (marks_decided _); [|exact Hk].
      rewrite list_lookup_insert_ne; [exact Hk|].
      specialize (Hr eq_refl). unfold in_range in Hr.
      intros <-. apply Hn. rewrite Hid'. f_equal. lia. }
    rewrite (allNodesHaveInfo_false _ _ Hk') in Hc', Ht.
    rewrite Hc in Hc'. simpl in *. auto.
Qed.

Lemma invoke_blocked RAND_MAX k c w w' :
  is_WatchdogSetup c = false ->
  blocked_by k w ->
  invoke RAND_MAX c w = Some w' ->
  blocked_by k w' /\ convergenceTime (env w') = convergenceTime (env w).
Proof.
  intros Hc (Hk & Hconv & Hall) H. unfold blocked_by.
  assert (Hins : forall self a b,
             watchdogs w !! self = Some a -> m_node b = m_node a ->
             Forall (fun this => m_node this <> Some (Z.of_nat k))
                    (<[self := b]> (watchdogs w))).
  { intros self a b Ha Hb. apply Forall_insert; [exact Hall|].
    rewrite Hb. rewrite Forall_lookup in Hall. eapply Hall; eauto. }
  destruct c; try discriminate Hc; simpl in H.
  - injection H as <-. simpl. repeat split; auto.
    apply Forall_app. split; [exact Hall|]. constructor; [discriminate|constructor].
  - destruct (watchdogs w !! self) as [a|] eqn:Ea; [|discriminate]. simpl in H.
    unfold Watchdog.StartApplication, GetId in H.
    destruct (m_node a) as [id|] eqn:Hid; [|discriminate]. simpl in H.
    injection H as <-. simpl. repeat split; eauto.
  - destruct (watchdogs w !! self) as [a|] eqn:Ea; [|discriminate]. simpl in H.
    unfold Watchdog.StopApplication, GetId in H.
    destruct (m_node a) as [id|] eqn:Hid; [|discriminate]. simpl in H.
    injection H as <-. simpl.
    unfold Simulator_Cancel. destruct (m_event a); simpl; repeat split; eauto.
  - injection H as <-. simpl. auto.
  - destruct (greyholes w !! self); [|discriminate]. injection H as <-. simpl. auto.
  - destruct (greyholes w !! self) as [g|]; [|discriminate]. simpl in H.
    unfold Greyhole.StartApplication, GetId in H.
    destruct (gh_node g) as [id|]; [|discriminate]. simpl in H.
    destruct (gh_socket g); injection H as <-; simpl; auto.
  - destruct (greyholes w !! self) as [g|]; [|discriminate]. simpl in H.
    unfold Greyhole.StopApplication, GetId in H.
    destruct (gh_node g) as [id|]; [|discriminate]. simpl in H.
    destruct (gh_socket g); injection H as <-; simpl; auto.
  - destruct (greyholes w !! self) as [g|]; [|discriminate]. simpl in H.
    unfold Greyhole.ReceivePacket, GetId in H.
    destruct received as [p|]; simpl in H.
    + destruct (Greyhole.forwards RAND_MAX g _).
      * injection H as <-. simpl. auto.
      * destruct (gh_node g) as [id|]; [|discriminate]. simpl in H.
        injection H as <-. simpl. auto.
    + injection H as <-. auto.
  - injection H as <-. simpl. auto.
  - destruct (next_event (sim_events (env w))) as [ev|].
    + destruct (watchdogs w !! ev_self ev) as [a|] eqn:Ea; [|discriminate].
      simpl in H.
      destruct (Watchdog.MonitorNode RAND_MAX (ev_self ev) a _) as [[b e']|] eqn:E;
        [|discriminate].
      simpl in H. injection H as <-. simpl.
      assert (Ha : m_node a <> Some (Z.of_nat k))
        by (rewrite Forall_lookup in Hall; eapply Hall; eauto).
      eapply MonitorNode_blocked in E; eauto.
      destruct E as (Hn & Hk' & Hc' & Ht). simpl in Ht. repeat split; eauto.
    + injection H as <-. auto.
Qed.

Lemma run_calls_blocked RAND_MAX k cs : forall w w',
  Forall (fun c => is_WatchdogSetup c = false) cs ->
  blocked_by k w ->
  run_calls RAND_MAX cs w = Some w' ->
  blocked_by k w' /\ convergenceTime (env w') = convergenceTime (env w).
Proof.
  induction cs as [|c cs IH]; intros w w' Hcs Hb H; simpl in H.
  - injection H as <-. auto.
  - destruct (invoke RAND_MAX c w) as [w1|] eqn:E; [|discriminate]. simpl in H.
    inversion Hcs as [|? ? Hc Hcs']; subst.
    destruct (invoke_blocked _ _ _ _ _ Hc Hb E) as [Hb1 Ht1].
    destruct (IH _ _ Hcs' Hb1 H) as [Hb' Ht'].
    split; [exact Hb' | congruence].
Qed.
(** ** [Simulator::Run] terminates *)

Lemma next_event_In evs ev : next_event evs = Some ev -> In ev evs.
Proof.
  revert ev. induction evs as [|e evs IH]; intros ev H; [discriminate|].
  simpl in H. destruct (next_event evs) as [m|].
  - destruct (event_before m e); injection H as <-; [right; auto|left; reflexivity].
  - injection H as <-. left. reflexivity.
Qed.

Lemma filter_length_le {A} (f : A -> bool) l :
  (length (List.filter f l) <= length l)%nat.
Proof. induction l as [|x l IH]; simpl; [lia|]. destruct (f x); simpl; lia. Qed.

Lemma remove_event_length ev evs :
  In ev evs ->
  (length (List.filter (fun x => negb (ev_uid x =? ev_uid ev)%Z) evs) < length evs)%nat.
Proof.
  induction evs as [|x evs IH]; intros Hin; [contradiction|].
  simpl. destruct Hin as [->|Hin].
  - rewrite Z.eqb_refl. simpl.
    pose proof (filter_length_le (fun x => negb (ev_uid x =? ev_uid ev)) evs). lia.
  - specialize (IH Hin). destruct (negb _); simpl; lia.
Qed.

Lemma remove_event_Forall (P : Event -> Prop) ev evs :
  Forall P evs -> Forall P (List.filter (fun x => negb (ev_uid x =? ev_uid ev)) evs).
Proof.
  induction 1 as [|x evs Hx _ IH]; simpl; [constructor|].
  destruct (negb _); [constructor; assumption|assumption].
Qed.

Lemma rounds_left_insert ws i a b :
  ws !! i = Some a ->
  (rounds_left (<[i := b]> ws) + Z.to_nat (m_maxMonitorCount - m_monitorCount a) =
   rounds_left ws + Z.to_nat (m_maxMonitorCount - m_monitorCount b))%nat.
Proof.
  revert i. induction ws as [|x ws IH]; intros i H; [discriminate|].
  destruct i as [|i]; simpl in *.
  - injection H as ->. lia.
  - specialize (IH i H). lia.
Qed.

(** Running the next event of a runnable world: the call returns, the
    world stays runnable, and fewer events are left. *)
Lemma RunEvent_progress RAND_MAX w ev :
  runnable w ->
  next_event (sim_events (env w)) = Some ev ->
  exists w',
    invoke RAND_MAX RunEvent w = Some w' /\
    runnable w' /\
    (events_left w' < events_left w)%nat.
Proof.
  intros [Hws Hevs] Hnext.
  pose proof (next_event_In _ _ Hnext) as Hin.
  assert (Hself : (ev_self ev < length (watchdogs w))%nat)
    by (rewrite Forall_forall in Hevs; apply Hevs, list_elem_of_In, Hin).
  destruct (lookup_lt_is_Some_2 _ _ Hself) as [a Ha].
  pose proof (proj1 (Forall_lookup _ _) Hws _ _ Ha) as [(id & Hid & Hr) Hcount].
  cbn [invoke]. rewrite Hnext, Ha. cbn [mbind option_bind].
  set (e0 := set_now (ev_ts ev) (remove_event ev (env w))).
  assert (Hlen0 : (length (sim_events e0) < length (sim_events (env w)))%nat)
    by (apply remove_event_length, Hin).
  assert (Hevs0 : Forall (fun x => (ev_self x < length (watchdogs w))%nat) (sim_events e0))
    by (apply remove_event_Forall, Hevs).
  unfold m_maxMonitorCount in *.
  destruct (Watchdog.terminated a e0) eqn:Ht.
  - rewrite (MonitorNode_terminated _ _ _ _ _ Hid Ht). cbn [mbind option_bind].
    eexists. split; [reflexivity|]. split; [split|].
    + cbn [watchdogs env]. apply Forall_insert; [exact Hws|].
      split; [exists id; split; [exact Hid|exact Hr]|exact Hcount].
    + cbn [watchdogs env]. rewrite length_insert. exact Hevs0.
    + unfold events_left. cbn [watchdogs env].
      pose proof (rounds_left_insert (watchdogs w) (ev_self ev) a
                    (Watchdog.set_packetLossRate (loss_rate a) a) Ha) as Hrl.
      cbn [Watchdog.set_packetLossRate m_monitorCount] in Hrl.
      change (sim_events (log _ (log _ e0))) with (sim_events e0). lia.
  - rewrite (MonitorNode_round _ _ _ _ _ Hid Ht).
    set (event := Watchdog.evidence _).
    set (e1 := snd (rand (log (LogMonitoring id) e0))).
    destruct (ProcessEvent_defined event a e1 id Hid (fun _ => Hr)) as (a1 & e2 & Hp).
    rewrite Hp. cbn [mbind option_bind].
    apply ProcessEvent_returns in Hp.
    destruct Hp as (id' & _ & _ & -> & Hns & _ & _ & _ & _ & _ & Hev2 & _).
    change (sim_events e1) with (sim_events e0) in Hev2.
    change (nodesStatus e1) with (nodesStatus (env w)) in Hns.
    unfold Watchdog.terminated in Ht. apply orb_false_elim in Ht.
    destruct Ht as [Ht _]. apply Z.leb_gt in Ht. unfold m_maxMonitorCount in Ht.
    cbn [Watchdog.set_reputation m_monitorCount].
    assert (Hincr : uint32_incr (m_monitorCount a) = m_monitorCount a + 1)
      by (unfold uint32_incr, UINT32_MOD; apply Z.mod_small; lia).
    assert (Hlenns : length (nodesStatus e2) = length (nodesStatus (env w)))
      by (rewrite Hns; destruct (marks_decided event); [apply length_insert|reflexivity]).
    eexists. split; [reflexivity|]. split; [split|].
    + cbn [watchdogs env Simulator_Schedule snd set_events nodesStatus].
      apply Forall_insert.
      * eapply Forall_impl; [exact Hws|]. cbn beta.
        intros x [(idx & Hx & Hrx) Hcx]. split; [|exact Hcx].
        exists idx. split; [exact Hx|]. unfold in_range in *. rewrite Hlenns. exact Hrx.
      * cbn [Watchdog.set_event Watchdog.set_monitorCount m_node m_monitorCount
             Watchdog.set_reputation].
        split; [|rewrite Hincr; unfold m_maxMonitorCount; lia].
        exists id. split; [exact Hid|]. unfold in_range in *. rewrite Hlenns. exact Hr.
    + cbn [watchdogs env Simulator_Schedule snd set_events sim_events].
      rewrite length_insert, Hev2. apply Forall_app. split; [exact Hevs0|].
      constructor; [exact Hself|constructor].
    + unfold events_left.
      cbn [watchdogs env Simulator_Schedule snd set_events sim_events].
      rewrite Hev2, length_app, Hincr. cbn [length].
      match goal with
      | |- context [<[_ := ?b]> _] =>
          pose proof (rounds_left_insert (watchdogs w) (ev_self ev) a b Ha) as Hrl
      end.
      cbn [Watchdog.set_event Watchdog.set_monitorCount m_monitorCount
           Watchdog.set_reputation] in Hrl.
      unfold m_maxMonitorCount in Hrl. lia.
Qed.

Lemma Simulator_Run_terminates RAND_MAX stop fuel : forall w,
  runnable w ->
  (events_left w <= fuel)%nat ->
  exists w', Simulator_Run RAND_MAX stop fuel w = Some w' /\ runnable w'.
Proof.
  induction fuel as [|fuel IH]; intros w Hrun Hfuel; cbn [Simulator_Run].
  - destruct (next_event (sim_events (env w))) as [ev|] eqn:Hnext; [|eauto].
    destruct (stop <=? ev_ts ev); [eauto|].
    exfalso. apply next_event_In in Hnext. unfold events_left in Hfuel.
    destruct (sim_events (env w)); [contradiction|simpl in Hfuel; lia].
  - destruct (next_event (sim_events (env w))) as [ev|] eqn:Hnext; [|eauto].
    destruct (stop <=? ev_ts ev); [eauto|].
    destruct (RunEvent_progress RAND_MAX w ev Hrun Hnext) as (w1 & H1 & Hrun1 & Hlt).
    rewrite H1. cbn [mbind option_bind]. apply IH; [exact Hrun1|lia].
Qed.
(** ** C10: the packet counters of a watchdog are never written *)

(** C10. No operation on a [WatchdogNode] (Setup, StartApplication,
    StopApplication, MonitorNode and the ProcessEvent it calls) modifies
    [m_sentPackets] or [m_receivedPackets]: over any sequence of calls an
    existing object keeps both counters, and an object created in the
    course of it has both at 0, the value the constructor gave them; the
    divisor of its loss-rate computation is then the [double] 0. *)
Theorem packet_counters_never_written RAND_MAX cs w w' i :
  run_calls RAND_MAX cs w = Some w' ->
  match watchdogs w !! i with
  | Some a =>
      exists b, watchdogs w' !! i = Some b /\
                m_sentPackets b = m_sentPackets a /\
                m_receivedPackets b = m_receivedPackets a
  | None =>
      forall b, watchdogs w' !! i = Some b ->
                m_sentPackets b = 0 /\ m_receivedPackets b = 0 /\
                of_Z (m_sentPackets b) = zero
  end.
Proof.
  intros H. pose proof (run_calls_objects _ _ _ _ H i) as Hi.
  destruct (watchdogs w !! i) as [a|].
  - destruct Hi as (b & n & Hb & Hs). exists b. split; [exact Hb|].
    apply object_steps_untouched in Hs. tauto.
  - intros b Hb. destruct Hi as [Hi | (b' & n & Hb' & Hs)]; [congruence|].
    assert (b' = b) by congruence. subst b'.
    apply object_steps_untouched in Hs. destruct Hs as (-> & -> & _).
    repeat split.
Qed.

Lemma packet_counters_never_written_witness :
  exists w,
    run_calls glibc_RAND_MAX (watchdog_0_runs 11) (main_configured rand_zero) = Some w /\
    exists this,
      watchdogs w !! 0%nat = Some this /\
      m_sentPackets this = 0 /\ m_receivedPackets this = 0.
Proof.
  destruct (run_calls glibc_RAND_MAX (watchdog_0_runs 11) (main_configured rand_zero))
    as [w|] eqn:E; [|vm_compute in E; discriminate E].
  exists w. split; [reflexivity|].
  exact (packet_counters_never_written glibc_RAND_MAX (watchdog_0_runs 11)
           (main_configured rand_zero) w 0%nat E).
Defined.

Lemma object_step_count RAND_MAX a r b :
  object_step RAND_MAX a r b ->
  0 <= m_monitorCount a <= m_maxMonitorCount ->
  m_monitorCount b = m_monitorCount a + Z.of_nat (Nat.b2n r) /\
  m_monitorCount b <= m_maxMonitorCount.
Proof.
  intros [node gamma | self e b' e' H | e b' e' H | self e b' e' H] Hc.
  - simpl. lia.
  - unfold Watchdog.StartApplication, GetId in H.
    destruct (m_node a); [|discriminate]. injection H as <- _. simpl. lia.
  - unfold Watchdog.StopApplication, GetId in H.
    destruct (m_node a); [|discriminate]. injection H as <- _. simpl. lia.
  - apply MonitorNode_returns in H. destruct H as (id & Hid & H).
    destruct (Watchdog.terminated a e) eqn:Ht.
    + destruct H as [-> _]. simpl. lia.
    + destruct H as (this1 & e1 & Hp & -> & _).
      apply ProcessEvent_returns in Hp. destruct Hp as (_ & _ & _ & -> & _).
      unfold Watchdog.terminated in Ht. apply orb_false_elim in Ht.
      destruct Ht as [Ht _]. apply Z.leb_gt in Ht.
      unfold m_maxMonitorCount in *. simpl.
      unfold uint32_incr, UINT32_MOD. rewrite Z.mod_small by lia. lia.
Qed.

Lemma object_steps_count RAND_MAX a n b :
  object_steps RAND_MAX a n b ->
  0 <= m_monitorCount a <= m_maxMonitorCount ->
  m_monitorCount b = m_monitorCount a + Z.of_nat n /\
  m_monitorCount b <= m_maxMonitorCount.
Proof.
  induction 1 as [|a r b n c Hs _ IH]; intros Hc.
  - lia.
  - destruct (object_step_count _ _ _ _ Hs Hc) as [H1 H2].
    destruct IH as [H3 H4]; [lia|]. split; [|exact H4].
    rewrite H3, H1. lia.
Qed.

(** ** C1: convergence of the network *)

(** The world [main] has built when the applications have started: no
    event of it can run into undefined behaviour, and 264 events are
    left at most, the 24 first calls of [MonitorNode] and ten rounds of
    each watchdog. *)
Lemma main_started RAND_MAX seq :
  exists w,
    run_calls RAND_MAX main_start_calls (main_configured seq) = Some w /\
    runnable w /\ events_left w = 264%nat.
Proof.
  eexists. split; [vm_compute; reflexivity|]. split; [split|reflexivity].
  - cbn [watchdogs env nodesStatus].
    repeat (constructor;
            [split; [eexists; split; [reflexivity|unfold in_range; simpl; lia]
                    |unfold m_maxMonitorCount; simpl; lia]|]).
    constructor.
  - cbn [watchdogs env sim_events].
    repeat (constructor; [simpl; lia|]). constructor.
Qed.

Lemma main_result_not_converged RAND_MAX seq fuel w :
  main RAND_MAX seq fuel = Some w ->
  allNodesConverged (env w) = false /\ convergenceTime (env w) = zero.
Proof.
  unfold main. intros H.
  destruct (run_calls RAND_MAX _ (main_configured seq)) as [w1|] eqn:E1;
    [|discriminate].
  simpl in H. apply Simulator_Run_calls in H. destruct H as [n Hn].
  assert (Hb : blocked_by 24 (main_configured seq)).
  { unfold blocked_by. split; [reflexivity|]. split; [reflexivity|].
    unfold main_configured. cbn [watchdogs].
    apply Forall_map. apply Forall_forall. intros i Hi.
    apply list_elem_of_In, in_seq in Hi. simpl. intros [=]. lia. }
  eapply run_calls_blocked in E1; [|clear|exact Hb].
  - destruct E1 as [Hb1 Ht1].
    eapply run_calls_blocked in Hn; [|clear|exact Hb1].
    + destruct Hn as [(_ & Hc & _) Ht]. split; [exact Hc|].
      rewrite Ht, Ht1. reflexivity.
    + apply Forall_replicate. reflexivity.
  - constructor; [reflexivity|]. apply Forall_app. split.
    + apply Forall_map. apply Forall_forall. reflexivity.
    + constructor; [reflexivity|constructor].
Qed.

(** X1. In the configuration of [main] node 24 carries no watchdog, and
    [nodesStatus] has an entry for it: whatever [RAND_MAX] is and
    whatever numbers [rand()] returns, the run of the simulation ends (264
    events suffice: no number of events below the stop time is left
    after them, and none runs into undefined behaviour), and it ends with
    [allNodesConverged] false and [convergenceTime] 0. *)
Theorem main_never_converges RAND_MAX seq :
  (forall fuel, (264 <= fuel)%nat ->
     exists w, main RAND_MAX seq fuel = Some w /\
               allNodesConverged (env w) = false /\
               convergenceTime (env w) = zero) /\
  (forall fuel w, main RAND_MAX seq fuel = Some w ->
     allNodesConverged (env w) = false /\ convergenceTime (env w) = zero).
Proof.
  split; [|apply main_result_not_converged].
  intros fuel Hfuel.
  destruct (main_started RAND_MAX seq) as (w1 & H1 & Hrun & Hleft).
  destruct (Simulator_Run_terminates RAND_MAX (30 * Seconds_1) fuel w1 Hrun)
    as (w & Hw & _); [lia|].
  assert (Hmain : main RAND_MAX seq fuel = Some w).
  { unfold main. fold main_start_calls. rewrite H1. exact Hw. }
  exists w. split; [exact Hmain|].
  exact (main_result_not_converged _ _ _ _ Hmain).
Qed.

(** The run of [main] for a generator whose numbers yield positive,
    negative and unknown evidence in turn. *)
Lemma main_never_converges_witness :
  exists w,
    main glibc_RAND_MAX (fun n => Z.of_nat (n mod 3) * 1000000000) 264 = Some w /\
    allNodesConverged (env w) = false /\ convergenceTime (env w) = zero.
Proof.
  destruct (main_never_converges glibc_RAND_MAX
              (fun n => Z.of_nat (n mod 3) * 1000000000)) as [H _].
  exact (H 264%nat (le_n 264)).
Defined.

(** C1. [main] as written, with a generator that returns 0 at every
    call, so that every round of every watchdog yields positive
    evidence: the run ends with each of the 24 watchdogs attached to its
    node and marked in [nodesStatus], that is with every monitoring node
    decided, and yet with [allNodesConverged] false and
    [convergenceTime] still 0.  The flag is not set at the instant every
    watchdog has decided: the entries of the nodes 24, 25 and 26, which
    carry no watchdog, stay false. *)
Theorem main_all_watchdogs_decided_not_converged :
  exists w,
    main glibc_RAND_MAX rand_zero 264 = Some w /\
    map m_node (watchdogs w) = map (fun i => Some (Z.of_nat i)) (List.seq 0 24) /\
    take 24 (nodesStatus (env w)) = replicate 24 true /\
    drop 24 (nodesStatus (env w)) = [false; false; false] /\
    allNodesConverged (env w) = false /\
    convergenceTime (env w) = zero.
Proof.
  eexists. split; [vm_compute; reflexivity|].
  vm_compute. repeat split.
Qed.

(** ** C2: the loss rate of the terminal call *)

(** C2, as amended.  When [MonitorNode] runs with
    [m_monitorCount >= m_maxMonitorCount] or with [allNodesConverged]
    true, it stores [1 - (double)m_receivedPackets / m_sentPackets] in
    [m_packetLossRate], computed in binary64 arithmetic and without any
    guard, prints it, draws no random number, leaves reputation and round
    count alone and schedules nothing; with both counters 0 the value
    stored and printed is NaN. *)
Theorem terminal_call_records_unguarded_loss_rate RAND_MAX self this e id :
  m_node this = Some id ->
  Watchdog.terminated this e = true ->
  exists this' e',
    Watchdog.MonitorNode RAND_MAX self this e = Some (this', e') /\
    m_packetLossRate this' =
      sub one (div (of_Z (m_receivedPackets this)) (of_Z (m_sentPackets this))) /\
    (m_sentPackets this = 0 -> m_receivedPackets this = 0 ->
     m_packetLossRate this' = S754_nan) /\
    out e' = out e ++ [LogTerminated id; LogLossRate id (m_packetLossRate this')] /\
    sim_events e' = sim_events e /\
    sim_uid e' = sim_uid e /\
    m_event this' = m_event this /\
    rand_calls e' = rand_calls e /\
    m_monitorCount this' = m_monitorCount this /\
    m_reputation this' = m_reputation this.
Proof.
  intros Hid Ht. rewrite (MonitorNode_terminated _ _ _ _ _ Hid Ht).
  eexists _, _. split; [reflexivity|]. simpl.
  repeat split.
  - intros Hs Hr. unfold loss_rate. rewrite Hs, Hr. reflexivity.
  - rewrite <- app_assoc. reflexivity.
Qed.

Lemma terminal_call_records_unguarded_loss_rate_witness :
  exists this' e',
    Watchdog.MonitorNode glibc_RAND_MAX 0
      (Watchdog.set_monitorCount 10 (Watchdog.Setup (Some 0) (literal 5 10) Watchdog.new))
      (initial_env rand_zero) = Some (this', e') /\
    m_packetLossRate this' = S754_nan /\
    sim_events e' = [].
Proof.
  destruct (terminal_call_records_unguarded_loss_rate glibc_RAND_MAX 0
              (Watchdog.set_monitorCount 10
                 (Watchdog.Setup (Some 0) (literal 5 10) Watchdog.new))
              (initial_env rand_zero) 0 eq_refl eq_refl)
    as (this' & e' & H & _ & Hnan & _ & Hev & _).
  exists this', e'. split; [exact H|]. split; [|exact Hev].
  apply Hnan; reflexivity.
Defined.

(** C2 as stated fails: at the end of the run of [main] the watchdog of
    node 0 has sent nothing, the specification's loss rate is undefined
    there, and the program has computed NaN, stored it as the loss rate
    and printed it. *)
Lemma main_records_nan_loss_rate :
  exists w this,
    main glibc_RAND_MAX rand_zero 264 = Some w /\
    watchdogs w !! 0%nat = Some this /\
    m_sentPackets this = 0 /\
    lossRate_spec (m_sentPackets this) (m_receivedPackets this) = None /\
    m_packetLossRate this = S754_nan /\
    existsb (reports_nan_loss_rate 0) (out (env w)) = true.
Proof.
  eexists _, _. split; [vm_compute; reflexivity|].
  split; [vm_compute; reflexivity|].
  vm_compute. repeat split.
Qed.

(** ** C3: the number of rounds *)

(** C3, as amended.  Over the whole life of a watchdog object, whatever
    is called on it and whatever the other objects do in between, at
    most [m_maxMonitorCount] = 10 calls of [MonitorNode] are monitoring
    rounds, and [m_monitorCount] counts them.  A call of [MonitorNode]
    is then either a round, the 10th included, which schedules the next
    call one second later, or, from the count of 10 on (or once the
    network has converged), the terminal call, which schedules nothing. *)
Theorem at_most_ten_rounds RAND_MAX n this self e this' e' :
  object_steps RAND_MAX Watchdog.new n this ->
  Watchdog.MonitorNode RAND_MAX self this e = Some (this', e') ->
  (n <= 10)%nat /\
  m_monitorCount this = Z.of_nat n /\
  (n = 10%nat -> Watchdog.terminated this e = true) /\
  if Watchdog.terminated this e
  then m_monitorCount this' = m_monitorCount this /\
       sim_events e' = sim_events e /\
       m_event this' = m_event this
  else (n < 10)%nat /\
       m_monitorCount this' = Z.of_nat (S n) /\
       sim_events e' =
         sim_events e ++
         [{| ev_ts := sim_now e + Seconds_1; ev_uid := sim_uid e; ev_self := self |}] /\
       m_event this' = Some (sim_uid e).
Proof.
  intros Hs H.
  apply object_steps_count in Hs; [|simpl; unfold m_maxMonitorCount; lia].
  simpl in Hs. destruct Hs as [Hn Hle]. unfold m_maxMonitorCount in Hle.
  split; [lia|]. split; [lia|]. split.
  { intros ->. unfold Watchdog.terminated, m_maxMonitorCount. rewrite Hn. reflexivity. }
  apply MonitorNode_returns in H. destruct H as (id & Hid & H).
  destruct (Watchdog.terminated this e) eqn:Ht.
  - destruct H as [-> ->]. simpl. auto.
  - destruct H as (this1 & e1 & Hp & -> & ->).
    apply ProcessEvent_returns in Hp.
    destruct Hp as (_ & _ & _ & -> & _ & _ & _ & _ & Hnow & Huid & Hev & _).
    unfold Watchdog.terminated in Ht. apply orb_false_elim in Ht.
    destruct Ht as [Ht _]. apply Z.leb_gt in Ht. unfold m_maxMonitorCount in Ht.
    simpl in *. rewrite Hnow, Huid, Hev.
    split; [lia|]. split; [|auto].
    unfold uint32_incr, UINT32_MOD. rewrite Z.mod_small by lia. lia.
Qed.

Lemma at_most_ten_rounds_witness :
  exists this' e',
    Watchdog.MonitorNode glibc_RAND_MAX 0
      (Watchdog.Setup (Some 0) (literal 5 10) Watchdog.new)
      (set_nodesStatus [false; false] (initial_env rand_zero)) = Some (this', e') /\
    m_monitorCount this' = 1 /\
    sim_events e' = [{| ev_ts := Seconds_1; ev_uid := 0; ev_self := 0 |}].
Proof.
  destruct (Watchdog.MonitorNode glibc_RAND_MAX 0
              (Watchdog.Setup (Some 0) (literal 5 10) Watchdog.new)
              (set_nodesStatus [false; false] (initial_env rand_zero)))
    as [[this' e']|] eqn:E; [|vm_compute in E; discriminate E].
  exists this', e'. split; [reflexivity|].
  pose proof (at_most_ten_rounds glibc_RAND_MAX 0
                (Watchdog.Setup (Some 0) (literal 5 10) Watchdog.new) 0
                (set_nodesStatus [false; false] (initial_env rand_zero)) this' e'
                (steps_step glibc_RAND_MAX Watchdog.new false _ 0 _
                   (step_Setup glibc_RAND_MAX Watchdog.new (Some 0) (literal 5 10))
                   (steps_refl glibc_RAND_MAX _))
                E) as (_ & _ & _ & H).
  change (Watchdog.terminated _ _) with false in H.
  destruct H as (_ & H1 & H2 & _). split; [exact H1 | exact H2].
Defined.

(** C3 as stated fails: with the watchdog of node 0 started alone in the
    configuration of [main], the 10th round leaves a timer behind, the
    event with uid 10 due at 12 s. *)
Lemma tenth_round_schedules_a_timer :
  exists w this,
    run_calls glibc_RAND_MAX (watchdog_0_runs 10) (main_configured rand_zero) = Some w /\
    watchdogs w !! 0%nat = Some this /\
    m_monitorCount this = 10 /\
    m_event this = Some 10 /\
    sim_now (env w) = 11 * Seconds_1 /\
    sim_events (env w) = [{| ev_ts := 12 * Seconds_1; ev_uid := 10; ev_self := 0 |}].
Proof.
  eexists _, _. split; [vm_compute; reflexivity|].
  split; [vm_compute; reflexivity|].
  vm_compute. repeat split.
Qed.

(** ** C7: the convergence flag is monotone and written once *)

(** C7. Over any sequence of calls, once [allNodesConverged] is true it
    stays true and [convergenceTime] keeps its value; the assignment of
    the two variables, which the line "All nodes have converged"
    reports, happens at most once, and exactly when the flag goes from
    false to true. *)
Theorem converged_monotone_written_once RAND_MAX cs w w' :
  run_calls RAND_MAX cs w = Some w' ->
  (allNodesConverged (env w) = true ->
   allNodesConverged (env w') = true /\
   convergenceTime (env w') = convergenceTime (env w)) /\
  exists added,
    out (env w') = out (env w) ++ added /\
    (convergence_writes added <= 1)%nat /\
    (convergence_writes added = 1%nat <->
     allNodesConverged (env w) = false /\ allNodesConverged (env w') = true) /\
    (convergence_writes added = 0%nat ->
     allNodesConverged (env w') = allNodesConverged (env w) /\
     convergenceTime (env w') = convergenceTime (env w)).
Proof.
  intros H. apply run_calls_convergence in H.
  destruct H as (added & Ho & [(Hc & Ht & Hw)|(Hc & Hc' & Hw)]).
  - split; [intros Htrue; split; congruence|].
    exists added. split; [exact Ho|]. rewrite Hw. split; [lia|]. split; [|auto].
    split; [discriminate|]. intros [H1 H2]. congruence.
  - split; [congruence|].
    exists added. split; [exact Ho|]. rewrite Hw. split; [lia|]. split; [|discriminate].
    split; auto.
Qed.

Lemma converged_monotone_written_once_witness :
  exists w1 w2,
    run_calls glibc_RAND_MAX (single_node_calls 1) single_node_world = Some w1 /\
    run_calls glibc_RAND_MAX [RunEvent; WatchdogStop 0] w1 = Some w2 /\
    allNodesConverged (env w1) = true /\
    allNodesConverged (env w2) = true /\
    convergenceTime (env w2) = convergenceTime (env w1).
Proof.
  destruct (run_calls glibc_RAND_MAX (single_node_calls 1) single_node_world)
    as [w1|] eqn:E1; [|vm_compute in E1; discriminate E1].
  destruct (run_calls glibc_RAND_MAX [RunEvent; WatchdogStop 0] w1)
    as [w2|] eqn:E2.
  - exists w1, w2.
    assert (Hc : allNodesConverged (env w1) = true)
      by (vm_compute in E1; injection E1 as <-; reflexivity).
    destruct (converged_monotone_written_once _ _ _ _ E2) as [H _].
    destruct (H Hc) as [H1 H2]. auto.
  - exfalso. vm_compute in E1. injection E1 as <-. vm_compute in E2. discriminate E2.
Defined.

(** ** C9: Setup accepts whatever it is given *)

(** C9, as amended.  Neither [Setup] validates anything or can report
    an error: called on an existing object it always returns;
    [GreyholeNode::Setup] stores the drop probability it is given, be it
    outside [0,1] or NaN, and [WatchdogNode::Setup] stores node and gamma
    whether or not the object was attached before, leaving the other
    members and the rest of the program as they are. *)
Theorem Setup_stores_its_arguments RAND_MAX w i j node p gamma g this :
  greyholes w !! i = Some g ->
  watchdogs w !! j = Some this ->
  invoke RAND_MAX (GreyholeSetup i node p) w =
    Some {| watchdogs := watchdogs w;
            greyholes := <[i := Greyhole.Setup node p g]> (greyholes w);
            env := env w |} /\
  gh_dropProbability (Greyhole.Setup node p g) = p /\
  gh_node (Greyhole.Setup node p g) = node /\
  gh_socket (Greyhole.Setup node p g) = gh_socket g /\
  invoke RAND_MAX (WatchdogSetup j node gamma) w =
    Some {| watchdogs := <[j := Watchdog.Setup node gamma this]> (watchdogs w);
            greyholes := greyholes w;
            env := env w |} /\
  Watchdog.Setup node gamma this =
    {| m_node := node; m_gamma := gamma;
       m_reputation := m_reputation this; m_threshold := m_threshold this;
       m_event := m_event this; m_monitorCount := m_monitorCount this;
       m_receivedPackets := m_receivedPackets this;
       m_sentPackets := m_sentPackets this;
       m_packetLossRate := m_packetLossRate this |}.
Proof.
  intros Hg Hw. cbn [invoke]. rewrite Hg, Hw. repeat split.
Qed.

Lemma Setup_stores_its_arguments_witness :
  exists w,
    run_calls glibc_RAND_MAX
      [GreyholeSetup 0 (Some 25) (of_Z 2); WatchdogSetup 3 (Some 7) (literal 5 10)]
      (main_configured rand_zero) = Some w /\
    gh_dropProbability <$> greyholes w !! 0%nat = Some (of_Z 2) /\
    m_node <$> watchdogs w !! 3%nat = Some (Some 7).
Proof.
  pose proof (Setup_stores_its_arguments glibc_RAND_MAX (main_configured rand_zero)
                0%nat 3%nat (Some 25) (of_Z 2) (literal 5 10) _ _ eq_refl eq_refl)
    as (H1 & _).
  cbn [run_calls]. rewrite H1. cbn [mbind option_bind].
  eexists. split; [reflexivity|]. split; reflexivity.
Defined.

(** C9 as stated fails: in the configuration of [main] a further
    [Setup] of the greyhole with the drop probability 2 and a second
    [Setup] of the watchdog of node 3, now on node 7, both return; the
    probability 2 is stored as it is and the watchdog is silently
    attached to node 7. *)
Lemma Setup_rejects_nothing :
  leb (of_Z 2) one = false /\
  m_node <$> watchdogs (main_configured rand_zero) !! 3%nat = Some (Some 3) /\
  exists w,
    run_calls glibc_RAND_MAX
      [GreyholeSetup 0 (Some 25) (of_Z 2); WatchdogSetup 3 (Some 7) (literal 5 10)]
      (main_configured rand_zero) = Some w /\
    gh_dropProbability <$> greyholes w !! 0%nat = Some (of_Z 2) /\
    m_node <$> watchdogs w !! 3%nat = Some (Some 7) /\
    out (env w) = [].
Proof.
  split; [reflexivity|]. split; [reflexivity|].
  eexists. split; [vm_compute; reflexivity|]. repeat split.
Qed.

(** ** C5: reputation is the signed sum of the evidence *)

Lemma exact_int_one : exact_int 1.
Proof. reflexivity. Qed.

Lemma reputation_after_of_Z event z :
  exact_int z -> exact_int (z + contribution event) ->
  reputation_after event (of_Z z) = of_Z (z + contribution event).
Proof.
  intros Hz Hz'. destruct event; simpl in *.
  - rewrite Z.add_0_r. reflexivity.
  - apply of_Z_add; [exact Hz|exact exact_int_one|exact Hz'].
  - change (z + -1) with (z - 1). apply of_Z_sub; [exact Hz|exact exact_int_one|exact Hz'].
Qed.

Lemma contribution_bound event : -1 <= contribution event <= 1.
Proof. destruct event; simpl; lia. Qed.

(** C5. One event changes the reputation by +1.0 (positive), -1.0
    (negative) or not at all (no status).  Applied to a watchdog attached
    to a node of [nodesStatus] whose reputation is the integer [z], any
    sequence of events that keeps the count within the 53 binary digits a
    [double] holds exactly (a watchdog sees at most ten) is processed to
    the end and leaves the reputation [z] plus the signed sum of the
    sequence; the node is marked in [nodesStatus] when the sequence has
    a positive or negative event, and [nodesStatus] is left as it was
    when it has none. *)
Theorem reputation_is_signed_sum events : forall this e id z,
  m_node this = Some id ->
  in_range id (nodesStatus e) ->
  m_reputation this = of_Z z ->
  Z.abs z + Z.of_nat (length events) < 2 ^ 53 ->
  exists this' e',
    ProcessEvents events this e = Some (this', e') /\
    m_reputation this' = of_Z (z + signed_sum events) /\
    m_reputation this' = foldl (fun r event => reputation_after event r)
                               (m_reputation this) events /\
    nodesStatus e' =
      (if existsb marks_decided events
       then <[Z.to_nat id := true]> (nodesStatus e)
       else nodesStatus e).
Proof.
  induction events as [|event events IH]; intros this e id z Hid Hr Hz Hb.
  - exists this, e. simpl. rewrite Z.add_0_r. auto.
  - cbn [ProcessEvents].
    destruct (ProcessEvent_defined event this e id Hid (fun _ => Hr))
      as (this1 & e1 & H1).
    rewrite H1. cbn [mbind option_bind].
    apply ProcessEvent_returns in H1.
    destruct H1 as (id' & Hid' & _ & Hthis & Hns & _).
    assert (id' = id) by congruence. subst id'.
    pose proof (contribution_bound event) as Hc.
    cbn [length] in Hb. rewrite Nat2Z.inj_succ in Hb.
    assert (Hrep1 : m_reputation this1 = of_Z (z + contribution event)).
    { rewrite Hthis. cbn [Watchdog.set_reputation m_reputation]. rewrite Hz.
      apply reputation_after_of_Z; unfold exact_int, prec; lia. }
    assert (Hr1 : in_range id (nodesStatus e1)).
    { unfold in_range in *. rewrite Hns.
      destruct (marks_decided event); [rewrite length_insert|]; exact Hr. }
    destruct (IH this1 e1 id (z + contribution event)) as (this' & e' & H & Hrep & Hfold & Hns');
      [rewrite Hthis; exact Hid | exact Hr1 | exact Hrep1 | lia |].
    exists this', e'. split; [exact H|]. split; [|split].
    + rewrite Hrep. f_equal. cbn [signed_sum foldr]. fold (signed_sum events). lia.
    + rewrite Hfold. cbn [foldl]. rewrite Hthis. reflexivity.
    + rewrite Hns', Hns. cbn [existsb].
      destruct (marks_decided event), (existsb marks_decided events); cbn [orb];
        try reflexivity.
      apply list_insert_insert_eq.
Qed.

Lemma reputation_is_signed_sum_witness :
  exists this' e',
    ProcessEvents [POSITIVE_STATUS; POSITIVE_STATUS; NEGATIVE_STATUS; NO_STATUS]
      (Watchdog.Setup (Some 3) (literal 5 10) Watchdog.new)
      (env (main_configured rand_zero)) = Some (this', e') /\
    m_reputation this' = one /\
    nodesStatus e' !! 3%nat = Some true.
Proof.
  destruct (reputation_is_signed_sum
              [POSITIVE_STATUS; POSITIVE_STATUS; NEGATIVE_STATUS; NO_STATUS]
              (Watchdog.Setup (Some 3) (literal 5 10) Watchdog.new)
              (env (main_configured rand_zero)) 3 0 eq_refl)
    as (this' & e' & H & Hrep & _ & Hns).
  - unfold in_range. simpl. lia.
  - reflexivity.
  - simpl. lia.
  - exists this', e'. split; [exact H|]. split; [exact Hrep|].
    rewrite Hns. reflexivity.
Defined.

(** ** C6: the three bands of the classification *)

Lemma classify_of_Z z : exact_int z -> Watchdog.classify (of_Z z) one = band z.
Proof.
  intros Hz. unfold Watchdog.classify, band, geb.
  change (opp one) with (of_Z (-1)). unfold one.
  rewrite of_Z_leb by (exact Hz || exact exact_int_one).
  rewrite of_Z_ltb by (exact Hz || reflexivity).
  reflexivity.
Qed.

(** The reputation of a watchdog is an integer of at most as many units
    as it has run rounds. *)
Lemma object_step_reputation RAND_MAX a r b z :
  object_step RAND_MAX a r b ->
  m_reputation a = of_Z z -> Z.abs z + Z.of_nat (Nat.b2n r) < 2 ^ 53 ->
  exists z', m_reputation b = of_Z z' /\ Z.abs (z' - z) <= Z.of_nat (Nat.b2n r).
Proof.
  intros [node gamma | self e b' e' H | e b' e' H | self e b' e' H] Hz Hb.
  - exists z. simpl. split; [exact Hz|lia].
  - unfold Watchdog.StartApplication, GetId in H.
    destruct (m_node a); [|discriminate]. injection H as <- _.
    exists z. simpl. split; [exact Hz|lia].
  - unfold Watchdog.StopApplication, GetId in H.
    destruct (m_node a); [|discriminate]. injection H as <- _.
    exists z. simpl. split; [exact Hz|lia].
  - apply MonitorNode_returns in H. destruct H as (id & Hid & H).
    destruct (Watchdog.terminated a e); cbn [negb Nat.b2n] in *.
    + destruct H as [-> _]. exists z. simpl. split; [exact Hz|lia].
    + destruct H as (this1 & e1 & Hp & -> & _).
      apply ProcessEvent_returns in Hp. destruct Hp as (_ & _ & _ & -> & _).
      set (event := Watchdog.evidence _).
      pose proof (contribution_bound event) as Hc.
      exists (z + contribution event). simpl. split; [|lia].
      rewrite Hz. apply reputation_after_of_Z; unfold exact_int, prec; lia.
Qed.

Lemma object_steps_reputation RAND_MAX a n b :
  object_steps RAND_MAX a n b -> forall z,
  m_reputation a = of_Z z -> Z.abs z + Z.of_nat n < 2 ^ 53 ->
  exists z', m_reputation b = of_Z z' /\ Z.abs (z' - z) <= Z.of_nat n.
Proof.
  induction 1 as [|a r b n c Hs _ IH]; intros z Hz Hb.
  - exists z. split; [exact Hz|lia].
  - rewrite Nat2Z.inj_add in Hb.
    assert (Hr : 0 <= Z.of_nat (Nat.b2n r) <= 1) by (destruct r; cbn [Nat.b2n]; lia).
    destruct (object_step_reputation _ _ _ _ z Hs Hz) as (z1 & Hz1 & Hd1); [lia|].
    destruct (IH z1 Hz1) as (z' & Hz' & Hd'); [lia|].
    exists z'. split; [exact Hz'|]. rewrite Nat2Z.inj_add. lia.
Qed.

(** At the two bounds, for any threshold: a reputation equal to the
    threshold has positive status, and one equal to minus a
    positive threshold has no status. *)
Lemma classify_at_the_bounds t :
  (is_nan t = false -> Watchdog.classify t t = POSITIVE_STATUS) /\
  (ltb zero t = true -> Watchdog.classify (opp t) t = NO_STATUS).
Proof.
  unfold Watchdog.classify, geb, leb, ltb, SFleb, SFltb, opp, zero.
  destruct t as [[|]|[|]| |[|] m e]; cbn [SFcompare SFopp is_nan negb];
    split; intros H; try discriminate H; try reflexivity;
    rewrite ?Z.compare_refl, ?Pos.compare_cont_refl; reflexivity.
Qed.

(** What [ProcessEvent] prints on a watchdog whose reputation is the
    integer [z] and whose threshold is 1.0: after the line of the event,
    one state line, the band of [z] plus the contribution of the event. *)
Lemma ProcessEvent_prints_band event this e id z :
  m_node this = Some id ->
  (marks_decided event = true -> in_range id (nodesStatus e)) ->
  m_reputation this = of_Z z ->
  m_threshold this = one ->
  Z.abs z + 1 < 2 ^ 53 ->
  exists this' e',
    Watchdog.ProcessEvent event this e = Some (this', e') /\
    m_reputation this' = of_Z (z + contribution event) /\
    out e' =
      out e ++
      [event_line event id (of_Z (z + contribution event));
       LogState id (band (z + contribution event))] ++
      (if Watchdog.allNodesHaveInfo (nodesStatus e') && negb (allNodesConverged e)
       then [LogConverged (GetSeconds (sim_now e))] else []) /\
    List.filter is_state_line (drop (length (out e)) (out e')) =
      [LogState id (band (z + contribution event))].
Proof.
  intros Hid Hr Hz Ht Hb.
  destruct (ProcessEvent_defined event this e id Hid Hr) as (this' & e' & H).
  exists this', e'. split; [exact H|].
  apply ProcessEvent_returns in H.
  destruct H as (id' & Hid' & _ & Hthis & _ & _ & _ & Ho & _).
  assert (id' = id) by congruence. subst id'.
  pose proof (contribution_bound event) as Hc.
  assert (Hrep : m_reputation this' = of_Z (z + contribution event)).
  { rewrite Hthis. cbn [Watchdog.set_reputation m_reputation]. rewrite Hz.
    apply reputation_after_of_Z; unfold exact_int, prec; lia. }
  rewrite Hrep, Ht in Ho.
  rewrite classify_of_Z in Ho by (unfold exact_int, prec; lia).
  split; [exact Hrep|]. split; [exact Ho|].
  rewrite Ho, drop_app_length.
  destruct (_ && _); destruct event; reflexivity.
Qed.

(** C6. [ProcessEvent] prints the band of the new reputation: positive
    status when [reputation >= threshold], negative status when
    [reputation < -threshold], no status in between.  Called on a
    watchdog attached to a node (of [nodesStatus], when the event is
    positive or negative) it returns, and what it adds to the log is the
    line of the event, then exactly one state line, which names the node
    and the band of the reputation the event has left, then the
    convergence line if the network converges with this event.  The
    reputation equal to the threshold has positive status and the one
    equal to minus the threshold has none, whatever the threshold.  The
    threshold of every watchdog is 1.0 throughout its life, and for a
    reputation that is the integer [z] (every reputation a watchdog
    reaches is one, of absolute value at most 10) the bands are [1 <= z],
    [z < -1] and the rest: the reputation -1.0, equal to minus the
    threshold, has no status, +1.0 has positive status, and -1.0001 has
    negative status. *)
Theorem classification_bands RAND_MAX :
  (forall r t,
      (Watchdog.classify r t = POSITIVE_STATUS <-> geb r t = true) /\
      (Watchdog.classify r t = NEGATIVE_STATUS <->
       geb r t = false /\ ltb r (opp t) = true) /\
      (Watchdog.classify r t = NO_STATUS <->
       geb r t = false /\ ltb r (opp t) = false)) /\
  (forall n this, object_steps RAND_MAX Watchdog.new n this -> m_threshold this = one) /\
  (forall z, exact_int z -> Watchdog.classify (of_Z z) one = band z) /\
  (forall n this,
      object_steps RAND_MAX Watchdog.new n this ->
      exists z, Z.abs z <= 10 /\ m_reputation this = of_Z z /\
                Watchdog.classify (m_reputation this) (m_threshold this) = band z) /\
  Watchdog.classify (opp one) one = NO_STATUS /\
  Watchdog.classify one one = POSITIVE_STATUS /\
  Watchdog.classify (literal (-10001) 10000) one = NEGATIVE_STATUS /\
  (forall event this e id,
      m_node this = Some id ->
      (marks_decided event = true -> in_range id (nodesStatus e)) ->
      exists this' e',
        Watchdog.ProcessEvent event this e = Some (this', e') /\
        m_reputation this' = reputation_after event (m_reputation this) /\
        m_threshold this' = m_threshold this /\
        out e' =
          out e ++
          [event_line event id (m_reputation this');
           LogState id (Watchdog.classify (m_reputation this') (m_threshold this'))] ++
          (if Watchdog.allNodesHaveInfo (nodesStatus e') && negb (allNodesConverged e)
           then [LogConverged (GetSeconds (sim_now e))] else []) /\
        List.filter is_state_line (drop (length (out e)) (out e')) =
          [LogState id (Watchdog.classify (m_reputation this') (m_threshold this'))]) /\
  (forall event this e id z,
      m_node this = Some id ->
      (marks_decided event = true -> in_range id (nodesStatus e)) ->
      m_reputation this = of_Z z ->
      m_threshold this = one ->
      Z.abs z + 1 < 2 ^ 53 ->
      exists this' e',
        Watchdog.ProcessEvent event this e = Some (this', e') /\
        m_reputation this' = of_Z (z + contribution event) /\
        List.filter is_state_line (drop (length (out e)) (out e')) =
          [LogState id (band (z + contribution event))]) /\
  (forall t,
      (is_nan t = false -> Watchdog.classify t t = POSITIVE_STATUS) /\
      (ltb zero t = true -> Watchdog.classify (opp t) t = NO_STATUS)).
Proof.
  split; [|split; [|split; [|split; [|split; [|split; [|split; [|split; [|split]]]]]]]].
  - intros r t. unfold Watchdog.classify.
    destruct (geb r t), (ltb r (opp t)); repeat split; intros; try discriminate;
      try reflexivity; destruct H; discriminate.
  - intros n this H. apply object_steps_untouched in H.
    destruct H as (_ & _ & ->). reflexivity.
  - exact classify_of_Z.
  - intros n this H.
    pose proof (object_steps_count _ _ _ _ H) as Hc.
    destruct Hc as [Hc Hle]; [simpl; unfold m_maxMonitorCount; lia|].
    simpl in Hc. unfold m_maxMonitorCount in Hle.
    destruct (object_steps_reputation _ _ _ _ H 0 eq_refl) as (z & Hz & Hd);
      [simpl; lia|].
    exists z. split; [lia|]. split; [exact Hz|].
    apply object_steps_untouched in H. destruct H as (_ & _ & ->).
    rewrite Hz. apply classify_of_Z. unfold exact_int, prec. lia.
  - reflexivity.
  - reflexivity.
  - reflexivity.
  - intros event this e id Hid Hr.
    destruct (ProcessEvent_defined event this e id Hid Hr) as (this' & e' & H).
    exists this', e'. split; [exact H|].
    apply ProcessEvent_returns in H.
    destruct H as (id' & Hid' & _ & Hthis & _ & _ & _ & Ho & _).
    assert (id' = id) by congruence. subst id'.
    assert (Ht : m_threshold this' = m_threshold this) by (rewrite Hthis; reflexivity).
    split; [rewrite Hthis; reflexivity|]. split; [exact Ht|].
    rewrite Ht. split; [exact Ho|].
    rewrite Ho, drop_app_length.
    destruct (_ && _); destruct event; reflexivity.
  - intros event this e id z Hid Hr Hz Ht Hb.
    destruct (ProcessEvent_prints_band event this e id z Hid Hr Hz Ht Hb)
      as (this' & e' & H & Hrep & _ & Hf).
    exists this', e'. auto.
  - exact classify_at_the_bounds.
Qed.

(** ** C4: one sample per round, cut at 0.33 and 0.66 *)

Lemma odd_multiple_no_tie RAND_MAX k n :
  Z.odd RAND_MAX = true -> Z.odd n = true -> 2 * k <> n * RAND_MAX.
Proof.
  intros HM Hn Heq.
  assert (H : Z.odd (n * RAND_MAX) = true) by (rewrite Z.odd_mul, HM, Hn; reflexivity).
  rewrite <- Heq, Z.odd_mul in H. discriminate H.
Qed.

(** For an odd [RAND_MAX] below 2^31 (the constant is one less than a
    power of two in the C libraries) the two comparisons of
    [MonitorNode] cut the range of [rand()] at 33 and at 66 hundredths
    of [RAND_MAX]. *)
Lemma evidence_cut RAND_MAX k :
  0 < RAND_MAX < 2 ^ 31 -> Z.odd RAND_MAX = true -> 0 <= k <= RAND_MAX ->
  Watchdog.evidence (random_fraction RAND_MAX k) = evidence_of_rand RAND_MAX k.
Proof.
  intros HM Hodd Hk. unfold Watchdog.evidence, evidence_of_rand.
  change (literal 33 100) with (S754_finite false 5944751508129055 (-54)).
  change (literal 66 100) with (S754_finite false 5944751508129055 (-53)).
  rewrite (fraction_ltb_cut RAND_MAX k 33), (fraction_ltb_cut RAND_MAX k 66);
    try assumption; try (left; reflexivity); try (right; reflexivity);
    try (simpl; lia).
  - reflexivity.
  - pose proof (odd_multiple_no_tie RAND_MAX (25 * k) 33 Hodd eq_refl). lia.
  - pose proof (odd_multiple_no_tie RAND_MAX (50 * k) 33 Hodd eq_refl). lia.
Qed.

(** C4, as amended.  A call of [MonitorNode] that is a round calls
    [rand()] once and processes the evidence of the sample
    [r = rand() / RAND_MAX]; the sample lies in the closed interval
    [0, 1], and the evidence is positive when [r < 0.33], negative when
    [0.33 <= r < 0.66] and unknown when [0.66 <= r], 0.33 and 0.66 being
    the [double] constants of the program.  For an odd [RAND_MAX] below
    2^31 these comparisons cut the range of [rand()] exactly at 33 and
    at 66 hundredths of [RAND_MAX]. *)
Theorem round_samples_once_cut_at_33_66 RAND_MAX self this e this' e' :
  0 < RAND_MAX -> exact_int RAND_MAX ->
  0 <= rand_seq e (rand_calls e) <= RAND_MAX ->
  Watchdog.terminated this e = false ->
  Watchdog.MonitorNode RAND_MAX self this e = Some (this', e') ->
  let r := random_fraction RAND_MAX (rand_seq e (rand_calls e)) in
  rand_calls e' = S (rand_calls e) /\
  m_reputation this' = reputation_after (Watchdog.evidence r) (m_reputation this) /\
  leb zero r = true /\ leb r one = true /\
  (Watchdog.evidence r = POSITIVE_STATUS <-> ltb r (literal 33 100) = true) /\
  (Watchdog.evidence r = NEGATIVE_STATUS <->
   leb (literal 33 100) r = true /\ ltb r (literal 66 100) = true) /\
  (Watchdog.evidence r = NO_STATUS <-> leb (literal 66 100) r = true) /\
  (RAND_MAX < 2 ^ 31 -> Z.odd RAND_MAX = true ->
   Watchdog.evidence r = evidence_of_rand RAND_MAX (rand_seq e (rand_calls e))).
Proof.
  intros HM Hex Hk Ht H r.
  assert (Hcut : RAND_MAX < 2 ^ 31 -> Z.odd RAND_MAX = true ->
                 Watchdog.evidence r = evidence_of_rand RAND_MAX (rand_seq e (rand_calls e)))
    by (intros Hlt Hodd; apply evidence_cut; [lia|assumption|assumption]).
  revert Hcut. generalize (evidence_of_rand RAND_MAX (rand_seq e (rand_calls e))).
  intros cut Hcut.
  apply MonitorNode_returns in H. destruct H as (id & Hid & H). rewrite Ht in H.
  destruct H as (this1 & e1 & Hp & -> & ->).
  apply ProcessEvent_returns in Hp.
  destruct Hp as (_ & _ & _ & -> & _ & _ & _ & _ & _ & _ & _ & _ & Hcalls & _).
  cbn in Hcalls. fold r in Hcalls |- *.
  destruct (random_fraction_range _ _ HM Hex Hk) as (H0 & H1 & _).
  fold r in H0, H1.
  split; [exact Hcalls|]. split; [reflexivity|]. split; [exact H0|]. split; [exact H1|].
  assert (H33 : ltb r (literal 33 100) = negb (leb (literal 33 100) r))
    by (apply (ltb_leb_fraction RAND_MAX _ _ _ HM Hex Hk)).
  assert (H66 : ltb r (literal 66 100) = negb (leb (literal 66 100) r))
    by (apply (ltb_leb_fraction RAND_MAX _ _ _ HM Hex Hk)).
  assert (Hmono : ltb r (literal 33 100) = true -> ltb r (literal 66 100) = true).
  { unfold r. destruct (random_fraction_cases _ _ HM Hex Hk)
      as [[_ ->]|(_ & m & ex & -> & _)]; [reflexivity|].
    change (literal 33 100) with (S754_finite false 5944751508129055 (-54)).
    change (literal 66 100) with (S754_finite false 5944751508129055 (-53)).
    unfold ltb, SFltb. cbn [SFcompare].
    destruct (Z.compare_spec ex (-54)) as [->|Hlt|Hgt].
    - reflexivity.
    - replace (ex ?= -53) with Lt by (symmetry; apply Z.compare_lt_iff; lia).
      reflexivity.
    - discriminate. }
  split; [|split; [|split; [|exact Hcut]]]; clear Hcut;
    unfold Watchdog.evidence; rewrite H66 in *; rewrite H33 in *;
    destruct (leb (literal 33 100) r), (leb (literal 66 100) r); cbn [negb] in *;
    repeat split; intros; try discriminate; try reflexivity;
    try (destruct H; discriminate);
    specialize (Hmono eq_refl); discriminate.
Qed.

Lemma round_samples_once_cut_at_33_66_witness :
  exists this' e',
    Watchdog.MonitorNode glibc_RAND_MAX 0
      (Watchdog.Setup (Some 0) (literal 5 10) Watchdog.new)
      (env (main_configured (fun _ => 711000000))) = Some (this', e') /\
    rand_calls e' = 1%nat /\
    m_reputation this' = of_Z (-1).
Proof.
  destruct (Watchdog.MonitorNode glibc_RAND_MAX 0
              (Watchdog.Setup (Some 0) (literal 5 10) Watchdog.new)
              (env (main_configured (fun _ => 711000000))))
    as [[this' e']|] eqn:E; [|vm_compute in E; discriminate E].
  exists this', e'. split; [reflexivity|].
  destruct (round_samples_once_cut_at_33_66 glibc_RAND_MAX 0
              (Watchdog.Setup (Some 0) (literal 5 10) Watchdog.new)
              (env (main_configured (fun _ => 711000000))) this' e'
              eq_refl eq_refl) as (Hc & Hr & _).
  - simpl. unfold glibc_RAND_MAX. lia.
  - reflexivity.
  - exact E.
  - split; [exact Hc|]. rewrite Hr. reflexivity.
Defined.

(** C4 as stated fails: with [RAND_MAX] = 2147483647 and [rand()] =
    711000000 the sample is below one third, exactly and as a [double],
    and the evidence is negative, not positive; and with [rand()] =
    [RAND_MAX] the sample is 1, outside [0, 1). *)
Lemma evidence_is_not_cut_at_thirds :
  3 * 711000000 < glibc_RAND_MAX /\
  ltb (random_fraction glibc_RAND_MAX 711000000) (literal 1 3) = true /\
  evidence_by_thirds (random_fraction glibc_RAND_MAX 711000000) = POSITIVE_STATUS /\
  Watchdog.evidence (random_fraction glibc_RAND_MAX 711000000) = NEGATIVE_STATUS /\
  random_fraction glibc_RAND_MAX glibc_RAND_MAX = one.
Proof. vm_compute. repeat split. Qed.

(** ** C8: what the greyhole forwards *)

(** C8, as amended.  For a packet it receives the greyhole calls
    [rand()] once and sends the packet back if and only if
    [r = rand() / RAND_MAX], a number of the closed interval [0, 1], is
    greater than the drop probability; otherwise it sends nothing and
    prints that the packet was dropped.  With drop probability 1 no
    packet is forwarded; with drop probability 0 a packet is forwarded
    unless [rand()] returned 0. *)
Theorem greyhole_forwards_above_drop_probability RAND_MAX this e id packet :
  0 < RAND_MAX -> exact_int RAND_MAX ->
  0 <= rand_seq e (rand_calls e) <= RAND_MAX ->
  gh_node this = Some id ->
  let k := rand_seq e (rand_calls e) in
  let r := random_fraction RAND_MAX k in
  exists e',
    Greyhole.ReceivePacket RAND_MAX (Some packet) this e = Some e' /\
    rand_calls e' = S (rand_calls e) /\
    (gtb r (gh_dropProbability this) = true ->
     net_sent e' = net_sent e ++ [packet] /\ out e' = out e) /\
    (gtb r (gh_dropProbability this) = false ->
     net_sent e' = net_sent e /\ out e' = out e ++ [LogPacketDropped id]) /\
    (gh_dropProbability this = one -> net_sent e' = net_sent e) /\
    (gh_dropProbability this = zero ->
     (0 < k -> net_sent e' = net_sent e ++ [packet]) /\
     (k = 0 -> net_sent e' = net_sent e)).
Proof.
  intros HM Hex Hk Hid k r.
  destruct (random_fraction_range _ _ HM Hex Hk) as (_ & _ & H1 & H0 & _).
  fold k in H0, H1. fold r in H0, H1.
  unfold Greyhole.ReceivePacket, Greyhole.forwards, GetId. cbn [rand].
  fold k. fold r. rewrite Hid.
  destruct (gtb r (gh_dropProbability this)) eqn:Hg; cbn [mbind option_bind].
  - eexists. split; [reflexivity|]. cbn [rand_calls net_sent out socket_Send log].
    split; [reflexivity|]. split; [auto|]. split; [discriminate|]. split.
    + intros Hp. rewrite Hp in Hg. congruence.
    + intros Hp. rewrite Hp in Hg. split; [reflexivity|].
      intros ->. rewrite Hg in H0. discriminate.
  - eexists. split; [reflexivity|]. cbn [rand_calls net_sent out socket_Send log].
    split; [reflexivity|]. split; [discriminate|]. split; [auto|]. split; [reflexivity|].
    intros Hp. rewrite Hp in Hg. split; [|reflexivity].
    intros Hpos. rewrite Hg in H0. symmetry in H0. apply Z.ltb_ge in H0. lia.
Qed.

Lemma greyhole_forwards_above_drop_probability_witness :
  exists e',
    Greyhole.ReceivePacket glibc_RAND_MAX (Some [])
      (Greyhole.Setup (Some 25) (literal 5 100) Greyhole.new)
      (initial_env (fun _ => 1000000000)) = Some e' /\
    net_sent e' = [[]].
Proof.
  destruct (greyhole_forwards_above_drop_probability glibc_RAND_MAX
              (Greyhole.Setup (Some 25) (literal 5 100) Greyhole.new)
              (initial_env (fun _ => 1000000000)) 25 [] eq_refl eq_refl)
    as (e' & H & _ & Hf & _).
  - simpl. unfold glibc_RAND_MAX. lia.
  - reflexivity.
  - exists e'. split; [exact H|]. apply Hf. reflexivity.
Defined.

(** C8 as stated fails: a greyhole set up with drop probability 0 drops
    the packet it receives when [rand()] returns 0. *)
Lemma greyhole_with_probability_zero_drops :
  exists e',
    Greyhole.ReceivePacket glibc_RAND_MAX (Some [])
      (Greyhole.Setup (Some 25) zero Greyhole.new) (initial_env rand_zero) = Some e' /\
    gh_dropProbability (Greyhole.Setup (Some 25) zero Greyhole.new) = zero /\
    net_sent e' = [] /\
    out e' = [LogPacketDropped 25].
Proof. eexists. split; [vm_compute; reflexivity|]. repeat split. Qed.

(** A watchdog of node 3 with reputation 0 processes a negative event:
    the reputation -1.0 is minus the threshold and the state printed is
    "no status"; a second negative event makes it -2.0 and the state
    "negative"; a positive event on reputation 0 makes the state
    "positive". *)
Lemma classification_bands_witness :
  (exists this' e',
      Watchdog.ProcessEvent NEGATIVE_STATUS
        (Watchdog.Setup (Some 3) (literal 5 10) Watchdog.new)
        (env (main_configured rand_zero)) = Some (this', e') /\
      m_reputation this' = of_Z (-1) /\
      List.filter is_state_line (out e') = [LogState 3 NO_STATUS]) /\
  (exists this' e',
      Watchdog.ProcessEvent NEGATIVE_STATUS
        (Watchdog.set_reputation (of_Z (-1))
           (Watchdog.Setup (Some 3) (literal 5 10) Watchdog.new))
        (env (main_configured rand_zero)) = Some (this', e') /\
      m_reputation this' = of_Z (-2) /\
      List.filter is_state_line (out e') = [LogState 3 NEGATIVE_STATUS]) /\
  (exists this' e',
      Watchdog.ProcessEvent POSITIVE_STATUS
        (Watchdog.Setup (Some 3) (literal 5 10) Watchdog.new)
        (env (main_configured rand_zero)) = Some (this', e') /\
      m_reputation this' = of_Z 1 /\
      List.filter is_state_line (out e') = [LogState 3 POSITIVE_STATUS]).
Proof.
  destruct (classification_bands glibc_RAND_MAX)
    as (_ & _ & _ & _ & _ & _ & _ & _ & H & _).
  assert (Hr : forall event,
             marks_decided event = true ->
             in_range 3 (nodesStatus (env (main_configured rand_zero))))
    by (intros; unfold in_range; simpl; lia).
  split; [|split].
  - exact (H NEGATIVE_STATUS (Watchdog.Setup (Some 3) (literal 5 10) Watchdog.new)
             (env (main_configured rand_zero)) 3 0 eq_refl (Hr _) eq_refl eq_refl
             eq_refl).
  - exact (H NEGATIVE_STATUS
             (Watchdog.set_reputation (of_Z (-1))
                (Watchdog.Setup (Some 3) (literal 5 10) Watchdog.new))
             (env (main_configured rand_zero)) 3 (-1) eq_refl (Hr _) eq_refl eq_refl
             eq_refl).
  - exact (H POSITIVE_STATUS (Watchdog.Setup (Some 3) (literal 5 10) Watchdog.new)
             (env (main_configured rand_zero)) 3 0 eq_refl (Hr _) eq_refl eq_refl
             eq_refl).
Defined.
(** ** Undefined behaviour of the watchdog's methods *)

Lemma in_range_dec id ns : {in_range id ns} + {~ in_range id ns}.
Proof.
  unfold in_range.
  destruct (Z_le_dec 0 id); [|right; lia].
  destruct (Z_lt_dec id (Z.of_nat (length ns))); [left|right]; lia.
Qed.



(** ** The convergence test *)

Lemma ProcessEvent_convergence_test event this e this' e' :
  Watchdog.ProcessEvent event this e = Some (this', e') ->
  allNodesConverged e = false ->
  (allNodesConverged e' = true <-> forall k, nodesStatus e' !! k <> Some false) /\
  (allNodesConverged e' = true ->
   convergenceTime e' = GetSeconds (sim_now e) /\
   last (out e') = Some (LogConverged (GetSeconds (sim_now e)))) /\
  (allNodesConverged e' = false ->
   convergenceTime e' = convergenceTime e /\
   convergence_writes (out e') = convergence_writes (out e)) /\
  (nodesStatus e = [] -> event = NO_STATUS /\ allNodesConverged e' = true).
Proof.
  intros H Hc. apply ProcessEvent_returns in H.
  destruct H as (id & Hid & Hr & Hthis & Hns & Hc' & Ht & Ho & _).
  rewrite Hc in Hc', Ht, Ho. cbn [orb negb] in *. rewrite andb_true_r in Ht, Ho.
  assert (Hall : Watchdog.allNodesHaveInfo (nodesStatus e') = true <->
                 forall k, nodesStatus e' !! k <> Some false).
  { rewrite allNodesHaveInfo_true. split.
    - intros Ha k Hk. specialize (Ha k false Hk). discriminate.
    - intros Ha k b Hk. destruct b; [reflexivity|]. exfalso. eapply Ha; eauto. }
  split; [|split; [|split]].
  - rewrite Hc'. exact Hall.
  - intros Htrue. rewrite Hc' in Htrue. rewrite Htrue in Ht, Ho.
    split; [exact Ht|]. rewrite Ho, !app_assoc. apply last_snoc.
  - intros Hfalse. rewrite Hc' in Hfalse. rewrite Hfalse in Ht, Ho.
    split; [exact Ht|]. rewrite Ho, app_nil_r, convergence_writes_app.
    destruct event; cbn; lia.
  - intros Hnil. rewrite Hnil in *.
    assert (Hev : event = NO_STATUS).
    { destruct event; [reflexivity| |];
        specialize (Hr eq_refl); unfold in_range in Hr; simpl in Hr; lia. }
    subst event. split; [reflexivity|]. rewrite Hc', Hns. reflexivity.
Qed.

(** X3. The convergence test of [ProcessEvent].  Called while
    [allNodesConverged] is false on a watchdog attached to a node (of
    [nodesStatus], when the event is positive or negative),
    [ProcessEvent] returns, has set the entry of the node if the event is
    positive or negative, and leaves [allNodesConverged] true exactly when
    no entry of [nodesStatus] is false any more; it has then stored the
    current time in [convergenceTime] and printed the convergence line
    last, and otherwise left [convergenceTime] alone and printed no such
    line.  The test is vacuous on an empty [nodesStatus]: there only an
    event without status can be processed, and it makes the network
    converge at once. *)
Theorem convergence_test_of_ProcessEvent event this e id :
  m_node this = Some id ->
  (marks_decided event = true -> in_range id (nodesStatus e)) ->
  allNodesConverged e = false ->
  exists this' e',
    Watchdog.ProcessEvent event this e = Some (this', e') /\
    nodesStatus e' =
      (if marks_decided event then <[Z.to_nat id := true]> (nodesStatus e)
       else nodesStatus e) /\
    (allNodesConverged e' = true <-> forall k, nodesStatus e' !! k <> Some false) /\
    (allNodesConverged e' = true ->
     convergenceTime e' = GetSeconds (sim_now e) /\
     last (out e') = Some (LogConverged (GetSeconds (sim_now e)))) /\
    (allNodesConverged e' = false ->
     convergenceTime e' = convergenceTime e /\
     convergence_writes (out e') = convergence_writes (out e)) /\
    (nodesStatus e = [] -> event = NO_STATUS /\ allNodesConverged e' = true).
Proof.
  intros Hid Hr Hc.
  destruct (ProcessEvent_defined event this e id Hid Hr) as (this' & e' & H).
  exists this', e'. split; [exact H|]. split.
  - apply ProcessEvent_returns in H.
    destruct H as (id' & Hid' & _ & _ & Hns & _).
    replace id with id' by congruence. exact Hns.
  - exact (ProcessEvent_convergence_test _ _ _ _ _ H Hc).
Qed.

(** A watchdog that processes an event without status before
    [nodesStatus] has been sized: the network converges at time 0. *)
Lemma convergence_test_of_ProcessEvent_witness :
  exists this' e',
    Watchdog.ProcessEvent NO_STATUS
      (Watchdog.Setup (Some 0) (literal 5 10) Watchdog.new)
      (initial_env rand_zero) = Some (this', e') /\
    allNodesConverged e' = true /\
    convergenceTime e' = GetSeconds 0.
Proof.
  destruct (convergence_test_of_ProcessEvent NO_STATUS
              (Watchdog.Setup (Some 0) (literal 5 10) Watchdog.new)
              (initial_env rand_zero) 0 eq_refl)
    as (this' & e' & H & _ & _ & Ht & _ & Hnil).
  - discriminate.
  - reflexivity.
  - exists this', e'. split; [exact H|].
    destruct (Hnil eq_refl) as [_ Hc]. split; [exact Hc|].
    exact (proj1 (Ht Hc)).
Defined.
(** ** One call of the running program, case by case *)

Lemma Watchdog_StartApplication_returns self this e this' e' :
  Watchdog.StartApplication self this e = Some (this', e') ->
  exists id,
    m_node this = Some id /\
    this' = Watchdog.set_event (Some (sim_uid e)) this /\
    e' = snd (Simulator_Schedule Seconds_1 self (log (LogWatchdogStart id) e)).
Proof.
  unfold Watchdog.StartApplication, GetId.
  destruct (m_node this) as [id|]; [|discriminate].
  simpl. intros [= <- <-]. eauto.
Qed.

Lemma Watchdog_StopApplication_returns this e this' e' :
  Watchdog.StopApplication this e = Some (this', e') ->
  exists id,
    m_node this = Some id /\
    this' = this /\
    e' = Simulator_Cancel (m_event this) (log (LogWatchdogStop id) e).
Proof.
  unfold Watchdog.StopApplication, GetId.
  destruct (m_node this) as [id|]; [|discriminate].
  simpl. intros [= <- <-]. eauto.
Qed.

Lemma Greyhole_StartApplication_returns this e this' e' :
  Greyhole.StartApplication this e = Some (this', e') ->
  exists id,
    gh_node this = Some id /\
    e' = log (LogGreyholeStart id) e /\
    gh_node this' = gh_node this /\
    gh_dropProbability this' = gh_dropProbability this /\
    gh_socket this' = match gh_socket this with Some s => Some s | None => Some 9 end.
Proof.
  unfold Greyhole.StartApplication, GetId.
  destruct (gh_node this) as [id|] eqn:Hid; [|discriminate]. simpl.
  destruct (gh_socket this) eqn:Hs; intros [= <- <-]; exists id; simpl;
    rewrite ?Hs, ?Hid; repeat split.
Qed.

Lemma Greyhole_StopApplication_returns this e this' e' :
  Greyhole.StopApplication this e = Some (this', e') ->
  exists id,
    gh_node this = Some id /\
    e' = log (LogGreyholeStop id) e /\
    gh_node this' = gh_node this /\
    gh_dropProbability this' = gh_dropProbability this /\
    gh_socket this' = None.
Proof.
  unfold Greyhole.StopApplication, GetId.
  destruct (gh_node this) as [id|] eqn:Hid; [|discriminate]. simpl.
  destruct (gh_socket this) eqn:Hs; intros [= <- <-]; exists id; simpl;
    rewrite ?Hs, ?Hid; repeat split.
Qed.

Lemma ReceivePacket_returns RAND_MAX received this e e' :
  Greyhole.ReceivePacket RAND_MAX received this e = Some e' ->
  match received with
  | None => e' = e
  | Some packet =>
      if Greyhole.forwards RAND_MAX this (rand_seq e (rand_calls e))
      then e' = socket_Send packet (snd (rand e))
      else exists id, gh_node this = Some id /\
                      e' = log (LogPacketDropped id) (snd (rand e))
  end.
Proof.
  unfold Greyhole.ReceivePacket, GetId. destruct received as [packet|].
  - cbn [rand]. destruct (Greyhole.forwards _ _ _).
    + intros [= <-]. reflexivity.
    + destruct (gh_node this) as [id|]; [|discriminate].
      simpl. intros [= <-]. eauto.
  - intros [= <-]. reflexivity.
Qed.

(** Case analysis of a call that returns: the objects it was made on and
    the method results are left as hypotheses. *)
Ltac invoke_inv H :=
  let c := match type of H with invoke _ ?c _ = _ => c end in
  destruct c; cbn [invoke] in H;
  repeat
    (match type of H with
     | context [next_event ?l] =>
         let E := fresh "Enext" in destruct (next_event l) eqn:E
     | context [Watchdog.MonitorNode ?R ?s ?a ?e] =>
         let E := fresh "Ecall" in
         destruct (Watchdog.MonitorNode R s a e) as [[? ?]|] eqn:E; [|discriminate H]
     | context [Watchdog.StartApplication ?s ?a ?e] =>
         let E := fresh "Ecall" in
         destruct (Watchdog.StartApplication s a e) as [[? ?]|] eqn:E; [|discriminate H]
     | context [Watchdog.StopApplication ?a ?e] =>
         let E := fresh "Ecall" in
         destruct (Watchdog.StopApplication a e) as [[? ?]|] eqn:E; [|discriminate H]
     | context [Greyhole.StartApplication ?a ?e] =>
         let E := fresh "Ecall" in
         destruct (Greyhole.StartApplication a e) as [[? ?]|] eqn:E; [|discriminate H]
     | context [Greyhole.StopApplication ?a ?e] =>
         let E := fresh "Ecall" in
         destruct (Greyhole.StopApplication a e) as [[? ?]|] eqn:E; [|discriminate H]
     | context [Greyhole.ReceivePacket ?R ?p ?a ?e] =>
         let E := fresh "Ecall" in
         destruct (Greyhole.ReceivePacket R p a e) eqn:E; [|discriminate H]
     | context [@lookup _ _ _ _ ?i ?l] =>
         let E := fresh "Eobj" in
         destruct (l !! i) eqn:E; [|discriminate H]
     end; cbn [mbind option_bind] in H);
  injection H as <-.

(** The globals a call leaves alone, unless it is the run of an event. *)
Lemma invoke_globals RAND_MAX c w w' :
  invoke RAND_MAX c w = Some w' ->
  (allNodesConverged (env w') = allNodesConverged (env w) /\
   nodesStatus (env w') = nodesStatus (env w) /\
   convergenceTime (env w') = convergenceTime (env w)) \/
  exists ev a b e0,
    watchdogs w !! ev_self ev = Some a /\
    allNodesConverged e0 = allNodesConverged (env w) /\
    nodesStatus e0 = nodesStatus (env w) /\
    convergenceTime e0 = convergenceTime (env w) /\
    Watchdog.MonitorNode RAND_MAX (ev_self ev) a e0 = Some (b, env w').
Proof.
  intros H. invoke_inv H; cbn [env]; auto.
  - apply Watchdog_StartApplication_returns in Ecall.
    destruct Ecall as (id & _ & _ & ->). left. auto.
  - apply Watchdog_StopApplication_returns in Ecall.
    destruct Ecall as (id & _ & _ & ->). left.
    unfold Simulator_Cancel. destruct (m_event _); auto.
  - apply Greyhole_StartApplication_returns in Ecall.
    destruct Ecall as (id & _ & -> & _). left. auto.
  - apply Greyhole_StopApplication_returns in Ecall.
    destruct Ecall as (id & _ & -> & _). left. auto.
  - apply ReceivePacket_returns in Ecall. left.
    destruct received as [packet|]; [|subst; auto].
    destruct (Greyhole.forwards _ _ _); [subst; auto|].
    destruct Ecall as (id & _ & ->). auto.
  - right. eexists _, _, _, _. split; [eassumption|].
    split; [|split; [|split; [|eassumption]]]; reflexivity.
Qed.

(** What a call of [MonitorNode] does to the three globals. *)
Lemma MonitorNode_globals RAND_MAX self this e this' e' :
  Watchdog.MonitorNode RAND_MAX self this e = Some (this', e') ->
  exists id,
    m_node this = Some id /\
    if Watchdog.terminated this e
    then nodesStatus e' = nodesStatus e /\
         allNodesConverged e' = allNodesConverged e /\
         convergenceTime e' = convergenceTime e /\
         m_reputation this' = m_reputation this /\
         m_monitorCount this' = m_monitorCount this /\
         m_node this' = m_node this
    else exists event,
         (marks_decided event = true -> in_range id (nodesStatus e)) /\
         nodesStatus e' =
           (if marks_decided event then <[Z.to_nat id := true]> (nodesStatus e)
            else nodesStatus e) /\
         allNodesConverged e' = Watchdog.allNodesHaveInfo (nodesStatus e') /\
         convergenceTime e' =
           (if Watchdog.allNodesHaveInfo (nodesStatus e')
            then GetSeconds (sim_now e) else convergenceTime e) /\
         m_reputation this' = reputation_after event (m_reputation this) /\
         m_monitorCount this' = uint32_incr (m_monitorCount this) /\
         m_node this' = m_node this.
Proof.
  intros H. apply MonitorNode_returns in H. destruct H as (id & Hid & H).
  exists id. split; [exact Hid|].
  destruct (Watchdog.terminated this e) eqn:Ht.
  - destruct H as [-> ->]. simpl. auto 10.
  - destruct H as (this1 & e1 & Hp & -> & ->).
    apply ProcessEvent_returns in Hp.
    destruct Hp as (id' & Hid' & Hr & -> & Hns & Hc & Htm & _).
    assert (id' = id) by congruence. subst id'.
    unfold Watchdog.terminated in Ht. apply orb_false_elim in Ht.
    destruct Ht as [_ Hconv]. simpl in Hr, Hns, Hc, Htm.
    rewrite Hconv in Hc, Htm. cbn [orb negb] in Hc, Htm. rewrite andb_true_r in Htm.
    eexists. split; [exact Hr|]. simpl. auto 10.
Qed.

(** ** [nodesStatus] over a run *)

Lemma status_kept_same e e' :
  allNodesConverged e' = allNodesConverged e ->
  nodesStatus e' = nodesStatus e ->
  status_kept e e'.
Proof. intros Hc Hn. unfold status_kept. rewrite Hc, Hn. auto. Qed.

Lemma status_kept_trans e1 e2 e3 :
  status_kept e1 e2 -> status_kept e2 e3 -> status_kept e1 e3.
Proof.
  intros (H1 & H2 & H3) (K1 & K2 & K3). unfold status_kept.
  split; [congruence|]. split; auto.
Qed.

Lemma MonitorNode_status_kept RAND_MAX self this e this' e' :
  Watchdog.MonitorNode RAND_MAX self this e = Some (this', e') ->
  status_kept e e'.
Proof.
  intros H. apply MonitorNode_globals in H. destruct H as (id & _ & H).
  destruct (Watchdog.terminated this e).
  - destruct H as (Hn & Hc & _). apply status_kept_same; assumption.
  - destruct H as (event & Hr & Hn & Hc & _). unfold status_kept.
    rewrite Hc, !Hn. destruct (marks_decided event); [|auto].
    rewrite length_insert. split; [reflexivity|]. split; [|auto].
    intros k Hk. destruct (decide (Z.to_nat id = k)) as [<-|Hne].
    + apply list_lookup_insert_eq. eapply lookup_lt_Some; eauto.
    + rewrite list_lookup_insert_ne by exact Hne. exact Hk.
Qed.

Lemma invoke_status_kept RAND_MAX c w w' :
  invoke RAND_MAX c w = Some w' -> status_kept (env w) (env w').
Proof.
  intros H. apply invoke_globals in H.
  destruct H as [(Hc & Hn & _)|(ev & a & b & e0 & _ & Hc & Hn & _ & H)].
  - apply status_kept_same; assumption.
  - apply MonitorNode_status_kept in H.
    eapply status_kept_trans; [|exact H].
    apply status_kept_same; assumption.
Qed.

Lemma run_calls_status_kept RAND_MAX cs : forall w w',
  run_calls RAND_MAX cs w = Some w' -> status_kept (env w) (env w').
Proof.
  induction cs as [|c cs IH]; intros w w' H; simpl in H.
  - injection H as <-. apply status_kept_same; reflexivity.
  - destruct (invoke RAND_MAX c w) as [w1|] eqn:E; [|discriminate]. simpl in H.
    eapply status_kept_trans; [eapply invoke_status_kept|]; eauto.
Qed.
Lemma allNodesHaveInfo_no_false ns :
  Watchdog.allNodesHaveInfo ns = true <-> forall k, ns !! k <> Some false.
Proof.
  rewrite allNodesHaveInfo_true. split.
  - intros Ha k Hk. specialize (Ha k false Hk). discriminate.
  - intros Ha k b Hk. destruct b; [reflexivity|]. exfalso. eapply Ha; eauto.
Qed.

(** X4. Over any sequence of calls [nodesStatus] keeps its size and an
    entry that is true stays true: nothing ever resets an entry, also
    not a reputation that falls back between the thresholds.  And when
    [allNodesConverged] is true only with no entry false at the start,
    as it is when the program starts, it is so at the end. *)
Theorem nodesStatus_entries_are_never_reset RAND_MAX cs w w' :
  run_calls RAND_MAX cs w = Some w' ->
  length (nodesStatus (env w')) = length (nodesStatus (env w)) /\
  (forall k, nodesStatus (env w) !! k = Some true ->
             nodesStatus (env w') !! k = Some true) /\
  ((allNodesConverged (env w) = true ->
    forall k, nodesStatus (env w) !! k <> Some false) ->
   allNodesConverged (env w') = true ->
   forall k, nodesStatus (env w') !! k <> Some false).
Proof.
  intros H. apply run_calls_status_kept in H. destruct H as (H1 & H2 & H3).
  split; [exact H1|]. split; [exact H2|].
  rewrite <- !allNodesHaveInfo_no_false. exact H3.
Qed.

(** The watchdog of node 0 in the configuration of [main], with a
    generator that yields positive evidence first and negative evidence
    afterwards: after the second round its reputation is 0 again, and
    the entry of node 0 is still true. *)
Lemma nodesStatus_entries_are_never_reset_witness :
  exists w1 w2,
    run_calls glibc_RAND_MAX (watchdog_0_runs 1)
      (main_configured (fun n => if (n =? 0)%nat then 0 else 1000000000)) = Some w1 /\
    run_calls glibc_RAND_MAX [RunEvent] w1 = Some w2 /\
    nodesStatus (env w1) !! 0%nat = Some true /\
    m_reputation <$> watchdogs w2 !! 0%nat = Some (of_Z 0) /\
    nodesStatus (env w2) !! 0%nat = Some true.
Proof.
  destruct (run_calls glibc_RAND_MAX (watchdog_0_runs 1)
              (main_configured (fun n => if (n =? 0)%nat then 0 else 1000000000)))
    as [w1|] eqn:E1; [|vm_compute in E1; discriminate E1].
  destruct (run_calls glibc_RAND_MAX [RunEvent] w1) as [w2|] eqn:E2.
  - exists w1, w2.
    assert (Hk : nodesStatus (env w1) !! 0%nat = Some true)
      by (vm_compute in E1; injection E1 as <-; reflexivity).
    assert (Hr : m_reputation <$> watchdogs w2 !! 0%nat = Some (of_Z 0))
      by (vm_compute in E1; injection E1 as <-; vm_compute in E2; injection E2 as <-;
          reflexivity).
    destruct (nodesStatus_entries_are_never_reset _ _ _ _ E2) as (_ & H & _).
    split; [reflexivity|]. split; [exact E2|]. split; [exact Hk|].
    split; [exact Hr|]. exact (H _ Hk).
  - exfalso. vm_compute in E1. injection E1 as <-. vm_compute in E2. discriminate E2.
Defined.

(** ** After convergence *)

Lemma lookup_insert_related {A} (R : A -> A -> Prop) (l : list A) i a b :
  (forall x, R x x) -> l !! i = Some a -> R a b ->
  forall j x, l !! j = Some x -> exists y, <[i := b]> l !! j = Some y /\ R x y.
Proof.
  intros Hrefl Ha Hab j x Hx. destruct (decide (i = j)) as [->|Hne].
  - rewrite list_lookup_insert_eq by (eapply lookup_lt_Some; eauto).
    exists b. split; [reflexivity|]. congruence.
  - rewrite list_lookup_insert_ne by exact Hne. eauto.
Qed.

Lemma invoke_converged RAND_MAX c w w' :
  invoke RAND_MAX c w = Some w' ->
  allNodesConverged (env w) = true ->
  allNodesConverged (env w') = true /\
  nodesStatus (env w') = nodesStatus (env w) /\
  convergenceTime (env w') = convergenceTime (env w) /\
  forall i a, watchdogs w !! i = Some a ->
    exists b, watchdogs w' !! i = Some b /\
              m_reputation b = m_reputation a /\
              m_monitorCount b = m_monitorCount a.
Proof.
  intros H Hc.
  set (R := fun a b : WatchdogNode =>
              m_reputation b = m_reputation a /\ m_monitorCount b = m_monitorCount a).
  assert (Hrefl : forall x, R x x) by (intros x; split; reflexivity).
  assert (Hsame : forall i a, watchdogs w !! i = Some a ->
                    exists b, watchdogs w !! i = Some b /\ R a b) by eauto.
  invoke_inv H; cbn [env watchdogs];
    try (apply Watchdog_StartApplication_returns in Ecall;
         destruct Ecall as (id & _ & -> & ->));
    try (apply Watchdog_StopApplication_returns in Ecall;
         destruct Ecall as (id & _ & -> & ->));
    try (apply Greyhole_StartApplication_returns in Ecall;
         destruct Ecall as (id & _ & -> & _));
    try (apply Greyhole_StopApplication_returns in Ecall;
         destruct Ecall as (id & _ & -> & _));
    try (apply MonitorNode_globals in Ecall; destruct Ecall as (id & _ & Hm);
         unfold Watchdog.terminated in Hm; simpl in Hm; rewrite Hc, orb_true_r in Hm;
         destruct Hm as (-> & -> & -> & Hr & Hn & _));
    try (apply ReceivePacket_returns in Ecall;
         destruct received as [packet|];
         [destruct (Greyhole.forwards _ _ _);
          [subst|destruct Ecall as (id & _ & ->)]|subst]);
    try match goal with
        | |- context [Simulator_Cancel ?x _] => destruct x; cbn [Simulator_Cancel]
        end;
    cbn [set_events set_now log socket_Send rand snd Simulator_Schedule
         allNodesConverged nodesStatus convergenceTime];
    (split; [first [assumption | reflexivity]|]; split; [reflexivity|];
     split; [reflexivity|]);
    try exact Hsame;
    try (eapply lookup_insert_related; [exact Hrefl|eassumption|];
         first [split; reflexivity | split; assumption]).
  intros i a Ha. exists a. split; [|apply Hrefl]. apply lookup_app_l_Some. exact Ha.
Qed.

(** X5. Once [allNodesConverged] is true the protocol is frozen: over
    any sequence of calls the flag, [convergenceTime] and [nodesStatus]
    stay as they are, and every watchdog keeps its reputation and its
    round count, since every call of [MonitorNode] is then the terminal
    one. *)
Theorem converged_network_runs_no_round RAND_MAX cs : forall w w',
  run_calls RAND_MAX cs w = Some w' ->
  allNodesConverged (env w) = true ->
  allNodesConverged (env w') = true /\
  nodesStatus (env w') = nodesStatus (env w) /\
  convergenceTime (env w') = convergenceTime (env w) /\
  forall i a, watchdogs w !! i = Some a ->
    exists b, watchdogs w' !! i = Some b /\
              m_reputation b = m_reputation a /\
              m_monitorCount b = m_monitorCount a.
Proof.
  induction cs as [|c cs IH]; intros w w' H Hc; simpl in H.
  - injection H as <-. eauto 10.
  - destruct (invoke RAND_MAX c w) as [w1|] eqn:E; [|discriminate]. simpl in H.
    destruct (invoke_converged _ _ _ _ E Hc) as (Hc1 & Hn1 & Ht1 & Hw1).
    destruct (IH _ _ H Hc1) as (Hc' & Hn' & Ht' & Hw').
    split; [exact Hc'|]. split; [congruence|]. split; [congruence|].
    intros i a Ha. destruct (Hw1 i a Ha) as (b1 & Hb1 & Hr1 & Hm1).
    destruct (Hw' i b1 Hb1) as (b & Hb & Hr & Hm).
    exists b. split; [exact Hb|]. split; congruence.
Qed.

(** The network of one node: it has converged after the first round of
    its watchdog; the event that round has scheduled and the stop of the
    application change nothing. *)
Lemma converged_network_runs_no_round_witness :
  exists w1 w2,
    run_calls glibc_RAND_MAX (single_node_calls 1) single_node_world = Some w1 /\
    run_calls glibc_RAND_MAX [RunEvent; WatchdogStop 0] w1 = Some w2 /\
    allNodesConverged (env w1) = true /\
    allNodesConverged (env w2) = true /\
    nodesStatus (env w2) = nodesStatus (env w1) /\
    convergenceTime (env w2) = convergenceTime (env w1).
Proof.
  destruct (run_calls glibc_RAND_MAX (single_node_calls 1) single_node_world)
    as [w1|] eqn:E1; [|vm_compute in E1; discriminate E1].
  destruct (run_calls glibc_RAND_MAX [RunEvent; WatchdogStop 0] w1) as [w2|] eqn:E2.
  - exists w1, w2.
    assert (Hc : allNodesConverged (env w1) = true)
      by (vm_compute in E1; injection E1 as <-; reflexivity).
    destruct (converged_network_runs_no_round _ _ _ _ E2 Hc) as (H1 & H2 & H3 & _).
    split; [reflexivity|]. split; [exact E2|]. auto.
  - exfalso. vm_compute in E1. injection E1 as <-. vm_compute in E2. discriminate E2.
Defined.

(** ** A node nobody watches *)

(** X6. An entry of [nodesStatus] is written only by a watchdog
    attached to its node.  If the entry of node [k] is false, the network
    has not converged and no watchdog is attached to node [k], then after
    any sequence of calls that attaches no watchdog ([Setup] apart,
    everything may be called and new objects created) the entry is still
    false, the network has not converged and [convergenceTime] has its
    old value. *)
Theorem unwatched_node_blocks_convergence RAND_MAX (k : nat) cs w w' :
  Forall (fun c => is_WatchdogSetup c = false) cs ->
  nodesStatus (env w) !! k = Some false ->
  allNodesConverged (env w) = false ->
  Forall (fun this => m_node this <> Some (Z.of_nat k)) (watchdogs w) ->
  run_calls RAND_MAX cs w = Some w' ->
  nodesStatus (env w') !! k = Some false /\
  allNodesConverged (env w') = false /\
  convergenceTime (env w') = convergenceTime (env w) /\
  Forall (fun this => m_node this <> Some (Z.of_nat k)) (watchdogs w').
Proof.
  intros Hcs Hk Hc Hall H.
  destruct (run_calls_blocked RAND_MAX k cs w w' Hcs (conj Hk (conj Hc Hall)) H)
    as [(Hk' & Hc' & Hall') Ht].
  auto.
Qed.

(** Node 24 in the configuration of [main], while the watchdog of node
    0 runs three rounds. *)
Lemma unwatched_node_blocks_convergence_witness :
  exists w,
    run_calls glibc_RAND_MAX (watchdog_0_runs 3) (main_configured rand_zero) = Some w /\
    nodesStatus (env w) !! 0%nat = Some true /\
    nodesStatus (env w) !! 24%nat = Some false /\
    allNodesConverged (env w) = false.
Proof.
  destruct (run_calls glibc_RAND_MAX (watchdog_0_runs 3) (main_configured rand_zero))
    as [w|] eqn:E; [|vm_compute in E; discriminate E].
  exists w. split; [reflexivity|].
  assert (H0 : nodesStatus (env w) !! 0%nat = Some true)
    by (vm_compute in E; injection E as <-; reflexivity).
  split; [exact H0|].
  assert (Hcs : Forall (fun c => is_WatchdogSetup c = false) (watchdog_0_runs 3))
    by (repeat constructor).
  assert (Hws : Forall (fun this => m_node this <> Some (Z.of_nat 24))
                       (watchdogs (main_configured rand_zero)))
    by (repeat (constructor; [discriminate|]); constructor).
  destruct (unwatched_node_blocks_convergence glibc_RAND_MAX 24 (watchdog_0_runs 3)
              (main_configured rand_zero) w Hcs eq_refl eq_refl Hws E)
    as (H1 & H2 & _).
  split; [exact H1|exact H2].
Defined.

(** ** Rounds and states *)

(** X7. The bands are not symmetric in the number of rounds they
    need: a watchdog that has run [n] rounds since it was constructed,
    whatever else was called on it, has positive status only if
    [n >= 1] and negative status only if [n >= 2]; one positive event
    reaches the threshold, one negative event does not go below minus
    the threshold. *)
Theorem status_needs_rounds RAND_MAX n this :
  object_steps RAND_MAX Watchdog.new n this ->
  (Watchdog.classify (m_reputation this) (m_threshold this) = POSITIVE_STATUS ->
   (1 <= n)%nat) /\
  (Watchdog.classify (m_reputation this) (m_threshold this) = NEGATIVE_STATUS ->
   (2 <= n)%nat).
Proof.
  intros H.
  pose proof (object_steps_count _ _ _ _ H) as Hc.
  destruct Hc as [Hc Hle]; [simpl; unfold m_maxMonitorCount; lia|].
  simpl in Hc. unfold m_maxMonitorCount in Hle.
  destruct (object_steps_reputation _ _ _ _ H 0 eq_refl) as (z & Hz & Hd);
    [simpl; lia|].
  apply object_steps_untouched in H. destruct H as (_ & _ & ->).
  rewrite Hz. change (m_threshold Watchdog.new) with one.
  rewrite classify_of_Z by (unfold exact_int, prec; lia).
  unfold band.
  destruct (Z.leb_spec 1 z); [split; [lia|discriminate]|].
  destruct (Z.ltb_spec z (-1)); split; try discriminate; lia.
Qed.

(** The first round of a watchdog, with a sample that yields negative
    evidence: the reputation is -1.0 and the status is not negative. *)
Lemma status_needs_rounds_witness :
  exists this e',
    Watchdog.MonitorNode glibc_RAND_MAX 0
      (Watchdog.Setup (Some 0) (literal 5 10) Watchdog.new)
      (env (main_configured (fun _ => 1000000000))) = Some (this, e') /\
    m_reputation this = of_Z (-1) /\
    Watchdog.classify (m_reputation this) (m_threshold this) <> NEGATIVE_STATUS.
Proof.
  destruct (Watchdog.MonitorNode glibc_RAND_MAX 0
              (Watchdog.Setup (Some 0) (literal 5 10) Watchdog.new)
              (env (main_configured (fun _ => 1000000000))))
    as [[this e']|] eqn:E; [|vm_compute in E; discriminate E].
  exists this, e'. split; [reflexivity|].
  assert (Hr : m_reputation this = of_Z (-1))
    by (vm_compute in E; injection E as <- _; reflexivity).
  split; [exact Hr|].
  pose proof (status_needs_rounds glibc_RAND_MAX _ this
                (steps_step glibc_RAND_MAX Watchdog.new false _ _ _
                   (step_Setup glibc_RAND_MAX Watchdog.new (Some 0) (literal 5 10))
                   (steps_step glibc_RAND_MAX _ _ _ _ _
                      (step_Monitor glibc_RAND_MAX _ _ _ _ _ E)
                      (steps_refl glibc_RAND_MAX this)))) as [_ H].
  intros Hneg. specialize (H Hneg).
  change (Watchdog.terminated _ _) with false in H. simpl in H. lia.
Defined.
(** ** The calls of [rand()] *)

Lemma rounds_logged_app a b :
  rounds_logged (a ++ b) = (rounds_logged a + rounds_logged b)%nat.
Proof. unfold rounds_logged. rewrite List.filter_app, length_app. reflexivity. Qed.

Lemma draws_refl e : draws 0 e e.
Proof.
  split; [reflexivity|]. exists []. rewrite app_nil_r. split; [reflexivity|].
  unfold rounds_logged. simpl. lia.
Qed.

Lemma draws_trans n1 n2 e1 e2 e3 :
  draws n1 e1 e2 -> draws n2 e2 e3 -> draws (n1 + n2) e1 e3.
Proof.
  intros (Hs1 & a & Ha & Hn1) (Hs2 & b & Hb & Hn2).
  split; [congruence|]. exists (a ++ b). split.
  - rewrite Hb, Ha, app_assoc. reflexivity.
  - rewrite rounds_logged_app. lia.
Qed.

Lemma draws_simple n e e' added :
  rand_seq e' = rand_seq e ->
  out e' = out e ++ added ->
  rounds_logged added = 0%nat ->
  rand_calls e' = (rand_calls e + n)%nat ->
  draws n e e'.
Proof. intros Hs Ho Hr Hn. split; [exact Hs|]. exists added. split; [exact Ho|]. lia. Qed.

Lemma MonitorNode_draws RAND_MAX self this e this' e' :
  Watchdog.MonitorNode RAND_MAX self this e = Some (this', e') ->
  draws 0 e e'.
Proof.
  intros H. apply MonitorNode_returns in H. destruct H as (id & _ & H).
  destruct (Watchdog.terminated this e).
  - destruct H as [_ ->].
    apply (draws_simple _ _ _ [LogTerminated id; LogLossRate id (loss_rate this)]);
      simpl; rewrite <- ?app_assoc, ?Nat.add_0_r; reflexivity.
  - destruct H as (this1 & e1 & Hp & _ & ->).
    apply ProcessEvent_returns in Hp.
    destruct Hp as (id' & _ & _ & _ & _ & _ & _ & Ho & _ & _ & _ & Hs & Hn & _).
    simpl in Ho, Hs, Hn. split; [exact Hs|]. simpl.
    rewrite <- app_assoc in Ho.
    eexists. split; [exact Ho|].
    rewrite Hn, !rounds_logged_app.
    set (event := Watchdog.evidence _).
    assert (H1 : rounds_logged [LogMonitoring id] = 1%nat) by reflexivity.
    assert (H2 : forall r s (c : bool) t,
               rounds_logged (event_line event id' r :: LogState id' s ::
                              (if c then [LogConverged t] else [])) = 0%nat)
      by (intros ? ? [|] ?; destruct event; reflexivity).
    rewrite H1, H2. lia.
Qed.

Lemma invoke_draws RAND_MAX c w w' :
  invoke RAND_MAX c w = Some w' ->
  draws (if delivers_packet c then 1 else 0) (env w) (env w').
Proof.
  intros H.
  invoke_inv H; cbn [env delivers_packet];
    try (apply Watchdog_StartApplication_returns in Ecall;
         destruct Ecall as (id & _ & -> & ->));
    try (apply Watchdog_StopApplication_returns in Ecall;
         destruct Ecall as (id & _ & -> & ->));
    try (apply Greyhole_StartApplication_returns in Ecall;
         destruct Ecall as (id & _ & -> & _));
    try (apply Greyhole_StopApplication_returns in Ecall;
         destruct Ecall as (id & _ & -> & _));
    try apply draws_refl.
  - apply (draws_simple _ _ _ [LogWatchdogStart id]); simpl; rewrite ?Nat.add_0_r; reflexivity.
  - match goal with |- context [Simulator_Cancel ?x _] => destruct x end;
      apply (draws_simple _ _ _ [LogWatchdogStop id]);
      simpl; rewrite ?Nat.add_0_r; reflexivity.
  - apply (draws_simple _ _ _ [LogGreyholeStart id]); simpl; rewrite ?Nat.add_0_r; reflexivity.
  - apply (draws_simple _ _ _ [LogGreyholeStop id]); simpl; rewrite ?Nat.add_0_r; reflexivity.
  - apply ReceivePacket_returns in Ecall.
    destruct received as [packet|]; [|subst; apply draws_refl].
    destruct (Greyhole.forwards _ _ _); [subst|destruct Ecall as (id & _ & ->)].
    + apply (draws_simple _ _ _ []); simpl; rewrite ?app_nil_r, ?Nat.add_1_r; reflexivity.
    + apply (draws_simple _ _ _ [LogPacketDropped id]); simpl; rewrite ?Nat.add_1_r; reflexivity.
  - apply (draws_simple _ _ _ []); simpl; rewrite ?app_nil_r, ?Nat.add_0_r; reflexivity.
  - apply MonitorNode_draws in Ecall.
    apply (draws_trans 0 0 _ _ _) with (2 := Ecall).
    apply (draws_simple _ _ _ []); simpl; rewrite ?app_nil_r, ?Nat.add_0_r; reflexivity.
Qed.

(** X8. [rand()] is called once in each monitoring round and once for
    each packet a greyhole receives, and nowhere else: over any sequence
    of calls the generator is the same, and the number of its calls has
    grown by the number of rounds the log reports (each round starts with
    the line "monitoring neighbors") plus the number of packets
    delivered to greyhole sockets.  The watchdogs and the greyholes
    share the one generator, so that a packet at a greyhole shifts the
    samples of all later rounds. *)
Theorem rand_called_once_per_round_and_packet RAND_MAX cs : forall w w',
  run_calls RAND_MAX cs w = Some w' ->
  rand_seq (env w') = rand_seq (env w) /\
  exists added,
    out (env w') = out (env w) ++ added /\
    rand_calls (env w') =
      (rand_calls (env w) + rounds_logged added + packets_delivered cs)%nat.
Proof.
  change (forall w w', run_calls RAND_MAX cs w = Some w' ->
                       draws (packets_delivered cs) (env w) (env w')).
  induction cs as [|c cs IH]; intros w w' H; simpl in H.
  - injection H as <-. apply draws_refl.
  - destruct (invoke RAND_MAX c w) as [w1|] eqn:E; [|discriminate]. simpl in H.
    replace (packets_delivered (c :: cs))
      with ((if delivers_packet c then 1 else 0) + packets_delivered cs)%nat
      by (unfold packets_delivered; simpl; destruct (delivers_packet c); reflexivity).
    eapply draws_trans; [eapply invoke_draws|]; eauto.
Qed.

(** The configuration of [main]: two rounds of the watchdog of node 0,
    a packet at the greyhole, a third round. *)
Lemma rand_called_once_per_round_and_packet_witness :
  exists w,
    run_calls glibc_RAND_MAX
      (watchdog_0_runs 2 ++ [GreyholeReceive 0 (Some []); RunEvent])
      (main_configured rand_zero) = Some w /\
    rounds_logged (out (env w)) = 3%nat /\
    rand_calls (env w) = 4%nat.
Proof.
  destruct (run_calls glibc_RAND_MAX
              (watchdog_0_runs 2 ++ [GreyholeReceive 0 (Some []); RunEvent])
              (main_configured rand_zero))
    as [w|] eqn:E; [|vm_compute in E; discriminate E].
  exists w. split; [reflexivity|].
  assert (Hr : rounds_logged (out (env w)) = 3%nat)
    by (vm_compute in E; injection E as <-; reflexivity).
  split; [exact Hr|].
  destruct (rand_called_once_per_round_and_packet _ _ _ _ E)
    as (_ & added & Ho & Hn).
  change (out (env (main_configured rand_zero))) with (@nil LogLine) in Ho.
  rewrite app_nil_l in Ho. rewrite <- Ho, Hr in Hn. exact Hn.
Defined.
(** ** The member [m_gamma] *)

Lemma same_but_gamma_set g a : same_but_gamma a (set_gamma g a).
Proof. reflexivity. Qed.

Lemma same_but_gamma_refl a : same_but_gamma a a.
Proof. destruct a. reflexivity. Qed.

Lemma ProcessEvent_set_gamma g event a e :
  Watchdog.ProcessEvent event (set_gamma g a) e =
  match Watchdog.ProcessEvent event a e with
  | Some (b, e') => Some (set_gamma g b, e')
  | None => None
  end.
Proof.
  unfold Watchdog.ProcessEvent, GetId. cbn [set_gamma m_node].
  destruct (m_node a) as [id|]; [|reflexivity]. cbn [mbind option_bind].
  destruct event; cbn [log nodesStatus mbind option_bind];
    try (destruct (vector_set (nodesStatus e) id true) as [ns|]; [|reflexivity]);
    simpl; destruct (Watchdog.allNodesHaveInfo _ && negb (allNodesConverged e));
    reflexivity.
Qed.

Lemma MonitorNode_set_gamma RAND_MAX g self a e :
  Watchdog.MonitorNode RAND_MAX self (set_gamma g a) e =
  match Watchdog.MonitorNode RAND_MAX self a e with
  | Some (b, e') => Some (set_gamma g b, e')
  | None => None
  end.
Proof.
  unfold Watchdog.MonitorNode, GetId. cbn [set_gamma m_node].
  destruct (m_node a) as [id|]; [|reflexivity]. cbn [mbind option_bind].
  change (Watchdog.terminated (set_gamma g a) e) with (Watchdog.terminated a e).
  destruct (Watchdog.terminated a e); [reflexivity|].
  cbn [rand]. rewrite ProcessEvent_set_gamma.
  destruct (Watchdog.ProcessEvent _ a _) as [[b e']|]; reflexivity.
Qed.

Lemma StartApplication_set_gamma g self a e :
  Watchdog.StartApplication self (set_gamma g a) e =
  match Watchdog.StartApplication self a e with
  | Some (b, e') => Some (set_gamma g b, e')
  | None => None
  end.
Proof.
  unfold Watchdog.StartApplication, GetId. cbn [set_gamma m_node].
  destruct (m_node a); reflexivity.
Qed.

Lemma StopApplication_set_gamma g a e :
  Watchdog.StopApplication (set_gamma g a) e =
  match Watchdog.StopApplication a e with
  | Some (b, e') => Some (set_gamma g b, e')
  | None => None
  end.
Proof.
  unfold Watchdog.StopApplication, GetId. cbn [set_gamma m_node].
  destruct (m_node a); reflexivity.
Qed.

Lemma invoke_same_but_gamma RAND_MAX c1 c2 w1 w2 :
  same_call_but_gamma c1 c2 ->
  same_world_but_gamma w1 w2 ->
  same_result_but_gamma (invoke RAND_MAX c1 w1) (invoke RAND_MAX c2 w2).
Proof.
  intros Hc (Hw & Hg & He).
  assert (Hlook : forall i,
             (watchdogs w1 !! i = None /\ watchdogs w2 !! i = None) \/
             exists a g, watchdogs w1 !! i = Some a /\
                         watchdogs w2 !! i = Some (set_gamma g a)).
  { intros i. pose proof (proj1 (Forall2_lookup _ _ _) Hw i) as Hi.
    inversion Hi as [a b Hab|]; [right|left; auto].
    exists a, (m_gamma b). rewrite <- Hab. auto. }
  assert (Hins : forall i a b, same_but_gamma a b ->
             Forall2 same_but_gamma (<[i := a]> (watchdogs w1)) (<[i := b]> (watchdogs w2)))
    by (intros; apply Forall2_insert; assumption).
  assert (Hfin : forall ws1 ws2 gs e0,
             Forall2 same_but_gamma ws1 ws2 ->
             same_world_but_gamma {| watchdogs := ws1; greyholes := gs; env := e0 |}
                                  {| watchdogs := ws2; greyholes := gs; env := e0 |})
    by (intros; split; [assumption|split; reflexivity]).
  unfold same_result_but_gamma.
  destruct c1, c2; simpl in Hc; try discriminate Hc;
    try match type of Hc with _ /\ _ => destruct Hc as [<- <-] end;
    simplify_eq; cbn [invoke]; rewrite <- ?Hg, <- ?He.
  - apply Hfin. apply Forall2_app; [assumption|].
    constructor; [apply same_but_gamma_refl|constructor].
  - match goal with |- context [watchdogs w1 !! ?i] =>
      destruct (Hlook i) as [[-> ->]|(a & g & -> & ->)]; [exact I|] end.
    cbn [mbind option_bind]. apply Hfin, Hins. reflexivity.
  - match goal with |- context [watchdogs w1 !! ?i] =>
      destruct (Hlook i) as [[-> ->]|(a & g & -> & ->)]; [exact I|] end.
    cbn [mbind option_bind]. rewrite StartApplication_set_gamma.
    destruct (Watchdog.StartApplication _ a (env w1)) as [[b e']|]; [|exact I].
    cbn [mbind option_bind]. apply Hfin, Hins. reflexivity.
  - match goal with |- context [watchdogs w1 !! ?i] =>
      destruct (Hlook i) as [[-> ->]|(a & g & -> & ->)]; [exact I|] end.
    cbn [mbind option_bind]. rewrite StopApplication_set_gamma.
    destruct (Watchdog.StopApplication a (env w1)) as [[b e']|]; [|exact I].
    cbn [mbind option_bind]. apply Hfin, Hins. reflexivity.
  - apply Hfin. assumption.
  - match goal with |- context [greyholes w1 !! ?i] =>
      destruct (greyholes w1 !! i) as [gh|]; [|exact I] end.
    cbn [mbind option_bind]. apply Hfin. assumption.
  - match goal with |- context [greyholes w1 !! ?i] =>
      destruct (greyholes w1 !! i) as [gh|]; [|exact I] end. cbn [mbind option_bind].
    destruct (Greyhole.StartApplication gh (env w1)) as [[b e']|]; [|exact I].
    cbn [mbind option_bind]. apply Hfin. assumption.
  - match goal with |- context [greyholes w1 !! ?i] =>
      destruct (greyholes w1 !! i) as [gh|]; [|exact I] end. cbn [mbind option_bind].
    destruct (Greyhole.StopApplication gh (env w1)) as [[b e']|]; [|exact I].
    cbn [mbind option_bind]. apply Hfin. assumption.
  - match goal with |- context [greyholes w1 !! ?i] =>
      destruct (greyholes w1 !! i) as [gh|]; [|exact I] end. cbn [mbind option_bind].
    destruct (Greyhole.ReceivePacket RAND_MAX _ gh (env w1)) as [e'|]; [|exact I].
    cbn [mbind option_bind]. apply Hfin. assumption.
  - apply Hfin. assumption.
  - destruct (next_event (sim_events (env w1))) as [ev|].
    + destruct (Hlook (ev_self ev)) as [[-> ->]|(a & g & -> & ->)]; [exact I|].
      cbn [mbind option_bind]. rewrite MonitorNode_set_gamma.
      destruct (Watchdog.MonitorNode RAND_MAX (ev_self ev) a _) as [[b e']|]; [|exact I].
      cbn [mbind option_bind]. apply Hfin, Hins. reflexivity.
    + split; [|split]; assumption.
Qed.

(** X9. The member [m_gamma] is stored by [Setup] and read by nothing:
    two runs of the same calls on the same objects that differ only in
    the values of [gamma], those the watchdogs hold and those passed to
    [Setup], are undefined together or return worlds that again differ
    only in [gamma]; the log, the reputations, [nodesStatus], the
    convergence variables, the timers and the calls of [rand()] are the
    same. *)
Theorem gamma_is_never_read RAND_MAX cs1 : forall cs2 w1 w2,
  Forall2 same_call_but_gamma cs1 cs2 ->
  same_world_but_gamma w1 w2 ->
  same_result_but_gamma (run_calls RAND_MAX cs1 w1) (run_calls RAND_MAX cs2 w2).
Proof.
  induction cs1 as [|c1 cs1 IH]; intros cs2 w1 w2 Hcs Hw;
    inversion Hcs as [|? c2 ? cs2' Hc Hcs']; subst; cbn [run_calls].
  - exact Hw.
  - pose proof (invoke_same_but_gamma RAND_MAX c1 c2 w1 w2 Hc Hw) as H.
    destruct (invoke RAND_MAX c1 w1) as [w1'|], (invoke RAND_MAX c2 w2) as [w2'|];
      cbn [mbind option_bind]; try contradiction; [|exact I].
    apply IH; assumption.
Qed.

(** A watchdog created on node 24 of the configuration of [main], once
    with [gamma] 0.5 and once with [gamma] 7, started and run for two
    rounds: the two runs leave the same environment. *)
Lemma gamma_is_never_read_witness :
  exists w1 w2,
    run_calls glibc_RAND_MAX
      [NewWatchdog; WatchdogSetup 24 (Some 24) (literal 5 10); AdvanceTo Seconds_1;
       WatchdogStart 24; RunEvent; RunEvent]
      (main_configured rand_zero) = Some w1 /\
    run_calls glibc_RAND_MAX
      [NewWatchdog; WatchdogSetup 24 (Some 24) (of_Z 7); AdvanceTo Seconds_1;
       WatchdogStart 24; RunEvent; RunEvent]
      (main_configured rand_zero) = Some w2 /\
    env w1 = env w2 /\
    m_reputation <$> watchdogs w1 !! 24%nat = m_reputation <$> watchdogs w2 !! 24%nat.
Proof.
  pose proof (gamma_is_never_read glibc_RAND_MAX
                [NewWatchdog; WatchdogSetup 24 (Some 24) (literal 5 10);
                 AdvanceTo Seconds_1; WatchdogStart 24; RunEvent; RunEvent]
                [NewWatchdog; WatchdogSetup 24 (Some 24) (of_Z 7);
                 AdvanceTo Seconds_1; WatchdogStart 24; RunEvent; RunEvent]
                (main_configured rand_zero) (main_configured rand_zero)) as H.
  destruct (run_calls glibc_RAND_MAX
              [NewWatchdog; WatchdogSetup 24 (Some 24) (literal 5 10);
               AdvanceTo Seconds_1; WatchdogStart 24; RunEvent; RunEvent]
              (main_configured rand_zero))
    as [w1|] eqn:E1; [|vm_compute in E1; discriminate E1].
  destruct (run_calls glibc_RAND_MAX
              [NewWatchdog; WatchdogSetup 24 (Some 24) (of_Z 7);
               AdvanceTo Seconds_1; WatchdogStart 24; RunEvent; RunEvent]
              (main_configured rand_zero))
    as [w2|] eqn:E2; [|vm_compute in E2; discriminate E2].
  exists w1, w2. split; [reflexivity|]. split; [reflexivity|].
  destruct H as (Hw & _ & He).
  - repeat (constructor; [first [reflexivity | split; reflexivity]|]). constructor.
  - split; [|split; reflexivity].
    apply Forall_Forall2_diag, Forall_forall. intros a _. apply same_but_gamma_refl.
  - split; [exact He|].
    pose proof (proj1 (Forall2_lookup _ _ _) Hw 24%nat) as Hi.
    inversion Hi as [a b Hab|]; [|reflexivity].
    cbn [fmap option_fmap option_map]. rewrite Hab. reflexivity.
Defined.
(** ** The timer of a watchdog *)

Lemma filter_uid_fresh u evs :
  Forall (fun ev => ev_uid ev < u) evs ->
  List.filter (fun ev => negb (ev_uid ev =? u)) evs = evs.
Proof.
  induction 1 as [|ev evs Hev _ IH]; [reflexivity|].
  simpl. replace (ev_uid ev =? u) with false by (symmetry; apply Z.eqb_neq; lia).
  simpl. rewrite IH. reflexivity.
Qed.

Lemma Watchdog_StartApplication_attached self this e id :
  m_node this = Some id ->
  Watchdog.StartApplication self this e =
  Some (Watchdog.set_event (Some (sim_uid e)) this,
        set_events (sim_uid e + 1)
          (sim_events e ++
           [{| ev_ts := sim_now e + Seconds_1; ev_uid := sim_uid e; ev_self := self |}])
          (log (LogWatchdogStart id) e)).
Proof. intros Hid. unfold Watchdog.StartApplication, GetId. rewrite Hid. reflexivity. Qed.

Lemma Watchdog_StopApplication_attached this e id :
  m_node this = Some id ->
  Watchdog.StopApplication this e =
  Some (this, Simulator_Cancel (m_event this) (log (LogWatchdogStop id) e)).
Proof. intros Hid. unfold Watchdog.StopApplication, GetId. rewrite Hid. reflexivity. Qed.

(** X10. [StopApplication] cancels the event whose handle is in
    [m_event], and [StartApplication] overwrites that handle.  On an
    attached watchdog, with a queue whose events are older than the next
    uid: stopping a watchdog that was never started leaves the queue
    alone; starting it queues one call of [MonitorNode] at now + 1 s, and
    stopping it then restores the queue; but started twice and stopped
    once, the timer of the first start stays in the queue and is going
    to fire. *)
Theorem StopApplication_cancels_the_last_timer self this e id :
  m_node this = Some id ->
  Forall (fun ev => ev_uid ev < sim_uid e) (sim_events e) ->
  let timer := {| ev_ts := sim_now e + Seconds_1; ev_uid := sim_uid e; ev_self := self |} in
  (m_event this = None ->
   exists e0, Watchdog.StopApplication this e = Some (this, e0) /\
              sim_events e0 = sim_events e) /\
  exists this1 e1 e2 this2 e3 e4,
    Watchdog.StartApplication self this e = Some (this1, e1) /\
    m_event this1 = Some (sim_uid e) /\
    sim_events e1 = sim_events e ++ [timer] /\
    Watchdog.StopApplication this1 e1 = Some (this1, e2) /\
    sim_events e2 = sim_events e /\
    Watchdog.StartApplication self this1 e1 = Some (this2, e3) /\
    Watchdog.StopApplication this2 e3 = Some (this2, e4) /\
    sim_events e4 = sim_events e ++ [timer].
Proof.
  intros Hid Hfresh timer. split.
  - intros Hev. rewrite (Watchdog_StopApplication_attached _ _ _ Hid), Hev.
    eexists. split; reflexivity.
  - eexists _, _, _, _, _, _.
    split; [apply (Watchdog_StartApplication_attached _ _ _ _ Hid)|].
    split; [reflexivity|]. split; [reflexivity|].
    split; [apply (Watchdog_StopApplication_attached _ _ id); exact Hid|]. split.
    { cbn [Simulator_Cancel Watchdog.set_event m_event sim_events sim_uid set_events log].
      rewrite List.filter_app, filter_uid_fresh by exact Hfresh.
      cbn [List.filter ev_uid]. rewrite Z.eqb_refl. apply app_nil_r. }
    split; [apply (Watchdog_StartApplication_attached _ _ _ id); exact Hid|].
    split; [apply (Watchdog_StopApplication_attached _ _ id); exact Hid|].
    cbn [Simulator_Cancel Watchdog.set_event m_event sim_events sim_uid set_events log
         sim_now].
    rewrite !List.filter_app, filter_uid_fresh.
    + cbn [List.filter ev_uid]. rewrite Z.eqb_refl.
      replace (sim_uid e =? sim_uid e + 1) with false by (symmetry; apply Z.eqb_neq; lia).
      cbn [negb]. rewrite app_nil_r. reflexivity.
    + eapply Forall_impl; [exact Hfresh|]. simpl. intros; lia.
Qed.


Lemma StopApplication_cancels_the_last_timer_witness :
  exists this1 e1 e2 this2 e3 e4,
    Watchdog.StartApplication 0
      (Watchdog.Setup (Some 0) (literal 5 10) Watchdog.new)
      (initial_env rand_zero) = Some (this1, e1) /\
    Watchdog.StopApplication this1 e1 = Some (this1, e2) /\
    sim_events e2 = [] /\
    Watchdog.StartApplication 0 this1 e1 = Some (this2, e3) /\
    Watchdog.StopApplication this2 e3 = Some (this2, e4) /\
    sim_events e4 = [{| ev_ts := Seconds_1; ev_uid := 0; ev_self := 0 |}].
Proof.
  destruct (StopApplication_cancels_the_last_timer 0
              (Watchdog.Setup (Some 0) (literal 5 10) Watchdog.new)
              (initial_env rand_zero) 0 eq_refl (List.Forall_nil _))
    as (_ & this1 & e1 & e2 & this2 & e3 & e4 & H1 & _ & _ & H2 & H3 & H4 & H5 & H6).
  exists this1, e1, e2, this2, e3, e4. auto 10.
Defined.
(** ** The socket of the greyhole *)

(** X11. Starting and stopping the greyhole.  Both methods
    dereference [m_node] for the line they print and are undefined on a
    greyhole that was never set up, and only then.  [StartApplication]
    leaves the greyhole with a socket; on a greyhole that has one it
    creates no second one and changes nothing; started again the object
    stays as it is, and stopped it has no socket, and is the object it
    was before the start if that had none.  [StopApplication] leaves
    the greyhole without socket, changes nothing on a greyhole that has
    none, and may be repeated. *)
Theorem greyhole_socket_lifecycle this e :
  (Greyhole.StartApplication this e = None <-> gh_node this = None) /\
  (Greyhole.StopApplication this e = None <-> gh_node this = None) /\
  (forall this1 e1,
      Greyhole.StartApplication this e = Some (this1, e1) ->
      gh_socket this1 <> None /\
      (gh_socket this <> None -> this1 = this) /\
      (forall e', exists e2, Greyhole.StartApplication this1 e' = Some (this1, e2)) /\
      (forall e', exists this2 e2,
          Greyhole.StopApplication this1 e' = Some (this2, e2) /\
          gh_socket this2 = None /\
          (gh_socket this = None -> this2 = this))) /\
  (forall this1 e1,
      Greyhole.StopApplication this e = Some (this1, e1) ->
      gh_socket this1 = None /\
      (gh_socket this = None -> this1 = this) /\
      (forall e', exists e2, Greyhole.StopApplication this1 e' = Some (this1, e2))).
Proof.
  unfold Greyhole.StartApplication, Greyhole.StopApplication, GetId.
  destruct this as [sock node p]. cbn [gh_node gh_socket gh_dropProbability].
  destruct node as [id|]; cbn [mbind option_bind].
  - split; [destruct sock; split; discriminate|].
    split; [destruct sock; split; discriminate|]. split.
    + intros this1 e1 H.
      destruct sock as [s|]; injection H as <- <-;
        cbn [gh_node gh_socket gh_dropProbability mbind option_bind];
        (split; [discriminate|]); (split; [try reflexivity; intros []; reflexivity|]);
        (split; [eauto|]); intros e'; eexists _, _; (split; [reflexivity|]);
        (split; [reflexivity|]); try reflexivity; discriminate.
    + intros this1 e1 H.
      destruct sock as [s|]; injection H as <- <-;
        cbn [gh_node gh_socket gh_dropProbability mbind option_bind];
        (split; [reflexivity|]); (split; [try reflexivity; discriminate|]); eauto.
  - split; [split; reflexivity|]. split; [split; reflexivity|].
    split; discriminate.
Qed.

(** ** Packets at the greyhole: the edges *)

(** X12. The edges of [ReceivePacket], for [rand()] within its range.
    When the socket hands out no packet nothing happens, and [rand()] is
    not called.  A negative drop probability forwards every packet, also
    at [rand()] = 0; a drop probability of 1 or more, and one that is
    NaN, drop every packet.  On a greyhole without a node the packets
    that are forwarded are forwarded, and the first one that is to be
    dropped is undefined behaviour (the line it prints dereferences
    [m_node]). *)
Theorem ReceivePacket_edge_cases RAND_MAX this e packet :
  0 < RAND_MAX -> exact_int RAND_MAX ->
  0 <= rand_seq e (rand_calls e) <= RAND_MAX ->
  let p := gh_dropProbability this in
  let k := rand_seq e (rand_calls e) in
  let dropped :=
    id ← GetId (gh_node this); Some (log (LogPacketDropped id) (snd (rand e))) in
  Greyhole.ReceivePacket RAND_MAX None this e = Some e /\
  (ltb p zero = true ->
   Greyhole.ReceivePacket RAND_MAX (Some packet) this e =
   Some (socket_Send packet (snd (rand e)))) /\
  (leb one p = true ->
   Greyhole.ReceivePacket RAND_MAX (Some packet) this e = dropped) /\
  (is_nan p = true ->
   Greyhole.ReceivePacket RAND_MAX (Some packet) this e = dropped) /\
  (gh_node this = None ->
   Greyhole.ReceivePacket RAND_MAX (Some packet) this e =
   if Greyhole.forwards RAND_MAX this k
   then Some (socket_Send packet (snd (rand e))) else None).
Proof.
  intros HM Hex Hk p k dropped.
  assert (Hcall : Greyhole.ReceivePacket RAND_MAX (Some packet) this e =
                  if gtb (random_fraction RAND_MAX k) p
                  then Some (socket_Send packet (snd (rand e))) else dropped)
    by reflexivity.
  split; [reflexivity|].
  pose proof (random_fraction_cases _ _ HM Hex Hk) as Hr. fold k in Hr.
  split; [|split; [|split]].
  - intros Hp. rewrite Hcall.
    replace (gtb (random_fraction RAND_MAX k) p) with true; [reflexivity|].
    unfold gtb, ltb, SFltb, zero in *.
    destruct Hr as [[_ ->]|(_ & m & ex & -> & _)];
      destruct p as [[|]|[|]| |[|] mp ep]; try discriminate Hp; reflexivity.
  - intros Hp. rewrite Hcall.
    replace (gtb (random_fraction RAND_MAX k) p) with false; [reflexivity|].
    rewrite one_normal in Hp. unfold gtb, leb, SFleb, SFltb in *.
    destruct Hr as [[_ ->]|(_ & m & ex & -> & _ & _ & Hle & _)];
      destruct p as [[|]|[|]| |[|] mp ep]; try discriminate Hp; try reflexivity.
    cbn [SFcompare] in *.
    destruct (Z.compare_spec (-52) ep) as [<-|Hlt|Hgt]; try discriminate Hp.
    + destruct Hle as [Hlt|[-> ->]].
      * replace (-52 ?= ex) with Gt by (symmetry; apply Z.compare_gt_iff; lia).
        reflexivity.
      * rewrite Z.compare_refl.
        pose proof (Pos.compare_cont_antisym two52 mp Eq) as Ha. cbn [CompOpp] in Ha.
        rewrite <- Ha.
        destruct (Pos.compare_cont Eq two52 mp); try discriminate Hp; reflexivity.
    + replace (ep ?= ex) with Gt by (symmetry; apply Z.compare_gt_iff; lia).
      reflexivity.
  - intros Hp. rewrite Hcall. destruct p; try discriminate Hp.
    unfold gtb, SFltb. reflexivity.
  - intros Hn. rewrite Hcall. unfold dropped, GetId. rewrite Hn. reflexivity.
Qed.

(** A greyhole on node 25 whose drop probability is NaN drops the packet
    although the sample is 1.0, the largest there is. *)
Lemma ReceivePacket_edge_cases_witness :
  exists e',
    Greyhole.ReceivePacket glibc_RAND_MAX (Some [])
      (Greyhole.Setup (Some 25) S754_nan Greyhole.new)
      (initial_env (fun _ => glibc_RAND_MAX)) = Some e' /\
    random_fraction glibc_RAND_MAX glibc_RAND_MAX = one /\
    net_sent e' = [] /\
    out e' = [LogPacketDropped 25].
Proof.
  destruct (ReceivePacket_edge_cases glibc_RAND_MAX
              (Greyhole.Setup (Some 25) S754_nan Greyhole.new)
              (initial_env (fun _ => glibc_RAND_MAX)) [] eq_refl eq_refl)
    as (_ & _ & _ & H & _).
  - simpl. unfold glibc_RAND_MAX. lia.
  - eexists. split; [apply H; reflexivity|]. repeat split.
Defined.
(** ** The event loop comes to an end *)

Lemma Simulator_Run_stops RAND_MAX stop fuel : forall w w',
  Simulator_Run RAND_MAX stop fuel w = Some w' ->
  forall ev, next_event (sim_events (env w')) = Some ev -> stop <= ev_ts ev.
Proof.
  induction fuel as [|fuel IH]; intros w w' H; cbn [Simulator_Run] in H.
  - destruct (next_event (sim_events (env w))) as [ev0|] eqn:Hnext.
    + destruct (stop <=? ev_ts ev0) eqn:Hs; [|discriminate].
      injection H as <-. intros ev Hev. rewrite Hnext in Hev. injection Hev as <-.
      apply Z.leb_le, Hs.
    + injection H as <-. intros ev Hev. congruence.
  - destruct (next_event (sim_events (env w))) as [ev0|] eqn:Hnext.
    + destruct (stop <=? ev_ts ev0) eqn:Hs.
      * injection H as <-. intros ev Hev. rewrite Hnext in Hev. injection Hev as <-.
        apply Z.leb_le, Hs.
      * destruct (invoke RAND_MAX RunEvent w) as [w1|]; [|discriminate].
        cbn [mbind option_bind] in H. eapply IH; eauto.
    + injection H as <-. intros ev Hev. congruence.
Qed.

(** X13. [Simulator::Run] comes to an end, whatever [rand()] returns.
    In a world where every watchdog is attached to a node of
    [nodesStatus] and has counted at most ten rounds, and every pending
    event is bound to a watchdog that exists, no event runs into
    undefined behaviour and the loop needs at most as many events as are
    pending plus the rounds the watchdogs have left (ten minus the
    count, for each): a round is the only thing that schedules an event,
    and each watchdog runs at most ten.  When the loop returns, no event
    before the stop time is pending. *)
Theorem event_loop_terminates RAND_MAX stop fuel w :
  runnable w ->
  (events_left w <= fuel)%nat ->
  exists w',
    Simulator_Run RAND_MAX stop fuel w = Some w' /\
    runnable w' /\
    forall ev, next_event (sim_events (env w')) = Some ev -> stop <= ev_ts ev.
Proof.
  intros Hrun Hfuel.
  destruct (Simulator_Run_terminates RAND_MAX stop fuel w Hrun Hfuel) as (w' & H & Hrun').
  exists w'. split; [exact H|]. split; [exact Hrun'|].
  exact (Simulator_Run_stops _ _ _ _ _ H).
Qed.

(** The world of [main] when its applications have started, for the
    generator that returns 0 at every call. *)
Lemma event_loop_terminates_witness :
  exists w w',
    run_calls glibc_RAND_MAX main_start_calls (main_configured rand_zero) = Some w /\
    events_left w = 264%nat /\
    Simulator_Run glibc_RAND_MAX (30 * Seconds_1) 264 w = Some w' /\
    forall ev, next_event (sim_events (env w')) = Some ev -> 30 * Seconds_1 <= ev_ts ev.
Proof.
  destruct (main_started glibc_RAND_MAX rand_zero) as (w & H & Hrun & Hleft).
  destruct (event_loop_terminates glibc_RAND_MAX (30 * Seconds_1) 264 w Hrun)
    as (w' & H' & _ & Hstop).
  - rewrite Hleft. constructor.
  - exists w, w'. auto.
Defined.
(** ** The packet totals and the loss rate [main] prints *)

Lemma div_self n :
  digits n <= prec -> div (of_Z (Zpos n)) (of_Z (Zpos n)) = one.
Proof.
  intros Hn. pose proof (digits_pos n) as Hn0.
  rewrite !of_Z_pos by lia.
  unfold div, SFdiv, normal_form. cbn [xorb].
  set (mx := shift_left n (Z.to_nat (prec - digits n))).
  assert (Hmx : 2 ^ 52 <= Zpos mx < 2 ^ 53).
  { assert (Hd : digits mx = 53)
      by (unfold mx; rewrite digits_shift_left; unfold prec in *; lia).
    pose proof (digits_bounds mx) as H. rewrite Hd in H. exact H. }
  unfold SFdiv_core_binary, Zdigits2. fold (digits mx).
  rewrite (digits_53 mx Hmx).
  unfold fexp, emin. unfold prec, emax in *.
  set (ex := digits n - 53).
  replace (Z.min (Z.max (53 + ex - (53 + ex) - 53) (3 - 1024 - 53)) (ex - ex))
    with (-53) by lia.
  replace (ex - ex - -53) with 53 by lia.
  rewrite Z.shiftl_mul_pow2 by lia.
  destruct (Z.div_eucl (Zpos mx * 2 ^ 53) (Zpos mx)) as [q r] eqn:Ediv.
  assert (Hqr : Zpos mx * 2 ^ 53 = Zpos mx * q + r /\ 0 <= r < Zpos mx).
  { pose proof (Z_div_mod (Zpos mx * 2 ^ 53) (Zpos mx) ltac:(lia)) as H.
    rewrite Ediv in H. exact H. }
  destruct Hqr as [Heq Hr].
  assert (Hq : q = 2 ^ 53) by nia.
  assert (Hr0 : r = 0) by nia.
  subst r. destruct q as [|q|q]; try lia.
  destruct (binary_round_aux_quotient false q (-53) (new_location (Zpos mx) 0))
    as (m & ef & Hres & _ & _ & Hcase); [lia|lia|].
  unfold prec, emax in Hres. rewrite Hres.
  replace (Zpos q <? 2 ^ 53) with false in Hcase by (symmetry; apply Z.ltb_ge; lia).
  destruct Hcase as [_ Hexact].
  destruct (Hexact Hq (new_location_zero _)) as [-> ->]. reflexivity.
Qed.

Lemma uint32_incr_mod a : uint32_incr (a mod UINT32_MOD) = (a + 1) mod UINT32_MOD.
Proof. unfold uint32_incr, UINT32_MOD. apply Zplus_mod_idemp_l. Qed.

Lemma fire_all_counts xs : forall s r,
  g_totalPacketsSent
    (fire_all xs {| g_totalPacketsSent := s mod UINT32_MOD;
                    g_totalPacketsReceived := r mod UINT32_MOD |}) =
    (s + Z.of_nat (length (List.filter is_TraceSent xs))) mod UINT32_MOD /\
  g_totalPacketsReceived
    (fire_all xs {| g_totalPacketsSent := s mod UINT32_MOD;
                    g_totalPacketsReceived := r mod UINT32_MOD |}) =
    (r + Z.of_nat (length (List.filter (fun x => negb (is_TraceSent x)) xs)))
      mod UINT32_MOD.
Proof.
  induction xs as [|x xs IH]; intros s r.
  - simpl. rewrite !Z.add_0_r. split; reflexivity.
  - assert (Hstep : forall t, fire_all (x :: xs) t = fire_all xs (fire x t))
      by reflexivity.
    rewrite !Hstep. cbn [List.filter length].
    destruct x as [packet|packet addr];
      cbn [fire is_TraceSent negb length];
      unfold PacketSentCallback, PacketReceivedCallback;
      cbn [g_totalPacketsSent g_totalPacketsReceived];
      rewrite uint32_incr_mod, ?Nat2Z.inj_succ.
    + destruct (IH (s + 1) r) as [-> ->]. split; f_equal; lia.
    + destruct (IH s (r + 1)) as [-> ->]. split; f_equal; lia.
Qed.

(** X14. The two callbacks count, modulo 2^32, the packets sent and the
    packets received, in whatever order they are called; and the loss
    rate [main] prints from the two totals is computed without a guard:
    it is NaN when both totals are 0, minus infinity when nothing was
    sent and something received, 1 when something was sent and nothing
    received, and 0 when as much was received as was sent. *)
Theorem packet_totals_and_loss_rate xs :
  let t := fire_all xs initial_totals in
  g_totalPacketsSent t =
    Z.of_nat (length (List.filter is_TraceSent xs)) mod UINT32_MOD /\
  g_totalPacketsReceived t =
    Z.of_nat (length (List.filter (fun x => negb (is_TraceSent x)) xs)) mod UINT32_MOD /\
  (g_totalPacketsSent t = 0 -> g_totalPacketsReceived t = 0 ->
   main_packet_loss_rate t = S754_nan) /\
  (g_totalPacketsSent t = 0 -> g_totalPacketsReceived t <> 0 ->
   main_packet_loss_rate t = S754_infinity true) /\
  (g_totalPacketsSent t <> 0 -> g_totalPacketsReceived t = 0 ->
   main_packet_loss_rate t = one) /\
  (g_totalPacketsSent t <> 0 -> g_totalPacketsReceived t = g_totalPacketsSent t ->
   main_packet_loss_rate t = zero).
Proof.
  intros t.
  destruct (fire_all_counts xs 0 0) as [Hs Hr].
  change (fire_all xs _) with t in Hs, Hr. rewrite Z.add_0_l in Hs, Hr.
  split; [exact Hs|]. split; [exact Hr|].
  assert (Hsb : 0 <= g_totalPacketsSent t < 2 ^ 32)
    by (rewrite Hs; apply Z.mod_pos_bound; reflexivity).
  assert (Hrb : 0 <= g_totalPacketsReceived t < 2 ^ 32)
    by (rewrite Hr; apply Z.mod_pos_bound; reflexivity).
  assert (Hdig : forall p, Zpos p < 2 ^ 32 -> digits p <= prec).
  { intros p Hp. apply exact_int_digits. unfold exact_int, prec. simpl Z.abs. lia. }
  unfold main_packet_loss_rate.
  destruct (g_totalPacketsSent t) as [|s|s], (g_totalPacketsReceived t) as [|r|r];
    try lia; (split; [|split; [|split]]); intros H1 H2;
    try discriminate; try contradiction; try reflexivity.
  - rewrite (of_Z_pos r) by (apply Hdig; lia). reflexivity.
  - rewrite (of_Z_pos s) by (apply Hdig; lia). reflexivity.
  - injection H2 as ->. rewrite div_self by (apply Hdig; lia). reflexivity.
Qed.
(** ** The run of [main], event by event *)



